(** * Interview guide: résumé intake and the interview session engine

    A shallow embedding of

    - [ResumeController.java]: upload with deduplication, deletion with its
      cascade.  The services injected into the controller are not part of
      the sources; their state is modelled from the specification and what
      cannot be known about them is a parameter;
    - the interview page of the frontend, the client that drives a
      session through the interview API;
    - the upload page, the résumé library, the layout and the interview
      panel of the frontend;
    - the session engine behind that API: create-or-resume, answer
      submission, early completion, the report.  Its implementation is not
      part of the sources either; it is modelled from the specification,
      and every definition concerned says so.

    Definitions come first, theorems follow. *)

From Stdlib Require Import Ascii String QArith.
From stdpp Require Import gmap strings list fin_maps pretty.

Local Open Scope Z_scope.
Local Open Scope nat_scope.

(* ===================================================================== *)
(** * Java strings *)
(* ===================================================================== *)

Module JavaString.

(** [String.toLowerCase] on the ASCII range. *)
Definition lowerChar (c : ascii) : ascii :=
  let n := nat_of_ascii c in
  if (65 <=? n) && (n <=? 90) then ascii_of_nat (n + 32) else c.

Fixpoint toLowerCase (s : string) : string :=
  match s with
  | EmptyString => EmptyString
  | String c r => String (lowerChar c) (toLowerCase r)
  end.

(** [s.contains(sub)]: [sub] is a prefix of some suffix of [s]. *)
Fixpoint contains (s sub : string) : bool :=
  String.prefix sub s ||
  match s with
  | EmptyString => false
  | String _ r => contains r sub
  end.

(** [String.trim] strips, at both ends, the characters whose code is at
    most U+0020. *)
Definition isTrimmed (c : ascii) : bool := nat_of_ascii c <=? 32.

Fixpoint trimLeft (s : string) : string :=
  match s with
  | EmptyString => EmptyString
  | String c r => if isTrimmed c then trimLeft r else s
  end.

Fixpoint trimRight (s : string) : string :=
  match s with
  | EmptyString => EmptyString
  | String c r =>
      match trimRight r with
      | EmptyString => if isTrimmed c then EmptyString else String c EmptyString
      | r' => String c r'
      end
  end.

Definition trim (s : string) : string := trimRight (trimLeft s).

Definition isEmpty (s : string) : bool :=
  match s with EmptyString => true | String _ _ => false end.

(** Every character of [s] is one that [trim] strips. *)
Fixpoint allTrimmed (s : string) : bool :=
  match s with
  | EmptyString => true
  | String c r => isTrimmed c && allTrimmed r
  end.

(** [sub] occurs in [s]: what [s.contains(sub)] decides. *)
Definition within (sub s : string) : Prop := ∃ pre post, s = pre +:+ sub +:+ post.

End JavaString.

(* ===================================================================== *)
(** * The interview session engine *)
(* ===================================================================== *)

Module Engine.

Inductive Status := NOT_STARTED | IN_PROGRESS | COMPLETED.

#[global] Instance Status_eq_dec : EqDecision Status.
Proof. solve_decision. Defined.

(** The typed errors of the engine. *)
Inductive Error :=
| ExtractionFailed
| GenerationFailed
| SessionNotFound
| SessionCompleted
| SessionNotCompleted
| IndexMismatch
| GradingDeferred
| SynthesisFailed.

Inductive Result (A : Type) :=
| Ok (a : A)
| Err (e : Error).
Arguments Ok {A} a.
Arguments Err {A} e.

(** The records below carry the field names the frontend reads
    ([types/interview], as used by the interview page and the report
    panel).  The creation timestamp of a session, which no operation
    reads, is left out. *)
Record InterviewQuestion := {
  questionIndex : nat;
  question : string;
  category : string;
  userAnswer : option string;
  score : option Z;
  feedback : option string
}.

Record InterviewSession := {
  sessionId : nat;
  resumeId : Z;
  questions : list InterviewQuestion;
  currentQuestionIndex : nat;
  status : Status
}.

Record CategoryScore := {
  cs_category : string;
  cs_score : Q
}.

Record QuestionDetail := {
  qd_questionIndex : nat;
  qd_question : string;
  qd_category : string;
  qd_score : Z;
  qd_userAnswer : option string;
  qd_feedback : string
}.

Record ReferenceAnswer := {
  ra_questionIndex : nat;
  ra_question : string;
  ra_referenceAnswer : string;
  ra_keyPoints : list string
}.

Record InterviewReport := {
  overallScore : Q;
  categoryScores : list CategoryScore;
  overallFeedback : string;
  strengths : list string;
  improvements : list string;
  questionDetails : list QuestionDetail;
  referenceAnswers : list ReferenceAnswer
}.

Record SubmitAnswerResponse := {
  graded : bool;
  hasNextQuestion : bool;
  nextQuestion : option InterviewQuestion
}.

(** One entry per call of the engine to the grading capability (a call
    includes its retries). *)
Inductive CapabilityCall :=
| CallGenerateQuestions (rid : Z) (count : nat)
| CallGradeAnswer (sid idx : nat)
| CallSynthesizeReport (sid : nat)
| CallReferenceAnswer (sid idx : nat).

#[global] Instance CapabilityCall_eq_dec : EqDecision CapabilityCall.
Proof. solve_decision. Defined.

(** Modelled from the spec: the grading capability of §6, an external
    collaborator.  Each call may fail transiently, so every operation takes
    the number of capability calls made so far ([epoch]) and the number of
    the attempt within the current call; [None] is a failed attempt.
    [maxAttempts] bounds the retries. *)
Class GradingCapability := {
  generateQuestions : nat → nat → string → nat → option (list (string * string));
  gradeAnswer : nat → nat → string → string → option (Z * string);
  synthesizeReport : nat → nat → list QuestionDetail → option (string * list string * list string);
  referenceAnswer : nat → nat → string → option (string * list string);
  maxAttempts : nat
}.

(** Modelled from the spec: what the engine persists (sessions with their
    questions, cached reports), the source of fresh session ids, and the
    capability calls made so far. *)
Record Store := {
  sessions : gmap nat InterviewSession;
  reports : gmap nat InterviewReport;
  nextSessionId : nat;
  capabilityCalls : list CapabilityCall
}.

Definition emptyStore : Store :=
  {| sessions := ∅; reports := ∅; nextSessionId := 0; capabilityCalls := [] |}.

Definition isCompleted (s : InterviewSession) : bool :=
  match status s with COMPLETED => true | _ => false end.

Definition epoch (st : Store) : nat := length (capabilityCalls st).

Definition called (c : CapabilityCall) (st : Store) : Store :=
  {| sessions := sessions st; reports := reports st;
     nextSessionId := nextSessionId st;
     capabilityCalls := capabilityCalls st ++ [c] |}.

Definition calledAll (cs : list CapabilityCall) (st : Store) : Store :=
  {| sessions := sessions st; reports := reports st;
     nextSessionId := nextSessionId st;
     capabilityCalls := capabilityCalls st ++ cs |}.

Definition putSession (sid : nat) (s : InterviewSession) (st : Store) : Store :=
  {| sessions := <[sid := s]> (sessions st); reports := reports st;
     nextSessionId := nextSessionId st;
     capabilityCalls := capabilityCalls st |}.

Definition putReport (sid : nat) (r : InterviewReport) (st : Store) : Store :=
  {| sessions := sessions st; reports := <[sid := r]> (reports st);
     nextSessionId := nextSessionId st;
     capabilityCalls := capabilityCalls st |}.

(** Modelled from the spec: "the engine applies bounded retry with backoff
    and surfaces a typed failure after exhaustion" (§6).  Attempts
    [k, k+1, ...], at most [n] of them. *)
Fixpoint retryFrom {A : Type} (attempt : nat → option A) (k n : nat) : option A :=
  match n with
  | 0 => None
  | S n' =>
      match attempt k with
      | Some a => Some a
      | None => retryFrom attempt (S k) n'
      end
  end.

Section WithCapability.
Context `{GradingCapability}.

Definition retry {A : Type} (attempt : nat → option A) : option A :=
  retryFrom attempt 0 maxAttempts.

(** Modelled from the spec: [findUnfinishedSession(resumeId)] of §4.2, the
    read-only lookup of the active (non-COMPLETED) session of a résumé. *)
Definition findUnfinishedSession (rid : Z) (st : Store) : option InterviewSession :=
  snd <$> head (map_to_list
    (filter (λ kv : nat * InterviewSession,
               resumeId kv.2 = rid ∧ status kv.2 ≠ COMPLETED) (sessions st))).

Definition newQuestion (i : nat) (tc : string * string) : InterviewQuestion :=
  {| questionIndex := i; question := tc.1; category := tc.2;
     userAnswer := None; score := None; feedback := None |}.

(** Modelled from the spec: [createOrResumeSession] of §4.2.  Step 1
    returns the active session of the résumé unchanged; step 2 generates
    the questions and persists a new session with cursor 0; step 3 fails
    with [GenerationFailed], persisting nothing, when generation does not
    produce the requested count. *)
Definition createOrResumeSession (resumeText : string) (questionCount : nat)
    (rid : Z) (st : Store) : Result InterviewSession * Store :=
  match findUnfinishedSession rid st with
  | Some s => (Ok s, st)
  | None =>
      let generated :=
        retry (λ k, generateQuestions (epoch st) k resumeText questionCount) in
      let st1 := called (CallGenerateQuestions rid questionCount) st in
      match generated with
      | Some qs =>
          if length qs =? questionCount then
            let s := {| sessionId := nextSessionId st; resumeId := rid;
                        questions := imap newQuestion qs;
                        currentQuestionIndex := 0; status := NOT_STARTED |} in
            (Ok s, {| sessions := <[nextSessionId st := s]> (sessions st1);
                      reports := reports st1;
                      nextSessionId := S (nextSessionId st);
                      capabilityCalls := capabilityCalls st1 |})
          else (Err GenerationFailed, st1)
      | None => (Err GenerationFailed, st1)
      end
  end.

Definition recordAnswer (answer : string) (grade : option (Z * string))
    (q : InterviewQuestion) : InterviewQuestion :=
  {| questionIndex := questionIndex q; question := question q;
     category := category q; userAnswer := Some answer;
     score := fst <$> grade; feedback := snd <$> grade |}.

(** The store after the grading call for the question at the cursor, if
    there is a question there. *)
Definition afterGrading (sid cursor : nat) (q : option InterviewQuestion) (st : Store)
    : Store :=
  match q with
  | Some _ => called (CallGradeAnswer sid cursor) st
  | None => st
  end.

(** Modelled from the spec: [submitAnswer] of §4.3.  The three failures in
    the order the spec lists them; on success the answer is recorded on
    the question at the cursor, that single question is graded (with
    retries; on exhaustion the answer stays recorded without a score), the
    cursor advances by one, and the session is IN_PROGRESS with a next
    question if the new cursor is within bounds, COMPLETED otherwise. *)
Definition submitAnswer (sid idx : nat) (answerText : string) (st : Store)
    : Result SubmitAnswerResponse * Store :=
  match sessions st !! sid with
  | None => (Err SessionNotFound, st)
  | Some s =>
      if isCompleted s then (Err SessionCompleted, st)
      else if negb (idx =? currentQuestionIndex s) then (Err IndexMismatch, st)
      else
        let cursor := currentQuestionIndex s in
        let grade :=
          match questions s !! cursor with
          | Some q => retry (λ k, gradeAnswer (epoch st) k (question q) answerText)
          | None => None
          end in
        let qs := alter (recordAnswer answerText grade) cursor (questions s) in
        let next := qs !! S cursor in
        let s' := {| sessionId := sessionId s; resumeId := resumeId s;
                     questions := qs; currentQuestionIndex := S cursor;
                     status := if next is Some _ then IN_PROGRESS else COMPLETED |} in
        (Ok {| graded := if grade is Some _ then true else false;
               hasNextQuestion := if next is Some _ then true else false;
               nextQuestion := next |},
         putSession sid s' (afterGrading sid cursor (questions s !! cursor) st))
  end.

Definition nonResponseFeedback : string := "No answer was given.".

Definition zeroFill (cursor i : nat) (q : InterviewQuestion) : InterviewQuestion :=
  match userAnswer q with
  | None =>
      if cursor <=? i then
        {| questionIndex := questionIndex q; question := question q;
           category := category q; userAnswer := None;
           score := Some 0%Z; feedback := Some nonResponseFeedback |}
      else q
  | Some _ => q
  end.

(** Modelled from the spec: [completeEarly] of §4.3.  Every unanswered
    question from the cursor onward gets score 0 and the non-response
    feedback, the session becomes COMPLETED, the cursor stays. *)
Definition completeEarly (sid : nat) (st : Store) : Result unit * Store :=
  match sessions st !! sid with
  | None => (Err SessionNotFound, st)
  | Some s =>
      if isCompleted s then (Err SessionCompleted, st)
      else
        let s' := {| sessionId := sessionId s; resumeId := resumeId s;
                     questions := imap (zeroFill (currentQuestionIndex s)) (questions s);
                     currentQuestionIndex := currentQuestionIndex s;
                     status := COMPLETED |} in
        (Ok (), putSession sid s' st)
  end.

(** ** The report synthesizer *)

Definition deferredFeedback : string := "Grading was deferred.".

Definition detailOf (q : InterviewQuestion) (grade : option (Z * string)) : QuestionDetail :=
  {| qd_questionIndex := questionIndex q; qd_question := question q;
     qd_category := category q;
     qd_score := default 0%Z (fst <$> grade);
     qd_userAnswer := userAnswer q;
     qd_feedback := default (if userAnswer q is Some _ then deferredFeedback
                             else nonResponseFeedback) (snd <$> grade) |}.

(** Modelled from the spec: the per-question detail of a report echoes
    question, answer, score and feedback; an unanswered question counts
    as 0; an answer whose grading was deferred at submission is graded
    again now ("retried lazily at report time", §7), one capability call
    each, and counts as 0 if that fails too. *)
Fixpoint questionDetailsOf (sid ep : nat) (qs : list InterviewQuestion)
    : list QuestionDetail * list CapabilityCall :=
  match qs with
  | [] => ([], [])
  | q :: rest =>
      match score q, userAnswer q with
      | Some z, _ =>
          let '(ds, cs) := questionDetailsOf sid ep rest in
          (detailOf q (Some (z, default "" (feedback q))) :: ds, cs)
      | None, None =>
          let '(ds, cs) := questionDetailsOf sid ep rest in
          (detailOf q None :: ds, cs)
      | None, Some a =>
          let grade := retry (λ k, gradeAnswer ep k (question q) a) in
          let '(ds, cs) := questionDetailsOf sid (S ep) rest in
          (detailOf q grade :: ds, CallGradeAnswer sid (questionIndex q) :: cs)
      end
  end.

(** Modelled from the spec: "reference answers are produced per question
    (including unanswered ones)", one capability call each; the first
    call that fails after its retries ends the pass. *)
Fixpoint referenceAnswersOf (sid ep : nat) (qs : list InterviewQuestion)
    : option (list ReferenceAnswer) * list CapabilityCall :=
  match qs with
  | [] => (Some [], [])
  | q :: rest =>
      let call := CallReferenceAnswer sid (questionIndex q) in
      match retry (λ k, referenceAnswer ep k (question q)) with
      | None => (None, [call])
      | Some (text, points) =>
          let '(ras, cs) := referenceAnswersOf sid (S ep) rest in
          ((λ l, {| ra_questionIndex := questionIndex q; ra_question := question q;
                    ra_referenceAnswer := text; ra_keyPoints := points |} :: l) <$> ras,
           call :: cs)
      end
  end.

Definition sumScores (ds : list QuestionDetail) : Z :=
  foldr (λ d acc, (qd_score d + acc)%Z) 0%Z ds.

(** The mean of [n] scores whose sum is [total]; 0 when there is none. *)
Definition meanOf (total : Z) (n : nat) : Q :=
  match n with
  | 0 => 0%Q
  | S _ => (total # Pos.of_nat n)%Q
  end.

(** Scores grouped by category tag: a table of (category, (sum, count)),
    one row per category, in the order of first appearance. *)
Fixpoint addScore (c : string) (z : Z) (table : list (string * (Z * nat)))
    : list (string * (Z * nat)) :=
  match table with
  | [] => [(c, (z, 1))]
  | (c', (total, n)) :: rest =>
      if String.eqb c c' then (c', ((total + z)%Z, S n)) :: rest
      else (c', (total, n)) :: addScore c z rest
  end.

Definition groupByCategory (ds : list QuestionDetail) : list (string * (Z * nat)) :=
  foldl (λ table d, addScore (qd_category d) (qd_score d) table) [] ds.

Definition categoryScoresOf (ds : list QuestionDetail) : list CategoryScore :=
  (λ row : string * (Z * nat),
     {| cs_category := row.1; cs_score := meanOf row.2.1 row.2.2 |})
  <$> groupByCategory ds.

(** Modelled from the spec: [getReport] of §4.4.  It fails on an unknown
    or not yet completed session, returns the cached report if there is
    one, and otherwise computes the scores, makes the single synthesis
    call and the reference-answer calls, persists the report and returns
    it.  A failed synthesis persists nothing and leaves the session
    COMPLETED. *)
Definition getReport (sid : nat) (st : Store) : Result InterviewReport * Store :=
  match sessions st !! sid with
  | None => (Err SessionNotFound, st)
  | Some s =>
      if negb (isCompleted s) then (Err SessionNotCompleted, st)
      else
        match reports st !! sid with
        | Some r => (Ok r, st)
        | None =>
            let '(details, regrades) := questionDetailsOf sid (epoch st) (questions s) in
            let st1 := calledAll regrades st in
            let synthesis := retry (λ k, synthesizeReport (epoch st1) k details) in
            let st2 := called (CallSynthesizeReport sid) st1 in
            match synthesis with
            | None => (Err SynthesisFailed, st2)
            | Some (narrative, strong, weak) =>
                let '(refs, refCalls) := referenceAnswersOf sid (epoch st2) (questions s) in
                let st3 := calledAll refCalls st2 in
                match refs with
                | None => (Err SynthesisFailed, st3)
                | Some ras =>
                    let r := {| overallScore := meanOf (sumScores details) (length details);
                                categoryScores := categoryScoresOf details;
                                overallFeedback := narrative;
                                strengths := strong;
                                improvements := weak;
                                questionDetails := details;
                                referenceAnswers := ras |} in
                    (Ok r, putReport sid r st3)
                end
            end
        end
  end.

(** Modelled from the spec: the cascade of résumé deletion (§3, §4.1)
    removes every session owned by the résumé, with its questions and its
    report. *)
Definition deleteSessionsByResumeId (rid : Z) (st : Store) : Store :=
  {| sessions := filter (λ kv : nat * InterviewSession, resumeId kv.2 ≠ rid) (sessions st);
     reports := filter (λ kv : nat * InterviewReport,
                          resumeId <$> sessions st !! kv.1 ≠ Some rid) (reports st);
     nextSessionId := nextSessionId st;
     capabilityCalls := capabilityCalls st |}.

(** ** The operations as a transition system *)

Inductive Op :=
| OpCreateOrResume (resumeText : string) (questionCount : nat) (rid : Z)
| OpFindUnfinished (rid : Z)
| OpSubmitAnswer (sid idx : nat) (answerText : string)
| OpCompleteEarly (sid : nat)
| OpGetReport (sid : nat)
| OpDeleteSessions (rid : Z).

#[global] Instance Op_eq_dec : EqDecision Op.
Proof. solve_decision. Defined.

Definition exec (st : Store) (op : Op) : Store :=
  match op with
  | OpCreateOrResume text n rid => (createOrResumeSession text n rid st).2
  | OpFindUnfinished _ => st
  | OpSubmitAnswer sid idx a => (submitAnswer sid idx a st).2
  | OpCompleteEarly sid => (completeEarly sid st).2
  | OpGetReport sid => (getReport sid st).2
  | OpDeleteSessions rid => deleteSessionsByResumeId rid st
  end.

Definition run (ops : list Op) (st : Store) : Store := foldl exec st ops.

(** ** Notions used to state the properties *)

(** A session is active while it is not COMPLETED. *)
Definition active (s : InterviewSession) : Prop := status s ≠ COMPLETED.

(** At most one active session per résumé id. *)
Definition atMostOneActive (st : Store) : Prop :=
  ∀ i j s t,
    sessions st !! i = Some s → sessions st !! j = Some t →
    resumeId s = resumeId t → active s → active t → i = j.

(** The arithmetic mean, as a relation: [v] times the number of scores
    is their sum. *)
Definition total (zs : list Z) : Z := foldr Z.add 0%Z zs.

Definition isMean (v : Q) (zs : list Z) : Prop :=
  zs ≠ [] ∧ (v * inject_Z (Z.of_nat (length zs)) == inject_Z (total zs))%Q.

Definition scoresOf (ds : list QuestionDetail) : list Z := qd_score <$> ds.

Definition scoresIn (c : string) (ds : list QuestionDetail) : list Z :=
  qd_score <$> filter (λ d, qd_category d = c) ds.

(** A detail of the report echoes its question; the score is the
    question's own, and 0 for a question without answer and score. *)
Definition echoes (q : InterviewQuestion) (d : QuestionDetail) : Prop :=
  qd_questionIndex d = questionIndex q ∧ qd_question d = question q ∧
  qd_category d = category q ∧ qd_userAnswer d = userAnswer q ∧
  (∀ z, score q = Some z → qd_score d = z) ∧
  (score q = None → userAnswer q = None → qd_score d = 0%Z).

(** The scores of a report agree with its per-question details. *)
Definition reportScored (r : InterviewReport) : Prop :=
  (questionDetails r ≠ [] → isMean (overallScore r) (scoresOf (questionDetails r))) ∧
  NoDup (cs_category <$> categoryScores r) ∧
  (∀ c, c ∈ (cs_category <$> categoryScores r) ↔
        c ∈ (qd_category <$> questionDetails r)) ∧
  (∀ cs, cs ∈ categoryScores r →
         isMean (cs_score cs) (scoresIn (cs_category cs) (questionDetails r))).

Definition reportOf (s : InterviewSession) (r : InterviewReport) : Prop :=
  Forall2 echoes (questions s) (questionDetails r) ∧ reportScored r.

(** What holds of every store the operations can produce: session ids
    are below the next fresh one, and a cached report belongs to a
    COMPLETED session whose questions it reports. *)
Definition consistent (st : Store) : Prop :=
  (∀ i s, sessions st !! i = Some s → i < nextSessionId st) ∧
  (∀ sid r, reports st !! sid = Some r →
     ∃ s, sessions st !! sid = Some s ∧ status s = COMPLETED ∧ reportOf s r).

(** A table of sums and counts that accounts for exactly the details
    [ds]. *)
Definition tabulates (table : list (string * (Z * nat))) (ds : list QuestionDetail) : Prop :=
  NoDup table.*1 ∧
  (∀ c, c ∈ table.*1 ↔ c ∈ (qd_category <$> ds)) ∧
  (∀ c t n, (c, (t, n)) ∈ table →
            t = total (scoresIn c ds) ∧ n = length (scoresIn c ds)).

(** Question [i] of a session carries the index [i]. *)
Definition wellIndexed (s : InterviewSession) : Prop :=
  ∀ i q, questions s !! i = Some q → questionIndex q = i.

Definition allIndexed (st : Store) : Prop :=
  ∀ sid s, sessions st !! sid = Some s → wellIndexed s.

(** The stores the operations can produce from the empty one. *)
Definition reachable (st : Store) : Prop := ∃ ops, st = run ops emptyStore.

Definition isSynthesisOf (sid : nat) (c : CapabilityCall) : bool :=
  match c with
  | CallSynthesizeReport sid' => sid =? sid'
  | _ => false
  end.

Fixpoint countCapabilityCalls (p : CapabilityCall → bool) (cs : list CapabilityCall) : nat :=
  match cs with
  | [] => 0
  | c :: rest => (if p c then 1 else 0) + countCapabilityCalls p rest
  end.

(** The number of synthesis calls made so far for a session. *)
Definition synthesisCalls (sid : nat) (st : Store) : nat :=
  countCapabilityCalls (isSynthesisOf sid) (capabilityCalls st).

(** What a call of [getReport] does, case by case: the outcome and the
    store afterwards. *)
Inductive getReportSpec (sid : nat) (st : Store) : Result InterviewReport → Store → Prop :=
| report_unknown :
    sessions st !! sid = None →
    getReportSpec sid st (Err SessionNotFound) st
| report_too_early s :
    sessions st !! sid = Some s → active s →
    getReportSpec sid st (Err SessionNotCompleted) st
| report_cached s r :
    sessions st !! sid = Some s → status s = COMPLETED →
    reports st !! sid = Some r →
    getReportSpec sid st (Ok r) st
| report_failed s st' :
    sessions st !! sid = Some s → status s = COMPLETED →
    reports st !! sid = None →
    sessions st' = sessions st → reports st' = reports st →
    nextSessionId st' = nextSessionId st →
    getReportSpec sid st (Err SynthesisFailed) st'
| report_computed s r st' :
    sessions st !! sid = Some s → status s = COMPLETED →
    reports st !! sid = None →
    reportOf s r →
    sessions st' = sessions st → reports st' = <[sid := r]> (reports st) →
    nextSessionId st' = nextSessionId st →
    synthesisCalls sid st' = S (synthesisCalls sid st) →
    getReportSpec sid st (Ok r) st'.

End WithCapability.

End Engine.

(* ===================================================================== *)
(** * The résumé controller ([ResumeController.java]) *)
(* ===================================================================== *)

Module Resume.

(** ** Data *)

Record MultipartFile := {
  getOriginalFilename : string;
  getBytes : list Byte.byte
}.

(** [file.isEmpty()] *)
Definition fileIsEmpty (file : MultipartFile) : bool :=
  match getBytes file with [] => true | _ :: _ => false end.

(** The controller reads [overallScore] only; the other attributes are
    those of §3. *)
Record ResumeAnalysisResponse := {
  overallScore : Z;
  summary : string;
  strengths : list string;
  weaknesses : list string
}.

(** The fields of [ResumeEntity] the controller reads, named by their
    getters; a [None] is Java's [null].  The fingerprint is the identity
    the specification gives a record (§3); the upload timestamp, which the
    controller does not read, is left out. *)
Record ResumeEntity := {
  getId : Z;
  getFingerprint : string;
  getResumeText : string;
  getStorageKey : option string;
  getStorageUrl : option string
}.

(** The constants of [ErrorCode] the controller throws. *)
Inductive ErrorCode :=
| BAD_REQUEST
| RESUME_UPLOAD_FAILED
| RESUME_PARSE_FAILED
| RESUME_NOT_FOUND.

(** What a request or a collaborator can throw. *)
Inductive Failure :=
| BusinessException (code : ErrorCode)
| OtherException (message : string).

(** A call of a collaborator returns or throws. *)
Inductive Attempt (A : Type) :=
| Returns (a : A)
| Throws (e : Failure).
Arguments Returns {A} a.
Arguments Throws {A} e.

(** The payload of [Result.success] on upload: the map with the keys
    [analysis], [storage] ([fileKey], [fileUrl], [resumeId]) and
    [duplicate]. *)
Record UploadResult := {
  analysis : ResumeAnalysisResponse;
  fileKey : string;
  fileUrl : string;
  resumeId : Z;
  duplicate : bool
}.

(** The typed error of the specification an [ErrorCode] stands for, if
    any: only the parse failure has a counterpart in the taxonomy of §7. *)
Definition specError (code : ErrorCode) : option Engine.Error :=
  match code with
  | RESUME_PARSE_FAILED => Some Engine.ExtractionFailed
  | BAD_REQUEST | RESUME_UPLOAD_FAILED | RESUME_NOT_FOUND => None
  end.

(** ** Collaborators

    The services injected into the controller.  Their implementations are
    not part of the sources; what cannot be known about them is left as a
    parameter.  Operations whose outcome may differ between calls take the
    number of collaborator calls made so far ([now]). *)

Class ResumeParseService := {
  detectContentType : MultipartFile → option string;
  parseResume : MultipartFile → Attempt (option string)
}.

Class ResumeGradingService := {
  analyzeResume : nat → string → Attempt ResumeAnalysisResponse
}.

Class FileStorageService := {
  (** the key under which an upload is stored, or the exception *)
  storeUnder : nat → MultipartFile → Attempt string;
  getFileUrl : string → string;
  (** whether deleting a key throws *)
  deleteThrows : nat → string → option Failure
}.

Class ResumePersistenceService := {
  (** the content fingerprint under which an upload is looked up and saved *)
  fingerprint : MultipartFile → string
}.

Class AppConfigProperties := {
  getAllowedTypes : option (list string)
}.

(** The calls the controller makes to its collaborators, in order. *)
Inductive Call :=
| DetectContentType (file : MultipartFile)
| FindExistingResume (file : MultipartFile)
| GetLatestAnalysisAsDTO (id : Z)
| AnalyzeResume (text : string)
| ParseResume (file : MultipartFile)
| UploadResume (file : MultipartFile)
| GetFileUrl (key : string)
| SaveResume (file : MultipartFile) (key : string)
| SaveAnalysis (id : Z)
| FindById (id : Z)
| StorageDeleteResume (key : string)
| DeleteSessionsByResumeId (id : Z)
| PersistenceDeleteResume (id : Z).

(** Modelled from the spec: the state behind the collaborators.  The
    résumé records by id, the analyses of each résumé (latest first), the
    stored blobs by key, the sessions of the interview engine, the next
    record id, and the calls made so far. *)
Record World := {
  resumes : gmap Z ResumeEntity;
  analyses : gmap Z (list ResumeAnalysisResponse);
  blobs : gmap string MultipartFile;
  interviews : Engine.Store;
  nextResumeId : Z;
  calls : list Call
}.

Definition emptyWorld : World :=
  {| resumes := ∅; analyses := ∅; blobs := ∅; interviews := Engine.emptyStore;
     nextResumeId := 1; calls := [] |}.

Definition now (w : World) : nat := length (calls w).

(** ** The request monad: state, and exceptions that keep the state *)

Definition M (A : Type) : Type := World → Attempt A * World.

#[global] Instance M_ret : MRet M := λ A a w, (Returns a, w).

#[global] Instance M_bind : MBind M := λ A B f c w,
  match c w with
  | (Returns a, w') => f a w'
  | (Throws e, w') => (Throws e, w')
  end.

Definition throw {A : Type} (e : Failure) : M A := λ w, (Throws e, w).

(** [try { c } catch (Exception e) { h e }] *)
Definition tryCatch {A : Type} (c : M A) (h : Failure → M A) : M A := λ w,
  match c w with
  | (Returns a, w') => (Returns a, w')
  | (Throws e, w') => h e w'
  end.

Definition gets {A : Type} (f : World → A) : M A := λ w, (Returns (f w), w).

Definition modify (f : World → World) : M unit := λ w, (Returns (), f w).

Definition liftAttempt {A : Type} (a : Attempt A) : M A := λ w, (a, w).

Definition setCalls (cs : list Call) (w : World) : World :=
  {| resumes := resumes w; analyses := analyses w; blobs := blobs w;
     interviews := interviews w; nextResumeId := nextResumeId w; calls := cs |}.

Definition setBlobs (b : gmap string MultipartFile) (w : World) : World :=
  {| resumes := resumes w; analyses := analyses w; blobs := b;
     interviews := interviews w; nextResumeId := nextResumeId w; calls := calls w |}.

Definition setInterviews (st : Engine.Store) (w : World) : World :=
  {| resumes := resumes w; analyses := analyses w; blobs := blobs w;
     interviews := st; nextResumeId := nextResumeId w; calls := calls w |}.

Definition setAnalyses (a : gmap Z (list ResumeAnalysisResponse)) (w : World) : World :=
  {| resumes := resumes w; analyses := a; blobs := blobs w;
     interviews := interviews w; nextResumeId := nextResumeId w; calls := calls w |}.

Definition logCall (c : Call) : M unit :=
  modify (λ w, setCalls (calls w ++ [c]) w).

Section Controller.
Context `{ResumeParseService} `{ResumeGradingService} `{FileStorageService}
        `{ResumePersistenceService} `{AppConfigProperties}.

(** ** The collaborators as operations on the world *)

Definition parseService_detectContentType (file : MultipartFile) : M (option string) :=
  logCall (DetectContentType file);;
  mret (detectContentType file).

Definition parseService_parseResume (file : MultipartFile) : M (option string) :=
  logCall (ParseResume file);;
  liftAttempt (parseResume file).

Definition gradingService_analyzeResume (text : string) : M ResumeAnalysisResponse :=
  t ← gets now;
  logCall (AnalyzeResume text);;
  liftAttempt (analyzeResume t text).

(** Modelled from the spec: storage is an opaque blob store,
    [put(bytes) → key], [get(key) → url], [delete(key)] (§6). *)
Definition storageService_uploadResume (file : MultipartFile) : M string :=
  t ← gets now;
  logCall (UploadResume file);;
  key ← liftAttempt (storeUnder t file);
  modify (λ w, setBlobs (<[key := file]> (blobs w)) w);;
  mret key.

Definition storageService_getFileUrl (key : string) : M string :=
  logCall (GetFileUrl key);;
  mret (getFileUrl key).

Definition storageService_deleteResume (key : string) : M unit :=
  t ← gets now;
  logCall (StorageDeleteResume key);;
  match deleteThrows t key with
  | Some e => throw e
  | None => modify (λ w, setBlobs (delete key (blobs w)) w)
  end.

(** Modelled from the spec: "looks up an existing ResumeRecord by
    fingerprint" (§4.1). *)
Definition existingResume (file : MultipartFile) (w : World) : option ResumeEntity :=
  snd <$> head (map_to_list
    (filter (λ kv : Z * ResumeEntity, getFingerprint kv.2 = fingerprint file)
            (resumes w))).

Definition persistenceService_findExistingResume (file : MultipartFile)
    : M (option ResumeEntity) :=
  logCall (FindExistingResume file);;
  gets (existingResume file).

(** Modelled from the spec: a résumé may be analysed more than once,
    "the latest is canonical" (§3). *)
Definition latestAnalysis (id : Z) (w : World) : option ResumeAnalysisResponse :=
  analyses w !! id ≫= head.

Definition persistenceService_getLatestAnalysisAsDTO (id : Z)
    : M (option ResumeAnalysisResponse) :=
  logCall (GetLatestAnalysisAsDTO id);;
  gets (latestAnalysis id).

(** Modelled from the spec: creates the ResumeRecord with its
    fingerprint, storage key, public URL and extracted text (§3). *)
Definition persistenceService_saveResume (file : MultipartFile) (text key url : string)
    : M ResumeEntity :=
  logCall (SaveResume file key);;
  id ← gets nextResumeId;
  let entity := {| getId := id; getFingerprint := fingerprint file;
                   getResumeText := text; getStorageKey := Some key;
                   getStorageUrl := Some url |} in
  modify (λ w, {| resumes := <[id := entity]> (resumes w); analyses := analyses w;
                  blobs := blobs w; interviews := interviews w;
                  nextResumeId := (id + 1)%Z; calls := calls w |});;
  mret entity.

Definition persistenceService_saveAnalysis (resume : ResumeEntity)
    (a : ResumeAnalysisResponse) : M unit :=
  logCall (SaveAnalysis (getId resume));;
  modify (λ w, setAnalyses
    (<[getId resume := a :: default [] (analyses w !! getId resume)]> (analyses w)) w).

Definition persistenceService_findById (id : Z) : M (option ResumeEntity) :=
  logCall (FindById id);;
  gets (λ w, resumes w !! id).

(** Modelled from the spec: "deletes the ResumeRecord and its analyses"
    (§4.1). *)
Definition persistenceService_deleteResume (id : Z) : M unit :=
  logCall (PersistenceDeleteResume id);;
  modify (λ w, {| resumes := delete id (resumes w); analyses := delete id (analyses w);
                  blobs := blobs w; interviews := interviews w;
                  nextResumeId := nextResumeId w; calls := calls w |}).

Definition interviewPersistenceService_deleteSessionsByResumeId (id : Z) : M unit :=
  logCall (DeleteSessionsByResumeId id);;
  modify (λ w, setInterviews (Engine.deleteSessionsByResumeId id (interviews w)) w).

(** ** The controller *)

(** [isAllowedType(contentType)] *)
Definition isAllowedType (contentType : option string) : bool :=
  match contentType, getAllowedTypes with
  | Some ct, Some allowedTypes =>
      existsb (λ allowed,
        JavaString.contains (JavaString.toLowerCase ct) (JavaString.toLowerCase allowed)
        || JavaString.contains (JavaString.toLowerCase allowed) (JavaString.toLowerCase ct))
        allowedTypes
  | _, _ => false
  end.

(** [resumeText == null || resumeText.trim().isEmpty()] *)
Definition noText (resumeText : option string) : bool :=
  match resumeText with
  | None => true
  | Some text => JavaString.isEmpty (JavaString.trim text)
  end.

(** [POST /api/resume/upload] *)
Definition uploadAndAnalyze (file : MultipartFile) : M UploadResult :=
  (* 1. the file must not be empty *)
  if fileIsEmpty file then throw (BusinessException BAD_REQUEST) else
  (* 2. the file type must be allowed *)
  contentType ← parseService_detectContentType file;
  if negb (isAllowedType contentType) then
    throw (BusinessException RESUME_UPLOAD_FAILED)
  else
  (* 3. deduplication *)
  existingResume ← persistenceService_findExistingResume file;
  match existingResume with
  | Some resume =>
      cached ← persistenceService_getLatestAnalysisAsDTO (getId resume);
      a ← match cached with
          | Some a => mret a
          | None => gradingService_analyzeResume (getResumeText resume)
          end;
      mret {| analysis := a;
              fileKey := default "" (getStorageKey resume);
              fileUrl := default "" (getStorageUrl resume);
              resumeId := getId resume;
              duplicate := true |}
  | None =>
      (* 4. text extraction *)
      resumeText ← parseService_parseResume file;
      match resumeText with
      | None => throw (BusinessException RESUME_PARSE_FAILED)
      | Some text =>
          if JavaString.isEmpty (JavaString.trim text) then
            throw (BusinessException RESUME_PARSE_FAILED)
          else
          (* 5. store the file *)
          key ← storageService_uploadResume file;
          url ← storageService_getFileUrl key;
          (* 6. save the record *)
          savedResume ← persistenceService_saveResume file text key url;
          (* 7. analyse *)
          a ← gradingService_analyzeResume text;
          (* 8. save the analysis *)
          persistenceService_saveAnalysis savedResume a;;
          (* 9. the result, with the storage information *)
          mret {| analysis := a; fileKey := key; fileUrl := url;
                  resumeId := getId savedResume; duplicate := false |}
      end
  end.

(** [DELETE /api/resume/{id}] *)
Definition deleteResume (id : Z) : M unit :=
  resumeOpt ← persistenceService_findById id;
  match resumeOpt with
  | None => throw (BusinessException RESUME_NOT_FOUND)
  | Some resume =>
      (* 1. the stored file, if there is one; a failure is only logged *)
      match getStorageKey resume with
      | Some key =>
          if negb (JavaString.isEmpty key) then
            tryCatch (storageService_deleteResume key) (λ _, mret ())
          else mret ()
      | None => mret ()
      end;;
      (* 2. the interview sessions *)
      interviewPersistenceService_deleteSessionsByResumeId id;;
      (* 3. the record and its analyses *)
      persistenceService_deleteResume id;;
      mret ()
  end.

(** ** Notions used to state the properties *)

(** The two checks that precede the intake proper. *)
Definition validUpload (file : MultipartFile) : Prop :=
  fileIsEmpty file = false ∧ isAllowedType (detectContentType file) = true.

(** The response to a duplicate upload that matched [resume]. *)
Definition duplicateOf (resume : ResumeEntity) (a : ResumeAnalysisResponse) : UploadResult :=
  {| analysis := a;
     fileKey := default "" (getStorageKey resume);
     fileUrl := default "" (getStorageUrl resume);
     resumeId := getId resume;
     duplicate := true |}.

Definition asDuplicate (r : UploadResult) : UploadResult :=
  {| analysis := analysis r; fileKey := fileKey r; fileUrl := fileUrl r;
     resumeId := resumeId r; duplicate := true |}.

(** The world after some more calls, nothing else changed. *)
Definition afterCalls (cs : list Call) (w : World) : World :=
  setCalls (calls w ++ cs) w.

(** [n] uploads of the same file in a row; the outcomes are dropped. *)
Fixpoint uploadTimes (n : nat) (file : MultipartFile) (w : World) : World :=
  match n with
  | 0 => w
  | S n' => uploadTimes n' file (uploadAndAnalyze file w).2
  end.

(** The key the controller hands to the storage on deletion: the record's
    storage key unless it is [null] or empty. *)
Definition storedKey (resume : ResumeEntity) : option string :=
  match getStorageKey resume with
  | Some key => if JavaString.isEmpty key then None else Some key
  | None => None
  end.

Definition storageAttempt (resume : ResumeEntity) : list Call :=
  match storedKey resume with
  | Some key => [StorageDeleteResume key]
  | None => []
  end.

Fixpoint countCalls (p : Call → bool) (cs : list Call) : nat :=
  match cs with
  | [] => 0
  | c :: rest => (if p c then 1 else 0) + countCalls p rest
  end.

Definition isAnalyzeCall (c : Call) : bool :=
  match c with AnalyzeResume _ => true | _ => false end.

Definition isStorageWrite (c : Call) : bool :=
  match c with UploadResume _ => true | _ => false end.

(** In the calls of [w], every fingerprint lookup for [file] comes after
    the extraction of its text. *)
Definition extractionPrecedesLookup (file : MultipartFile) (w : World) : Prop :=
  ∀ before after, calls w = before ++ FindExistingResume file :: after →
    ParseResume file ∈ before.

(** The calls of an upload answered as a duplicate of [resume], when all
    of them are made. *)
Definition duplicatePath (file : MultipartFile) (resume : ResumeEntity) : list Call :=
  [DetectContentType file; FindExistingResume file;
   GetLatestAnalysisAsDTO (getId resume); AnalyzeResume (getResumeText resume)].

(** The calls of an upload that creates the record [id], when all of them
    are made. *)
Definition freshPath (file : MultipartFile) (text key : string) (id : Z) : list Call :=
  [DetectContentType file; FindExistingResume file; ParseResume file;
   UploadResume file; GetFileUrl key; SaveResume file key;
   AnalyzeResume text; SaveAnalysis id].

(** The record [saveResume] creates. *)
Definition savedEntity (file : MultipartFile) (text key : string) (w : World) : ResumeEntity :=
  {| getId := nextResumeId w; getFingerprint := fingerprint file;
     getResumeText := text; getStorageKey := Some key;
     getStorageUrl := Some (getFileUrl key) |}.

(** The world once the blob and the record of a new résumé are written. *)
Definition withRecord (file : MultipartFile) (text key : string) (w : World) : World :=
  {| resumes := <[nextResumeId w := savedEntity file text key w]> (resumes w);
     analyses := analyses w;
     blobs := <[key := file]> (blobs w);
     interviews := interviews w;
     nextResumeId := (nextResumeId w + 1)%Z;
     calls := calls w |}.

(** The world once one more analysis of the record [id] is saved. *)
Definition withAnalysis (id : Z) (a : ResumeAnalysisResponse) (w : World) : World :=
  setAnalyses (<[id := a :: default [] (analyses w !! id)]> (analyses w)) w.

(** The response to an upload that created a record. *)
Definition createdAs (key : string) (a : ResumeAnalysisResponse) (w : World) : UploadResult :=
  {| analysis := a; fileKey := key; fileUrl := getFileUrl key;
     resumeId := nextResumeId w; duplicate := false |}.

(** The outcomes of an upload, case by case in the order of the checks of
    [uploadAndAnalyze]: the result and the world it leaves. *)
Inductive UploadOutcome (file : MultipartFile) (w : World)
    : Attempt UploadResult → World → Prop :=
| EmptyFile :
    fileIsEmpty file = true →
    UploadOutcome file w (Throws (BusinessException BAD_REQUEST)) w
| TypeRefused :
    fileIsEmpty file = false → isAllowedType (detectContentType file) = false →
    UploadOutcome file w (Throws (BusinessException RESUME_UPLOAD_FAILED))
      (afterCalls [DetectContentType file] w)
| DuplicateCached resume a :
    validUpload file → existingResume file w = Some resume →
    latestAnalysis (getId resume) w = Some a →
    UploadOutcome file w (Returns (duplicateOf resume a))
      (afterCalls (take 3 (duplicatePath file resume)) w)
| DuplicateAnalysed resume a :
    validUpload file → existingResume file w = Some resume →
    latestAnalysis (getId resume) w = None →
    analyzeResume (now w + 3) (getResumeText resume) = Returns a →
    UploadOutcome file w (Returns (duplicateOf resume a))
      (afterCalls (duplicatePath file resume) w)
| DuplicateAnalysisThrew resume e :
    validUpload file → existingResume file w = Some resume →
    latestAnalysis (getId resume) w = None →
    analyzeResume (now w + 3) (getResumeText resume) = Throws e →
    UploadOutcome file w (Throws e) (afterCalls (duplicatePath file resume) w)
| ExtractionThrew e :
    validUpload file → existingResume file w = None →
    parseResume file = Throws e →
    UploadOutcome file w (Throws e)
      (afterCalls [DetectContentType file; FindExistingResume file; ParseResume file] w)
| NoText text :
    validUpload file → existingResume file w = None →
    parseResume file = Returns text → noText text = true →
    UploadOutcome file w (Throws (BusinessException RESUME_PARSE_FAILED))
      (afterCalls [DetectContentType file; FindExistingResume file; ParseResume file] w)
| StorageThrew text e :
    validUpload file → existingResume file w = None →
    parseResume file = Returns (Some text) → noText (Some text) = false →
    storeUnder (now w + 3) file = Throws e →
    UploadOutcome file w (Throws e)
      (afterCalls [DetectContentType file; FindExistingResume file; ParseResume file;
                   UploadResume file] w)
| AnalysisThrew text key e :
    validUpload file → existingResume file w = None →
    parseResume file = Returns (Some text) → noText (Some text) = false →
    storeUnder (now w + 3) file = Returns key →
    analyzeResume (now w + 6) text = Throws e →
    UploadOutcome file w (Throws e)
      (afterCalls (take 7 (freshPath file text key (nextResumeId w)))
         (withRecord file text key w))
| Created text key a :
    validUpload file → existingResume file w = None →
    parseResume file = Returns (Some text) → noText (Some text) = false →
    storeUnder (now w + 3) file = Returns key →
    analyzeResume (now w + 6) text = Returns a →
    UploadOutcome file w (Returns (createdAs key a w))
      (afterCalls (freshPath file text key (nextResumeId w))
         (withAnalysis (nextResumeId w) a (withRecord file text key w))).

(** The requests the controller serves. *)
Inductive Request :=
| Upload (file : MultipartFile)
| Delete (id : Z).

Definition serve (w : World) (r : Request) : World :=
  match r with
  | Upload file => (uploadAndAnalyze file w).2
  | Delete id => (deleteResume id w).2
  end.

Definition serveAll (rs : list Request) (w : World) : World := foldl serve w rs.

(** The database is well formed: a record is stored under its own id,
    which is below the next id; analyses belong to a record; no two
    records have the same fingerprint. *)
Definition wellFormed (w : World) : Prop :=
  (∀ id r, resumes w !! id = Some r → getId r = id ∧ (id < nextResumeId w)%Z) ∧
  (∀ id, is_Some (analyses w !! id) → is_Some (resumes w !! id)) ∧
  (∀ i j r r', resumes w !! i = Some r → resumes w !! j = Some r' →
     getFingerprint r = getFingerprint r' → i = j).

End Controller.

End Resume.

(* ===================================================================== *)
(** * The interview page of the frontend *)
(* ===================================================================== *)

Module InterviewPage.

(** ** JavaScript values *)

(** [s.trim()] strips white space at both ends. *)
Definition isWhiteSpace (c : ascii) : bool :=
  let n := nat_of_ascii c in
  ((9 <=? n) && (n <=? 13)) || (n =? 32).

Fixpoint trimStart (s : string) : string :=
  match s with
  | EmptyString => EmptyString
  | String c r => if isWhiteSpace c then trimStart r else s
  end.

Fixpoint trimEnd (s : string) : string :=
  match s with
  | EmptyString => EmptyString
  | String c r =>
      match trimEnd r with
      | EmptyString => if isWhiteSpace c then EmptyString else String c EmptyString
      | r' => String c r'
      end
  end.

Definition trim (s : string) : string := trimEnd (trimStart s).


(** A string is truthy unless it is empty; [None] is [null] or
    [undefined]. *)
Definition truthy (s : string) : bool :=
  match s with EmptyString => false | String _ _ => true end.

Definition truthyAnswer (a : option string) : bool :=
  match a with Some s => truthy s | None => false end.

(** A number is truthy unless it is 0. *)
Definition truthyId (id : option Z) : bool :=
  match id with Some z => negb (z =? 0)%Z | None => false end.

(** ** The state of the component *)

(** ['config' | 'interview' | 'loading-report' | 'report'] *)
Inductive InterviewStage := config | interview | loading_report | report_stage.

Inductive MessageType := interviewer | user.

Record Message := {
  type : MessageType;
  content : string;
  category : option string;
  questionIndex : option nat
}.

Record InterviewProps := {
  resumeText : string;
  resumeId : option Z
}.

(** One field per [useState]. *)
Record PageState := {
  stage : InterviewStage;
  questionCount : nat;
  session : option Engine.InterviewSession;
  currentQuestion : option Engine.InterviewQuestion;
  messages : list Message;
  answer : string;
  isSubmitting : bool;
  report : option Engine.InterviewReport;
  error : string;
  isCreating : bool;
  checkingUnfinished : bool;
  unfinishedSession : option Engine.InterviewSession;
  showCompleteConfirm : bool
}.

Definition initialState : PageState :=
  {| stage := config; questionCount := 8; session := None; currentQuestion := None;
     messages := []; answer := ""; isSubmitting := false; report := None;
     error := ""; isCreating := false; checkingUnfinished := false;
     unfinishedSession := None; showCompleteConfirm := false |}.

Definition setStage (v : InterviewStage) (p : PageState) : PageState :=
  {| stage := v; questionCount := questionCount p; session := session p;
     currentQuestion := currentQuestion p; messages := messages p; answer := answer p;
     isSubmitting := isSubmitting p; report := report p; error := error p;
     isCreating := isCreating p; checkingUnfinished := checkingUnfinished p;
     unfinishedSession := unfinishedSession p;
     showCompleteConfirm := showCompleteConfirm p |}.

Definition setSession (v : option Engine.InterviewSession) (p : PageState) : PageState :=
  {| stage := stage p; questionCount := questionCount p; session := v;
     currentQuestion := currentQuestion p; messages := messages p; answer := answer p;
     isSubmitting := isSubmitting p; report := report p; error := error p;
     isCreating := isCreating p; checkingUnfinished := checkingUnfinished p;
     unfinishedSession := unfinishedSession p;
     showCompleteConfirm := showCompleteConfirm p |}.

Definition setCurrentQuestion (v : option Engine.InterviewQuestion) (p : PageState)
    : PageState :=
  {| stage := stage p; questionCount := questionCount p; session := session p;
     currentQuestion := v; messages := messages p; answer := answer p;
     isSubmitting := isSubmitting p; report := report p; error := error p;
     isCreating := isCreating p; checkingUnfinished := checkingUnfinished p;
     unfinishedSession := unfinishedSession p;
     showCompleteConfirm := showCompleteConfirm p |}.

Definition setMessages (v : list Message) (p : PageState) : PageState :=
  {| stage := stage p; questionCount := questionCount p; session := session p;
     currentQuestion := currentQuestion p; messages := v; answer := answer p;
     isSubmitting := isSubmitting p; report := report p; error := error p;
     isCreating := isCreating p; checkingUnfinished := checkingUnfinished p;
     unfinishedSession := unfinishedSession p;
     showCompleteConfirm := showCompleteConfirm p |}.

Definition setAnswer (v : string) (p : PageState) : PageState :=
  {| stage := stage p; questionCount := questionCount p; session := session p;
     currentQuestion := currentQuestion p; messages := messages p; answer := v;
     isSubmitting := isSubmitting p; report := report p; error := error p;
     isCreating := isCreating p; checkingUnfinished := checkingUnfinished p;
     unfinishedSession := unfinishedSession p;
     showCompleteConfirm := showCompleteConfirm p |}.

Definition setIsSubmitting (v : bool) (p : PageState) : PageState :=
  {| stage := stage p; questionCount := questionCount p; session := session p;
     currentQuestion := currentQuestion p; messages := messages p; answer := answer p;
     isSubmitting := v; report := report p; error := error p;
     isCreating := isCreating p; checkingUnfinished := checkingUnfinished p;
     unfinishedSession := unfinishedSession p;
     showCompleteConfirm := showCompleteConfirm p |}.

Definition setReport (v : option Engine.InterviewReport) (p : PageState) : PageState :=
  {| stage := stage p; questionCount := questionCount p; session := session p;
     currentQuestion := currentQuestion p; messages := messages p; answer := answer p;
     isSubmitting := isSubmitting p; report := v; error := error p;
     isCreating := isCreating p; checkingUnfinished := checkingUnfinished p;
     unfinishedSession := unfinishedSession p;
     showCompleteConfirm := showCompleteConfirm p |}.

Definition setError (v : string) (p : PageState) : PageState :=
  {| stage := stage p; questionCount := questionCount p; session := session p;
     currentQuestion := currentQuestion p; messages := messages p; answer := answer p;
     isSubmitting := isSubmitting p; report := report p; error := v;
     isCreating := isCreating p; checkingUnfinished := checkingUnfinished p;
     unfinishedSession := unfinishedSession p;
     showCompleteConfirm := showCompleteConfirm p |}.

Definition setIsCreating (v : bool) (p : PageState) : PageState :=
  {| stage := stage p; questionCount := questionCount p; session := session p;
     currentQuestion := currentQuestion p; messages := messages p; answer := answer p;
     isSubmitting := isSubmitting p; report := report p; error := error p;
     isCreating := v; checkingUnfinished := checkingUnfinished p;
     unfinishedSession := unfinishedSession p;
     showCompleteConfirm := showCompleteConfirm p |}.

Definition setCheckingUnfinished (v : bool) (p : PageState) : PageState :=
  {| stage := stage p; questionCount := questionCount p; session := session p;
     currentQuestion := currentQuestion p; messages := messages p; answer := answer p;
     isSubmitting := isSubmitting p; report := report p; error := error p;
     isCreating := isCreating p; checkingUnfinished := v;
     unfinishedSession := unfinishedSession p;
     showCompleteConfirm := showCompleteConfirm p |}.

Definition setUnfinishedSession (v : option Engine.InterviewSession) (p : PageState)
    : PageState :=
  {| stage := stage p; questionCount := questionCount p; session := session p;
     currentQuestion := currentQuestion p; messages := messages p; answer := answer p;
     isSubmitting := isSubmitting p; report := report p; error := error p;
     isCreating := isCreating p; checkingUnfinished := checkingUnfinished p;
     unfinishedSession := v;
     showCompleteConfirm := showCompleteConfirm p |}.

Definition setShowCompleteConfirm (v : bool) (p : PageState) : PageState :=
  {| stage := stage p; questionCount := questionCount p; session := session p;
     currentQuestion := currentQuestion p; messages := messages p; answer := answer p;
     isSubmitting := isSubmitting p; report := report p; error := error p;
     isCreating := isCreating p; checkingUnfinished := checkingUnfinished p;
     unfinishedSession := unfinishedSession p;
     showCompleteConfirm := v |}.

Definition setQuestionCount (v : nat) (p : PageState) : PageState :=
  {| stage := stage p; questionCount := v; session := session p;
     currentQuestion := currentQuestion p; messages := messages p; answer := answer p;
     isSubmitting := isSubmitting p; report := report p; error := error p;
     isCreating := isCreating p; checkingUnfinished := checkingUnfinished p;
     unfinishedSession := unfinishedSession p;
     showCompleteConfirm := showCompleteConfirm p |}.

(** The messages the page shows on failure. *)
Definition createFailed : string := "创建面试失败，请重试".
Definition submitFailed : string := "提交答案失败，请重试".
Definition completeFailed : string := "提前交卷失败，请重试".
Definition reportFailed : string := "生成报告失败，请重试".

(** ** The interview API

    A call resolves with a value or rejects; the page does not look at the
    reason of a rejection. *)

Inductive Promise (A : Type) :=
| Resolved (a : A)
| Rejected.
Arguments Resolved {A} a.
Arguments Rejected {A}.

Record CreateSessionRequest := {
  req_resumeText : string;
  req_questionCount : nat;
  req_resumeId : option Z
}.

(** The operations of [interviewApi] the page calls.  Its implementation
    is not part of the sources: a call runs on the state of the server,
    whatever that is, and resolves or rejects. *)
Class InterviewApi (Server : Type) := {
  api_findUnfinishedSession :
    Z → Server → Promise (option Engine.InterviewSession) * Server;
  api_createSession :
    CreateSessionRequest → Server → Promise Engine.InterviewSession * Server;
  (** [submitAnswer({sessionId, questionIndex, answer})] *)
  api_submitAnswer :
    nat → nat → string → Server → Promise Engine.SubmitAnswerResponse * Server;
  api_completeInterview : nat → Server → Promise unit * Server;
  api_getReport : nat → Server → Promise Engine.InterviewReport * Server
}.

Section Handlers.
Context {Server : Type} `{InterviewApi Server}.

(** ** The handlers

    A handler runs to its end on the state of the page and the state of the
    server; its state updates take effect in the order they are written. *)

Variable props : InterviewProps.

Definition interviewerMessage (i : nat) (q : Engine.InterviewQuestion) : Message :=
  {| type := interviewer; content := Engine.question q;
     category := Some (Engine.category q); questionIndex := Some i |}.

Definition userMessage (text : string) : Message :=
  {| type := user; content := text; category := None; questionIndex := None |}.

(** The loop of [restoreSession]: question [i] of the interviewer, then its
    answer if there is one, for [i] from 0 to the cursor. *)
Definition restoredMessages (s : Engine.InterviewSession) : list Message :=
  concat (imap (λ i q,
    interviewerMessage i q ::
    match Engine.userAnswer q with
    | Some a => if truthy a then [userMessage a] else []
    | None => []
    end) (take (S (Engine.currentQuestionIndex s)) (Engine.questions s))).

Definition restoreSession (sessionToRestore : Engine.InterviewSession) (p : PageState)
    : PageState :=
  let p := setSession (Some sessionToRestore) p in
  let p :=
    match Engine.questions sessionToRestore !! Engine.currentQuestionIndex sessionToRestore with
    | Some currentQ =>
        let p := setCurrentQuestion (Some currentQ) p in
        let p := match Engine.userAnswer currentQ with
                 | Some a => if truthy a then setAnswer a p else p
                 | None => p
                 end in
        setMessages (restoredMessages sessionToRestore) p
    | None => p
    end in
  setStage interview p.

Definition checkUnfinishedSession (p : PageState) (st : Server)
    : PageState * Server :=
  match resumeId props with
  | Some rid =>
      if negb (truthyId (Some rid)) then (p, st) else
      let p := setCheckingUnfinished true p in
      let '(found, st) := api_findUnfinishedSession rid st in
      let p := match found with
               | Resolved (Some foundSession) => setUnfinishedSession (Some foundSession) p
               | Resolved None => p
               | Rejected => p
               end in
      (setCheckingUnfinished false p, st)
  | None => (p, st)
  end.

Definition handleContinueUnfinished (p : PageState) : PageState :=
  match unfinishedSession p with
  | None => p
  | Some s => setUnfinishedSession None (restoreSession s p)
  end.

Definition handleStartNew (p : PageState) : PageState :=
  setUnfinishedSession None p.

Definition hasProgress (newSession : Engine.InterviewSession) : bool :=
  (0 <? Engine.currentQuestionIndex newSession)
  || existsb (λ q, truthyAnswer (Engine.userAnswer q)) (Engine.questions newSession)
  || bool_decide (Engine.status newSession = Engine.IN_PROGRESS).

Definition startInterview (p : PageState) (st : Server) : PageState * Server :=
  let p := setIsCreating true p in
  let p := setError "" p in
  let '(created, st) :=
    api_createSession {| req_resumeText := resumeText props;
                         req_questionCount := questionCount p;
                         req_resumeId := resumeId props |} st in
  let p :=
    match created with
    | Resolved newSession =>
        if hasProgress newSession then restoreSession newSession p
        else
          let p := setSession (Some newSession) p in
          let p := match Engine.questions newSession with
                   | firstQuestion :: _ =>
                       let p := setCurrentQuestion (Some firstQuestion) p in
                       setMessages [interviewerMessage 0 firstQuestion] p
                   | [] => p
                   end in
          setStage interview p
    | Rejected => setError createFailed p
    end in
  (setIsCreating false p, st).

Definition generateReport (p : PageState) (st : Server) : PageState * Server :=
  match session p with
  | None => (p, st)
  | Some s =>
      let '(fetched, st) := api_getReport (Engine.sessionId s) st in
      match fetched with
      | Resolved reportData => (setStage report_stage (setReport (Some reportData) p), st)
      | Rejected => (setStage interview (setError reportFailed p), st)
      end
  end.

Definition handleSubmitAnswer (p : PageState) (st : Server) : PageState * Server :=
  match session p, currentQuestion p with
  | Some s, Some q =>
      if negb (truthy (trim (answer p))) then (p, st) else
      let p := setIsSubmitting true p in
      let p := setMessages (messages p ++ [userMessage (answer p)]) p in
      let '(response, st) :=
        api_submitAnswer (Engine.sessionId s) (Engine.questionIndex q) (trim (answer p)) st in
      let '(p, st) :=
        match response with
        | Resolved r =>
            let p := setAnswer "" p in
            match Engine.hasNextQuestion r, Engine.nextQuestion r with
            | true, Some next =>
                let p := setCurrentQuestion (Some next) p in
                (setMessages (messages p ++
                   [interviewerMessage (Engine.questionIndex next) next]) p, st)
            | _, _ => generateReport (setStage loading_report p) st
            end
        | Rejected => (setError submitFailed p, st)
        end in
      (setIsSubmitting false p, st)
  | _, _ => (p, st)
  end.

Definition handleCompleteEarly (p : PageState) (st : Server) : PageState * Server :=
  match session p with
  | None => (p, st)
  | Some s =>
      let p := setIsSubmitting true p in
      let '(completed, st) := api_completeInterview (Engine.sessionId s) st in
      let '(p, st) :=
        match completed with
        | Resolved _ =>
            let p := setShowCompleteConfirm false p in
            generateReport (setStage loading_report p) st
        | Rejected => (setError completeFailed p, st)
        end in
      (setIsSubmitting false p, st)
  end.

(** The effect run when the component mounts. *)
Definition mount (p : PageState) (st : Server) : PageState * Server :=
  if truthyId (resumeId props) then checkUnfinishedSession p st else (p, st).

(** ** The page as a transition system *)

(** What happens to the page: the effect that runs on mount, and the
    callbacks the page hands to its panels and to the confirm dialog. *)
Inductive PageEvent :=
| Mounted
| QuestionCountChange (n : nat)
| Start
| ContinueUnfinished
| StartNew
| AnswerChange (text : string)
| Submit
| CompleteEarly
| ShowCompleteConfirm (v : bool).

Definition dispatch (ps : PageState * Server) (ev : PageEvent) : PageState * Server :=
  match ev with
  | Mounted => mount ps.1 ps.2
  | QuestionCountChange n => (setQuestionCount n ps.1, ps.2)
  | Start => startInterview ps.1 ps.2
  | ContinueUnfinished => (handleContinueUnfinished ps.1, ps.2)
  | StartNew => (handleStartNew ps.1, ps.2)
  | AnswerChange text => (setAnswer text ps.1, ps.2)
  | Submit => handleSubmitAnswer ps.1 ps.2
  | CompleteEarly => handleCompleteEarly ps.1 ps.2
  | ShowCompleteConfirm v => (setShowCompleteConfirm v ps.1, ps.2)
  end.

Definition runPage (events : list PageEvent) (st : Server) : PageState * Server :=
  foldl dispatch (initialState, st) events.

(** What the page renders below its header: [renderConfig],
    [renderInterview], [renderLoadingReport] or [renderReport], by stage;
    [Nothing] is their [null]. *)
Inductive View :=
| ConfigPanel
| ChatPanel (s : Engine.InterviewSession) (q : Engine.InterviewQuestion)
| LoadingReport
| ReportPanel (r : Engine.InterviewReport) (s : Engine.InterviewSession)
| Nothing.

Definition render (p : PageState) : View :=
  match stage p with
  | config => ConfigPanel
  | interview =>
      match session p, currentQuestion p with
      | Some s, Some q => ChatPanel s q
      | _, _ => Nothing
      end
  | loading_report => LoadingReport
  | report_stage =>
      match report p, session p with
      | Some r, Some s => ReportPanel r s
      | _, _ => Nothing
      end
  end.

(** The page is at rest: no handler is under way, and what it holds fits
    its stage. *)
Definition settled (p : PageState) : Prop :=
  isSubmitting p = false ∧ isCreating p = false ∧ checkingUnfinished p = false ∧
  stage p ≠ loading_report ∧
  (stage p = config ↔ session p = None) ∧
  (stage p = report_stage → is_Some (report p)) ∧
  (currentQuestion p = None → ∀ s, session p = Some s →
     Engine.questions s !! Engine.currentQuestionIndex s = None).

End Handlers.

(** ** The API served by the session engine *)

Section WithEngine.
Context `{Engine.GradingCapability}.

Definition settle {A : Type} (r : Engine.Result A * Engine.Store) : Promise A * Engine.Store :=
  match r with
  | (Engine.Ok a, st) => (Resolved a, st)
  | (Engine.Err _, st) => (Rejected, st)
  end.

(** Modelled from the spec: [interviewApi] exposes the operations of the
    session engine (§6); a typed error rejects the call.  Every operation
    of the engine takes an explicit résumé id (§9), so a creation request
    without one is rejected. *)
#[global] Instance engineApi : InterviewApi Engine.Store := {|
  api_findUnfinishedSession rid st := (Resolved (Engine.findUnfinishedSession rid st), st);
  api_createSession req st :=
    match req_resumeId req with
    | Some rid =>
        settle (Engine.createOrResumeSession (req_resumeText req) (req_questionCount req) rid st)
    | None => (Rejected, st)
    end;
  api_submitAnswer sessionId questionIndex answer st :=
    settle (Engine.submitAnswer sessionId questionIndex answer st);
  api_completeInterview sessionId st := settle (Engine.completeEarly sessionId st);
  api_getReport sessionId st := settle (Engine.getReport sessionId st)
|}.

(** ** Notions used to state the properties *)

(** The page shows the question at the cursor of its session, which is
    active on the server. *)
Definition inSync (p : PageState) (st : Engine.Store) : Prop :=
  ∃ shown s q,
    session p = Some shown ∧
    Engine.sessions st !! Engine.sessionId shown = Some s ∧
    Engine.active s ∧ Engine.wellIndexed s ∧
    currentQuestion p = Some q ∧
    Engine.questionIndex q = Engine.currentQuestionIndex s.

(** The page is done with the interview: its session is COMPLETED on the
    server, and either the report is shown or fetching it failed. *)
Definition finished (p : PageState) (st : Engine.Store) : Prop :=
  ∃ shown s,
    session p = Some shown ∧
    Engine.sessions st !! Engine.sessionId shown = Some s ∧
    Engine.status s = Engine.COMPLETED ∧
    ((stage p = report_stage ∧ is_Some (report p)) ∨
     (stage p = interview ∧ error p = reportFailed)).

End WithEngine.

End InterviewPage.

(* ===================================================================== *)
(** * The upload page of the frontend ([UploadPage.tsx]) *)
(* ===================================================================== *)

Module UploadPage.

(** What an awaited call settles to: a value, or what was thrown. *)
Inductive Settled (A E : Type) :=
| Fulfilled (a : A)
| RejectedWith (reason : E).
Arguments Fulfilled {A E} a.
Arguments RejectedWith {A E} reason.

(** What the [catch] of [handleUpload] can receive: an [Error] the
    handler has thrown itself, or the reason the API call rejected with. *)
Inductive Caught (E : Type) :=
| ErrorOf (message : string)
| Reason (reason : E).
Arguments ErrorOf {E} message.
Arguments Reason {E} reason.

(** ['idle' | 'uploading' | 'error'] *)
Inductive UploadState := idle | uploading | error_state.

(** [StorageInfo]: the [storage] map of the controller's response. *)
Record StorageInfo := {
  fileKey : string;
  fileUrl : string;
  resumeId : Z
}.

(** The fields of the response the page reads; [None] is a missing or
    [null] field. *)
Record UploadResponse := {
  analysis : option Resume.ResumeAnalysisResponse;
  storage : option StorageInfo
}.

Definition incomplete : string := "分析结果不完整，请重试".
Definition analysisFailed : string := "简历分析失败，请重试".

(** [resumeApi.uploadAndAnalyze] and [getErrorMessage] are imported; they
    are not part of the sources. *)
Class Imports (File Server E : Type) := {
  api_uploadAndAnalyze : File → Server → Settled UploadResponse E * Server;
  getErrorMessage : Caught E → string
}.

Section Page.
Context {File Server E : Type} `{Imports File Server E}.

(** One field per [useState]. *)
Record PageState := {
  state : UploadState;
  selectedFile : option File;
  dragOver : bool;
  error : string
}.

Definition initialState : PageState :=
  {| state := idle; selectedFile := None; dragOver := false; error := "" |}.

Definition setState (v : UploadState) (p : PageState) : PageState :=
  {| state := v; selectedFile := selectedFile p; dragOver := dragOver p; error := error p |}.

Definition setSelectedFile (v : option File) (p : PageState) : PageState :=
  {| state := state p; selectedFile := v; dragOver := dragOver p; error := error p |}.

Definition setDragOver (v : bool) (p : PageState) : PageState :=
  {| state := state p; selectedFile := selectedFile p; dragOver := v; error := error p |}.

Definition setError (v : string) (p : PageState) : PageState :=
  {| state := state p; selectedFile := selectedFile p; dragOver := dragOver p; error := v |}.

(** The page with what is outside it: the server, and the calls of
    [onAnalysisComplete] made so far. *)
Record Session := {
  page : PageState;
  server : Server;
  completed : list (Resume.ResumeAnalysisResponse * StorageInfo)
}.

Definition handleDragOver (p : PageState) : PageState := setDragOver true p.

Definition handleDragLeave (p : PageState) : PageState := setDragOver false p.

(** [handleDrop] with the dropped files *)
Definition handleDrop (files : list File) (p : PageState) : PageState :=
  let p := setDragOver false p in
  match files with
  | file :: _ => setError "" (setSelectedFile (Some file) p)
  | [] => p
  end.

(** [handleFileChange] with the files of the input, [None] if it has no
    list of files *)
Definition handleFileChange (files : option (list File)) (p : PageState) : PageState :=
  match files with
  | Some (file :: _) => setError "" (setSelectedFile (Some file) p)
  | _ => p
  end.

(** The body of the [try] once the call has settled: the analysis and
    the storage information to hand over, or what is thrown. *)
Definition checked (data : Settled UploadResponse E)
    : Resume.ResumeAnalysisResponse * StorageInfo + Caught E :=
  match data with
  | RejectedWith reason => inr (Reason reason)
  | Fulfilled d =>
      match analysis d, storage d with
      | Some a, Some s =>
          if (Resume.overallScore a <? 0)%Z || negb (InterviewPage.truthy (Resume.summary a))
          then inr (ErrorOf analysisFailed)
          else inl (a, s)
      | _, _ => inr (ErrorOf incomplete)
      end
  end.

(** The call of [onAnalysisComplete] is recorded; the callback is taken
    to return normally. *)
Definition handleUpload (x : Session) : Session :=
  match selectedFile (page x) with
  | None => x
  | Some file =>
      let p := setError "" (setState uploading (page x)) in
      let '(data, st) := api_uploadAndAnalyze file (server x) in
      match checked data with
      | inl handed =>
          {| page := p; server := st; completed := completed x ++ [handed] |}
      | inr err =>
          {| page := setState error_state (setError (getErrorMessage err) p);
             server := st; completed := completed x |}
      end
  end.

(** ** The page as a transition system *)

(** The handlers the page attaches: to the drop zone, the file input,
    the button that removes the file, the upload button, and the two
    buttons of the error box. *)
Inductive PageEvent :=
| DragOver
| DragLeave
| Drop (files : list File)
| FileChange (files : option (list File))
| RemoveFile
| Upload
| Retry
| ChooseAgain.

Definition onPage (f : PageState → PageState) (x : Session) : Session :=
  {| page := f (page x); server := server x; completed := completed x |}.

Definition dispatch (x : Session) (ev : PageEvent) : Session :=
  match ev with
  | DragOver => onPage handleDragOver x
  | DragLeave => onPage handleDragLeave x
  | Drop files => onPage (handleDrop files) x
  | FileChange files => onPage (handleFileChange files) x
  | RemoveFile => onPage (setSelectedFile None) x
  | Upload => handleUpload x
  | Retry => handleUpload (onPage (λ p, setState idle (setError "" p)) x)
  | ChooseAgain => onPage (λ p, setSelectedFile None (setState idle (setError "" p))) x
  end.

Definition runPage (events : list PageEvent) (st : Server) : Session :=
  foldl dispatch {| page := initialState; server := st; completed := [] |} events.




End Page.

(** ** The size of the selected file *)

(** [x.toFixed(1)] for [x = num / den]: the decimal with one digit
    nearest to [x], the larger one of two that are equally near.  The
    quotients below are exact in floating point for a size below 2^53. *)
Definition tenths (num den : N) : N := ((20 * num + den) / (2 * den))%N.

(** [n] tenths in decimal notation. *)
Definition decimal1 (n : N) : string :=
  pretty (n / 10)%N +:+ "." +:+ pretty (n mod 10)%N.

Definition toFixed1 (num den : N) : string := decimal1 (tenths num den).

Definition formatFileSize (bytes : N) : string :=
  if (bytes <? 1024)%N then pretty bytes +:+ " B"
  else if (bytes <? 1024 * 1024)%N then toFixed1 bytes 1024 +:+ " KB"
  else toFixed1 bytes (1024 * 1024) +:+ " MB".

End UploadPage.

(* ===================================================================== *)
(** * The résumé library of the frontend ([HistoryList]) *)
(* ===================================================================== *)

Module HistoryList.

(** [ResumeListItem], with the fields the logic of the component reads. *)
Record ResumeListItem := {
  id : Z;
  filename : string
}.

(** What the [catch] of [handleDeleteConfirm] tells apart: an [Error]
    with its message, or any other value. *)
Inductive Caught :=
| ErrorOf (message : string)
| OtherValue.

Definition deleteFailed : string := "删除失败，请稍后重试".

(** One field per [useState]. *)
Record ListState := {
  resumes : list ResumeListItem;
  loading : bool;
  searchTerm : string;
  deletingId : option Z;
  deleteConfirm : option (Z * string)
}.

Definition initialState : ListState :=
  {| resumes := []; loading := true; searchTerm := ""; deletingId := None;
     deleteConfirm := None |}.

Definition setResumes (v : list ResumeListItem) (p : ListState) : ListState :=
  {| resumes := v; loading := loading p; searchTerm := searchTerm p;
     deletingId := deletingId p; deleteConfirm := deleteConfirm p |}.

Definition setLoading (v : bool) (p : ListState) : ListState :=
  {| resumes := resumes p; loading := v; searchTerm := searchTerm p;
     deletingId := deletingId p; deleteConfirm := deleteConfirm p |}.


Definition setDeletingId (v : option Z) (p : ListState) : ListState :=
  {| resumes := resumes p; loading := loading p; searchTerm := searchTerm p;
     deletingId := v; deleteConfirm := deleteConfirm p |}.

Definition setDeleteConfirm (v : option (Z * string)) (p : ListState) : ListState :=
  {| resumes := resumes p; loading := loading p; searchTerm := searchTerm p;
     deletingId := deletingId p; deleteConfirm := v |}.

(** The component with what is outside it: the server, and the messages
    shown by [alert] so far. *)
Record Session (Server : Type) := {
  list_state : ListState;
  server : Server;
  alerts : list string
}.
Arguments list_state {Server} _.
Arguments server {Server} _.
Arguments alerts {Server} _.

(** The operations of [historyApi] the component calls; they are not part
    of the sources. *)
Class HistoryApi (Server : Type) := {
  api_getResumes : Server → UploadPage.Settled (list ResumeListItem) Caught * Server;
  api_deleteResume : Z → Server → UploadPage.Settled unit Caught * Server
}.

Section Component.
Context {Server : Type} `{HistoryApi Server}.

Definition loadResumes (x : Session Server) : Session Server :=
  let p := setLoading true (list_state x) in
  let '(data, st) := api_getResumes (server x) in
  let p := match data with
           | UploadPage.Fulfilled items => setResumes items p
           | UploadPage.RejectedWith _ => p
           end in
  {| list_state := setLoading false p; server := st; alerts := alerts x |}.

Definition handleDeleteClick (id : Z) (filename : string) (p : ListState) : ListState :=
  setDeleteConfirm (Some (id, filename)) p.

Definition handleDeleteConfirm (x : Session Server) : Session Server :=
  match deleteConfirm (list_state x) with
  | None => x
  | Some (id, _) =>
      let p := setDeletingId (Some id) (list_state x) in
      let '(deleted, st) := api_deleteResume id (server x) in
      let x :=
        match deleted with
        | UploadPage.Fulfilled _ =>
            let x := loadResumes {| list_state := p; server := st; alerts := alerts x |} in
            {| list_state := setDeleteConfirm None (list_state x);
               server := server x; alerts := alerts x |}
        | UploadPage.RejectedWith err =>
            {| list_state := p; server := st;
               alerts := alerts x ++ [match err with
                                      | ErrorOf message => message
                                      | OtherValue => deleteFailed
                                      end] |}
        end in
      {| list_state := setDeletingId None (list_state x);
         server := server x; alerts := alerts x |}
  end.

End Component.



End HistoryList.

(* ===================================================================== *)
(** * The layout and the interview panel of the frontend *)
(* ===================================================================== *)

Module Layout.

(** The fields of [NavItem] and [NavGroup] that are data. *)
Record NavItem := {
  item_id : string;
  path : string;
  label : string
}.

Record NavGroup := {
  group_id : string;
  title : string;
  items : list NavItem
}.

Definition navGroups : list NavGroup :=
  [ {| group_id := "career"; title := "简历与面试";
       items := [ {| item_id := "upload"; path := "/upload"; label := "简历分析" |};
                  {| item_id := "interviews"; path := "/interviews"; label := "面试记录" |};
                  {| item_id := "resumes"; path := "/history"; label := "简历库" |} ] |};
    {| group_id := "knowledge"; title := "知识增强";
       items := [ {| item_id := "knowledgebase"; path := "/knowledgebase/upload";
                     label := "知识库上传" |};
                  {| item_id := "chat"; path := "/knowledgebase/chat";
                     label := "问答助手" |} ] |} ].

Section WithLocation.
Variable currentPath : string.

(** [currentPath.startsWith(path)] is [String.prefix path currentPath]. *)
Definition isActive (path : string) : bool :=
  if String.eqb path "/upload" then
    String.eqb currentPath "/upload" || String.eqb currentPath "/"
  else String.prefix path currentPath.

Definition isGroupActive (group : NavGroup) : bool :=
  existsb (λ item, isActive (path item)) (items group).

End WithLocation.

(** The items of all groups, in the order of the menu. *)
Definition navItems : list NavItem := concat (items <$> navGroups).

End Layout.

Module InterviewPanel.

(** [InterviewItem], with the fields [chartData] reads; a [None] score is
    [null]. *)
Record InterviewItem := {
  item_id : Z;
  sessionId : string;
  overallScore : option Z;
  createdAt : string
}.

#[global] Instance InterviewItem_eq_dec : EqDecision InterviewItem.
Proof. solve_decision. Defined.


Section WithFormat.
(** [formatDateOnly] is imported; it is not part of the sources. *)
Variable formatDateOnly : string → string.

(** [interviews.indexOf(interview)]: the first position that holds
    [interview], or [-1].  The items of the array are distinct objects,
    compared here by their fields. *)
Fixpoint indexOf (interviews : list InterviewItem) (interview : InterviewItem) : Z :=
  match interviews with
  | [] => (-1)%Z
  | first :: rest =>
      if decide (first = interview) then 0%Z
      else match indexOf rest interview with
           | Zneg _ => (-1)%Z
           | i => (i + 1)%Z
           end
  end.



End WithFormat.

End InterviewPanel.

(* ===================================================================== *)
(** * Concrete collaborators and runs *)
(* ===================================================================== *)

Module Examples.

(** ** An interview *)

Definition questionFor (i : nat) : string * string :=
  if Nat.even i then ("Explain how a HashMap resolves collisions.", "Java")
  else ("Describe a project you are proud of.", "Project").

(** A capability whose grading fails on the first attempt of every call
    and scores an answer by the code of its first character. *)
Definition demoCapability : Engine.GradingCapability :=
  {| Engine.generateQuestions := λ _ _ _ n, Some (questionFor <$> seq 0 n);
     Engine.gradeAnswer := λ _ k _ answer,
       match k, answer with
       | S _, String c _ => Some (Z.of_nat (nat_of_ascii c), "Graded.")
       | _, _ => None
       end;
     Engine.synthesizeReport := λ _ _ _,
       Some ("A solid interview.", ["Clear answers"], ["More depth"]);
     Engine.referenceAnswer := λ _ _ q, Some (q, ["key point"]);
     Engine.maxAttempts := 3 |}.

(** A session of two questions for résumé 7, both answered. *)
Definition twoAnsweredOps : list Engine.Op :=
  [Engine.OpCreateOrResume "resume text" 2 7;
   Engine.OpSubmitAnswer 0 0 "A";
   Engine.OpSubmitAnswer 0 1 "B"].

Definition twoAnswered : Engine.Store :=
  @Engine.run demoCapability twoAnsweredOps Engine.emptyStore.

(** What happens after the first report of that session: another report
    request, a session for another résumé, an answer there. *)
Definition laterOps : list Engine.Op :=
  [Engine.OpGetReport 0;
   Engine.OpCreateOrResume "another resume" 1 9;
   Engine.OpSubmitAnswer 1 0 "C";
   Engine.OpGetReport 1].

(** A session of eight questions for résumé 7, none answered yet. *)
Definition freshEight : Engine.Store :=
  @Engine.run demoCapability [Engine.OpCreateOrResume "resume text" 8 7] Engine.emptyStore.

(** A session of eight questions for résumé 7, three of them answered. *)
Definition threeOfEightOps : list Engine.Op :=
  [Engine.OpCreateOrResume "resume text" 8 7;
   Engine.OpSubmitAnswer 0 0 "first";
   Engine.OpSubmitAnswer 0 1 "second";
   Engine.OpSubmitAnswer 0 2 "third"].

Definition threeOfEight : Engine.Store :=
  @Engine.run demoCapability threeOfEightOps Engine.emptyStore.

(** ** Uploads *)

Definition upload (name body : string) : Resume.MultipartFile :=
  {| Resume.getOriginalFilename := name;
     Resume.getBytes := String.list_byte_of_string body |}.

Definition textOf (file : Resume.MultipartFile) : string :=
  String.string_of_list_byte (Resume.getBytes file).

Definition demoParse : Resume.ResumeParseService :=
  {| Resume.detectContentType := λ _, Some "application/PDF";
     Resume.parseResume := λ file, Resume.Returns (Some (textOf file)) |}.

(** The analysis of a text that starts with "Flaky" times out during the
    first seven collaborator calls. *)
Definition demoGrading : Resume.ResumeGradingService :=
  {| Resume.analyzeResume := λ t text,
       if (t <? 7) && String.prefix "Flaky" text then
         Resume.Throws (Resume.OtherException "analysis timed out")
       else
         Resume.Returns {| Resume.overallScore := Z.of_nat t;
                           Resume.summary := text;
                           Resume.strengths := []; Resume.weaknesses := [] |} |}.

(** Deleting the key of [locked.pdf] fails. *)
Definition demoStorage : Resume.FileStorageService :=
  {| Resume.storeUnder := λ _ file,
       Resume.Returns (String.append "resumes/" (Resume.getOriginalFilename file));
     Resume.getFileUrl := λ key, String.append "https://files.example/" key;
     Resume.deleteThrows := λ _ key,
       if String.eqb key "resumes/locked.pdf"
       then Some (Resume.OtherException "storage unavailable") else None |}.

(** The fingerprint of an upload is its normalized text. *)
Definition demoPersistence : Resume.ResumePersistenceService :=
  {| Resume.fingerprint := λ file, JavaString.trim (textOf file) |}.

Definition demoConfig : Resume.AppConfigProperties :=
  {| Resume.getAllowedTypes := Some ["pdf"; "msword"; "text/plain"] |}.

Definition demoUpload (file : Resume.MultipartFile) : Resume.M Resume.UploadResult :=
  @Resume.uploadAndAnalyze demoParse demoGrading demoStorage demoPersistence demoConfig file.

Definition demoDelete (id : Z) : Resume.M unit :=
  @Resume.deleteResume demoStorage id.

Definition cv : Resume.MultipartFile := upload "cv.pdf" "Ten years of Java.".

(** The record and the analysis that the first upload of [cv] saves. *)
Definition cvRecord : Resume.ResumeEntity :=
  {| Resume.getId := 1; Resume.getFingerprint := "Ten years of Java.";
     Resume.getResumeText := "Ten years of Java.";
     Resume.getStorageKey := Some "resumes/cv.pdf";
     Resume.getStorageUrl := Some "https://files.example/resumes/cv.pdf" |}.

Definition cvAnalysis : Resume.ResumeAnalysisResponse :=
  {| Resume.overallScore := 6; Resume.summary := "Ten years of Java.";
     Resume.strengths := []; Resume.weaknesses := [] |}.

(** The response to the first upload of [cv]. *)
Definition cvFirstResult : Resume.UploadResult :=
  {| Resume.analysis := cvAnalysis;
     Resume.fileKey := "resumes/cv.pdf";
     Resume.fileUrl := "https://files.example/resumes/cv.pdf";
     Resume.resumeId := 1;
     Resume.duplicate := false |}.

Definition flakyRecord : Resume.ResumeEntity :=
  {| Resume.getId := 1; Resume.getFingerprint := "Flaky text";
     Resume.getResumeText := "Flaky text";
     Resume.getStorageKey := Some "resumes/flaky.pdf";
     Resume.getStorageUrl := Some "https://files.example/resumes/flaky.pdf" |}.

Definition lockedRecord : Resume.ResumeEntity :=
  {| Resume.getId := 1; Resume.getFingerprint := "Ten years of Go.";
     Resume.getResumeText := "Ten years of Go.";
     Resume.getStorageKey := Some "resumes/locked.pdf";
     Resume.getStorageUrl := Some "https://files.example/resumes/locked.pdf" |}.
Definition flakyCv : Resume.MultipartFile := upload "flaky.pdf" "Flaky text".
Definition lockedCv : Resume.MultipartFile := upload "locked.pdf" "Ten years of Go.".
Definition scan : Resume.MultipartFile := upload "scan.pdf" "   ".

(** The world after the first upload of [cv]. *)
Definition afterCv : Resume.World := (demoUpload cv Resume.emptyWorld).2.

(** The world after the upload of [flakyCv]: the record is saved, the
    analysis failed. *)
Definition afterFlaky : Resume.World := (demoUpload flakyCv Resume.emptyWorld).2.

(** The world after the upload of [lockedCv] (résumé 1) and an interview
    of three answers for it. *)
Definition afterLocked : Resume.World :=
  Resume.setInterviews
    (@Engine.run demoCapability
       [Engine.OpCreateOrResume "Ten years of Go." 4 1;
        Engine.OpSubmitAnswer 0 0 "goroutines"]
       Engine.emptyStore)
    (demoUpload lockedCv Resume.emptyWorld).2.

(** An upload without bytes. *)
Definition emptyUpload : Resume.MultipartFile := upload "empty.pdf" "".

(** ** A scripted interview API *)

Definition demoQuestion (i : nat) : Engine.InterviewQuestion :=
  {| Engine.questionIndex := i; Engine.question := (questionFor i).1;
     Engine.category := (questionFor i).2; Engine.userAnswer := None;
     Engine.score := None; Engine.feedback := None |}.

(** A session of two questions for résumé 7, none answered. *)
Definition demoSession : Engine.InterviewSession :=
  {| Engine.sessionId := 3; Engine.resumeId := 7;
     Engine.questions := [demoQuestion 0; demoQuestion 1];
     Engine.currentQuestionIndex := 0; Engine.status := Engine.NOT_STARTED |}.


(** A server that counts the calls it gets.  It rejects the answer
    "offline" and accepts any other, with the next question. *)
Definition demoApi : InterviewPage.InterviewApi nat :=
  {| InterviewPage.api_findUnfinishedSession := λ _ n, (InterviewPage.Resolved None, S n);
     InterviewPage.api_createSession := λ _ n, (InterviewPage.Resolved demoSession, S n);
     InterviewPage.api_submitAnswer := λ _ idx a n,
       if String.eqb a "offline" then (InterviewPage.Rejected, S n)
       else (InterviewPage.Resolved
               {| Engine.graded := true; Engine.hasNextQuestion := true;
                  Engine.nextQuestion := Some (demoQuestion (S idx)) |}, S n);
     InterviewPage.api_completeInterview := λ _ n, (InterviewPage.Resolved (), S n);
     InterviewPage.api_getReport := λ _ n, (InterviewPage.Rejected, S n) |}.


(** ** A scripted upload API *)

Definition goodAnalysis : Resume.ResumeAnalysisResponse :=
  {| Resume.overallScore := 82; Resume.summary := "Solid backend profile.";
     Resume.strengths := ["Java"]; Resume.weaknesses := [] |}.

(** ** The résumé library *)

Definition library : list HistoryList.ResumeListItem :=
  [ {| HistoryList.id := 1; HistoryList.filename := "Backend-CV.pdf" |};
    {| HistoryList.id := 2; HistoryList.filename := "frontend.docx" |};
    {| HistoryList.id := 3; HistoryList.filename := "cv-2024.PDF" |} ].

(** A server whose state is the list of résumés; deleting résumé 2
    fails. *)
Definition demoHistoryApi : HistoryList.HistoryApi (list HistoryList.ResumeListItem) :=
  {| HistoryList.api_getResumes := λ items, (UploadPage.Fulfilled items, items);
     HistoryList.api_deleteResume := λ id items,
       if (id =? 2)%Z
       then (UploadPage.RejectedWith (HistoryList.ErrorOf "resume is in use"), items)
       else (UploadPage.Fulfilled (),
             List.filter (λ r, negb (HistoryList.id r =? id)%Z) items) |}.

(** The component once the list is loaded and the deletion of résumé
    [id] awaits confirmation. *)
Definition confirming (id : Z) (name : string)
    : HistoryList.Session (list HistoryList.ResumeListItem) :=
  {| HistoryList.list_state :=
       HistoryList.handleDeleteClick id name
         (HistoryList.setLoading false
            (HistoryList.setResumes library HistoryList.initialState));
     HistoryList.server := library; HistoryList.alerts := [] |}.

(** ** Interviews of the panel, the latest first *)


End Examples.

(* ===================================================================== *)
(** * Properties of the Java string operations *)
(* ===================================================================== *)

Section JavaStringFacts.
Import JavaString.

Lemma trimRight_keeps c r :
  isTrimmed c = false → isEmpty (trimRight (String c r)) = false.
Proof.
  intros Hc. cbn. destruct (trimRight r); [by rewrite Hc | done].
Qed.

(** [s.trim().isEmpty()] holds exactly of the strings made of characters
    up to U+0020 only. *)
Lemma trim_isEmpty s : isEmpty (trim s) = allTrimmed s.
Proof.
  unfold trim. induction s as [|c r IH]; [done|].
  cbn [trimLeft allTrimmed].
  destruct (isTrimmed c) eqn:Hc; [exact IH|].
  by rewrite trimRight_keeps.
Qed.

(** ** Containment *)

Lemma append_nil_l s : "" +:+ s = s.
Proof. reflexivity. Qed.

Lemma append_cons c a b : String c a +:+ b = String c (a +:+ b).
Proof. reflexivity. Qed.

Lemma prefix_spec a b : String.prefix a b = true ↔ ∃ post, b = a +:+ post.
Proof.
  revert b. induction a as [|c a IH]; intros b.
  - destruct b; (split; [intros _; by eexists | done]).
  - destruct b as [|d b]; cbn.
    + split; [done | intros [post [=]]].
    + destruct (Ascii.ascii_dec c d) as [->|Hne].
      * rewrite IH. split; intros [post Hp]; exists post; [by rewrite Hp | by injection Hp].
      * split; [done | intros [post [= ? _]]; done].
Qed.

Lemma contains_spec s sub : contains s sub = true ↔ JavaString.within sub s.
Proof.
  unfold JavaString.within. induction s as [|c s IH]; cbn [contains].
  - rewrite orb_false_r, prefix_spec. split.
    + intros [post ->]. by exists "", post.
    + intros (pre & post & Heq). destruct pre; cbn in Heq; [by exists post | done].
  - rewrite orb_true_iff, prefix_spec, IH. split.
    + intros [[post ->] | (pre & post & ->)]; [by exists "", post | by exists (String c pre), post].
    + intros (pre & post & Heq). destruct pre as [|d pre]; cbn in Heq.
      * left. by exists post.
      * right. injection Heq as -> ->. by exists pre, post.
Qed.



Lemma append_nil_r s : s +:+ "" = s.
Proof. induction s as [|c s IH]; [done | by rewrite append_cons, IH]. Qed.

Lemma contains_refl s : contains s s = true.
Proof. apply contains_spec. exists "", "". by rewrite append_nil_l, append_nil_r. Qed.

End JavaStringFacts.

(* ===================================================================== *)
(** * Properties of the session engine *)
(* ===================================================================== *)

(** Case analysis on the [decide] of the goal. *)
Tactic Notation "decide_goal" "as" ident(H) :=
  match goal with |- context [decide ?P] => destruct (decide P) as [H|H] end.

Section EngineFacts.
Import Engine.
Context `{GradingCapability}.

(** ** The active session of a résumé *)

Lemma isCompleted_false s : isCompleted s = false ↔ active s.
Proof. unfold isCompleted, active. destruct (status s); naive_solver. Qed.

Lemma isCompleted_true s : isCompleted s = true ↔ status s = COMPLETED.
Proof. unfold isCompleted. destruct (status s); naive_solver. Qed.

Lemma findUnfinished_Some rid st s :
  findUnfinishedSession rid st = Some s →
  ∃ i, sessions st !! i = Some s ∧ resumeId s = rid ∧ active s.
Proof.
  unfold findUnfinishedSession. intros Hfind.
  destruct (map_to_list _) as [|[i s'] l] eqn:Hl; [discriminate|].
  cbn in Hfind. injection Hfind as ->.
  assert (Hin : (i, s) ∈ (i, s) :: l) by left.
  rewrite <- Hl in Hin. apply elem_of_map_to_list in Hin.
  apply map_lookup_filter_Some in Hin as (Hs & Hrid & Hact). by exists i.
Qed.

Lemma findUnfinished_None rid st :
  findUnfinishedSession rid st = None →
  ∀ i s, sessions st !! i = Some s → resumeId s = rid → ¬ active s.
Proof.
  unfold findUnfinishedSession. intros Hfind i s Hs Hrid Hact.
  destruct (map_to_list _) as [|kv l] eqn:Hl; [|discriminate].
  apply map_to_list_empty_iff in Hl.
  assert (Hin : filter (λ kv : nat * InterviewSession,
                  resumeId kv.2 = rid ∧ status kv.2 ≠ COMPLETED) (sessions st) !! i = Some s).
  { by apply map_lookup_filter_Some. }
  rewrite Hl in Hin. by rewrite lookup_empty in Hin.
Qed.

Lemma findUnfinished_active rid st i s :
  atMostOneActive st →
  sessions st !! i = Some s → resumeId s = rid → active s →
  findUnfinishedSession rid st = Some s.
Proof.
  intros Hinv Hs Hrid Hact.
  destruct (findUnfinishedSession rid st) as [t|] eqn:Hfind.
  - apply findUnfinished_Some in Hfind as (j & Ht & Hrid' & Hact').
    assert (i = j) as <- by (eapply Hinv; eauto; congruence).
    congruence.
  - by destruct (findUnfinished_None rid st Hfind i s).
Qed.

(** ** At most one active session per résumé *)

Lemma atMostOneActive_empty : atMostOneActive emptyStore.
Proof. intros i j s t Hs. cbn in Hs. by rewrite lookup_empty in Hs. Qed.

(** Replacing a session by one of the same résumé keeps the invariant if
    the new one is active only when the old one was. *)
Lemma atMostOneActive_update st sid s s' :
  atMostOneActive st →
  sessions st !! sid = Some s →
  resumeId s' = resumeId s →
  (active s' → active s) →
  atMostOneActive (putSession sid s' st).
Proof.
  intros Hinv Hs Hrid Hact i j a b Ha Hb Hab Haa Hab'. cbn in Ha, Hb.
  rewrite lookup_insert in Ha. rewrite lookup_insert in Hb.
  destruct (decide (sid = i)) as [<-|Hi], (decide (sid = j)) as [<-|Hj]; simplify_eq.
  - done.
  - apply (Hinv sid j s b); [done | done | congruence | by apply Hact | done].
  - apply (Hinv i sid a s); [done | done | congruence | done | by apply Hact].
  - by apply (Hinv i j a b).
Qed.

Lemma createOrResume_invariant text n rid st :
  atMostOneActive st → atMostOneActive (createOrResumeSession text n rid st).2.
Proof.
  intros Hinv. unfold createOrResumeSession.
  destruct (findUnfinishedSession rid st) as [s|] eqn:Hfind; [done|].
  destruct (retry _) as [qs|]; [|done].
  destruct (length qs =? n); [|done]. cbn.
  intros i j a b Ha Hb Hab Haa Hbb. cbn in Ha, Hb.
  pose proof (findUnfinished_None rid st Hfind) as Hnone.
  rewrite lookup_insert in Ha. rewrite lookup_insert in Hb.
  destruct (decide (nextSessionId st = i)) as [<-|Hi],
           (decide (nextSessionId st = j)) as [<-|Hj]; simplify_eq.
  - done.
  - cbn in Hab. by destruct (Hnone j b).
  - cbn in Hab. by destruct (Hnone i a).
  - eapply Hinv; eauto.
Qed.

Lemma afterGrading_sessions sid cursor q st :
  sessions (afterGrading sid cursor q st) = sessions st ∧
  reports (afterGrading sid cursor q st) = reports st ∧
  nextSessionId (afterGrading sid cursor q st) = nextSessionId st.
Proof. by destruct q. Qed.

Lemma submitAnswer_invariant sid idx a st :
  atMostOneActive st → atMostOneActive (submitAnswer sid idx a st).2.
Proof.
  intros Hinv. unfold submitAnswer.
  destruct (sessions st !! sid) as [s|] eqn:Hs; [|done].
  destruct (isCompleted s) eqn:Hc; [done|].
  destruct (negb _); [done|]. cbn -[putSession].
  destruct (afterGrading_sessions sid (currentQuestionIndex s)
              (questions s !! currentQuestionIndex s) st) as (Hsame & _ & _).
  apply (atMostOneActive_update _ sid s); [| by rewrite Hsame | done |].
  - intros i j x y. rewrite Hsame. apply Hinv.
  - intros _. by apply isCompleted_false.
Qed.

Lemma completeEarly_invariant sid st :
  atMostOneActive st → atMostOneActive (completeEarly sid st).2.
Proof.
  intros Hinv. unfold completeEarly.
  destruct (sessions st !! sid) as [s|] eqn:Hs; [|done].
  destruct (isCompleted s) eqn:Hc; [done|]. cbn -[putSession].
  apply (atMostOneActive_update _ sid s); [done..|].
  intros _. by apply isCompleted_false.
Qed.

Lemma getReport_sessions sid st : sessions (getReport sid st).2 = sessions st.
Proof.
  unfold getReport.
  destruct (sessions st !! sid) as [s|]; [|done].
  destruct (negb _); [done|].
  destruct (reports st !! sid); [done|].
  destruct (questionDetailsOf _ _ _) as [ds cs].
  destruct (retry _) as [[[fb str] imp]|]; [|done].
  destruct (referenceAnswersOf _ _ _) as [[ras|] rcs]; done.
Qed.

Lemma deleteSessions_invariant rid st :
  atMostOneActive st → atMostOneActive (deleteSessionsByResumeId rid st).
Proof.
  intros Hinv i j a b Ha Hb. cbn in Ha, Hb.
  apply map_lookup_filter_Some in Ha as [Ha _].
  apply map_lookup_filter_Some in Hb as [Hb _]. eapply Hinv; eauto.
Qed.

Lemma exec_invariant st op : atMostOneActive st → atMostOneActive (exec st op).
Proof.
  intros Hinv. destruct op; cbn [exec].
  - by apply createOrResume_invariant.
  - done.
  - by apply submitAnswer_invariant.
  - by apply completeEarly_invariant.
  - intros i j a b. rewrite getReport_sessions. apply Hinv.
  - by apply deleteSessions_invariant.
Qed.

Lemma run_invariant ops : ∀ st, atMostOneActive st → atMostOneActive (run ops st).
Proof.
  induction ops as [|op ops IH]; intros st Hinv; [done|].
  apply IH. by apply exec_invariant.
Qed.

Lemma createOrResume_resumes text n rid st i s :
  atMostOneActive st →
  sessions st !! i = Some s → resumeId s = rid → active s →
  createOrResumeSession text n rid st = (Ok s, st).
Proof.
  intros Hinv Hs Hrid Hact. unfold createOrResumeSession.
  by rewrite (findUnfinished_active rid st i s).
Qed.

Lemma createOrResume_twice text n text' n' rid st s1 st1 :
  atMostOneActive st →
  createOrResumeSession text n rid st = (Ok s1, st1) →
  createOrResumeSession text' n' rid st1 = (Ok s1, st1).
Proof.
  intros Hinv Hfirst.
  pose proof (createOrResume_invariant text n rid st Hinv) as Hinv1.
  rewrite Hfirst in Hinv1. cbn in Hinv1.
  revert Hfirst. unfold createOrResumeSession at 1.
  destruct (findUnfinishedSession rid st) as [s|] eqn:Hfind.
  - intros [= <- <-].
    apply findUnfinished_Some in Hfind as (i & Hs & Hrid & Hact).
    by apply (createOrResume_resumes _ _ _ _ i).
  - destruct (retry _) as [qs|]; [|discriminate].
    destruct (length qs =? n); [|discriminate].
    intros [= <- <-].
    apply (createOrResume_resumes _ _ _ _ (nextSessionId st)); [done| | done | done].
    cbn. by rewrite lookup_insert_eq.
Qed.

(** C2.  At most one session that is not COMPLETED exists per résumé id:
    this holds of the empty store, every operation preserves it, so it
    holds of every store the operations produce.  Create-or-resume for a
    résumé that has an active session returns that session and leaves the
    store unchanged, and two create-or-resume calls in a row for the same
    résumé id return the same session, hence the same session id. *)
Theorem at_most_one_active_session :
  atMostOneActive emptyStore ∧
  (∀ st op, atMostOneActive st → atMostOneActive (exec st op)) ∧
  (∀ st, reachable st → atMostOneActive st) ∧
  (∀ st text n rid i s,
     atMostOneActive st →
     sessions st !! i = Some s → resumeId s = rid → active s →
     createOrResumeSession text n rid st = (Ok s, st)) ∧
  (∀ st text n text' n' rid s1 st1,
     atMostOneActive st →
     createOrResumeSession text n rid st = (Ok s1, st1) →
     createOrResumeSession text' n' rid st1 = (Ok s1, st1)).
Proof.
  split; [apply atMostOneActive_empty|].
  split; [apply exec_invariant|].
  split; [intros st [ops ->]; apply run_invariant, atMostOneActive_empty|].
  split; [intros; by eapply createOrResume_resumes|].
  intros st text n text' n' rid s1 st1 Hinv Hfirst.
  by apply (createOrResume_twice text n _ _ _ st).
Qed.

(** ** Answer submission and early completion *)

Lemma submitAnswer_accepts st sid idx a s :
  sessions st !! sid = Some s → active s → idx = currentQuestionIndex s →
  ∃ resp s' st', submitAnswer sid idx a st = (Ok resp, st') ∧
    sessions st' !! sid = Some s' ∧
    currentQuestionIndex s' = S (currentQuestionIndex s) ∧
    length (questions s') = length (questions s) ∧
    (status s' = COMPLETED ↔ length (questions s) ≤ currentQuestionIndex s') ∧
    (status s' ≠ COMPLETED → status s' = IN_PROGRESS) ∧
    (hasNextQuestion resp = false ↔ status s' = COMPLETED) ∧
    (hasNextQuestion resp = true ↔ is_Some (nextQuestion resp)) ∧
    nextQuestion resp = questions s !! currentQuestionIndex s' ∧
    (∀ q, questions s !! idx = Some q →
          ∃ q', questions s' !! idx = Some q' ∧ userAnswer q' = Some a ∧
                questionIndex q' = questionIndex q ∧
                question q' = question q ∧ category q' = category q) ∧
    (∀ i, i ≠ idx → questions s' !! i = questions s !! i) ∧
    (∀ sid', sid' ≠ sid → sessions st' !! sid' = sessions st !! sid').
Proof.
  intros Hs Hact ->. unfold submitAnswer. rewrite Hs.
  apply isCompleted_false in Hact. rewrite Hact, Nat.eqb_refl. cbn [negb].
  set (cursor := currentQuestionIndex s).
  set (grade := match questions s !! cursor with Some q => _ | None => None end).
  assert (Hnext : alter (recordAnswer a grade) cursor (questions s) !! S cursor
                  = questions s !! S cursor).
  { apply list_lookup_alter_ne. lia. }
  rewrite Hnext.
  destruct (afterGrading_sessions sid cursor (questions s !! cursor) st) as (Hsame & _ & _).
  eexists _, _, _. split; [reflexivity|]. cbn -[afterGrading]. rewrite Hsame.
  rewrite lookup_insert_eq. split; [reflexivity|]. cbn.
  split; [done|]. split; [by rewrite length_alter|].
  assert (Hrecorded : ∀ q, questions s !! cursor = Some q →
            ∃ q', alter (recordAnswer a grade) cursor (questions s) !! cursor = Some q' ∧
                  userAnswer q' = Some a ∧ questionIndex q' = questionIndex q ∧
                  question q' = question q ∧ category q' = category q).
  { intros q Hq. rewrite list_lookup_alter_eq, Hq. cbn. by eexists. }
  assert (Hothers : ∀ i, i ≠ cursor →
            alter (recordAnswer a grade) cursor (questions s) !! i = questions s !! i).
  { intros i Hi. by rewrite list_lookup_alter_ne. }
  assert (Hsessions : ∀ sid', sid' ≠ sid →
            <[sid := {| sessionId := sessionId s; resumeId := resumeId s;
                        questions := alter (recordAnswer a grade) cursor (questions s);
                        currentQuestionIndex := S cursor;
                        status := if questions s !! S cursor is Some _
                                  then IN_PROGRESS else COMPLETED |}]>
              (sessions st) !! sid' = sessions st !! sid').
  { intros sid' Hne. by rewrite lookup_insert_ne. }
  destruct (questions s !! S cursor) as [q1|] eqn:Hq1.
  - apply lookup_lt_Some in Hq1.
    split; [split; [done | lia]|]. split; [done|].
    split; [split; done|]. split; [split; [by eexists | done]|]. done.
  - apply lookup_ge_None in Hq1.
    split; [split; [lia | done]|]. split; [done|].
    split; [split; done|]. split; [split; [done | by intros [? ?]]|]. done.
Qed.

(** C3.  [submitAnswer] fails with [SessionNotFound] for an unknown session
    id, with [SessionCompleted] for a COMPLETED session, and with
    [IndexMismatch] when the session is active and [questionIndex] is not
    its cursor; a failure changes nothing.  Otherwise it succeeds: the
    answer is recorded at the cursor, the cursor advances by exactly one,
    and the session is COMPLETED with [hasNextQuestion = false] exactly
    when the new cursor has reached the end of the question sequence;
    otherwise it is IN_PROGRESS and the next question is returned. *)
Theorem submitAnswer_protocol st sid idx a :
  (sessions st !! sid = None →
     submitAnswer sid idx a st = (Err SessionNotFound, st)) ∧
  (∀ s, sessions st !! sid = Some s → status s = COMPLETED →
     submitAnswer sid idx a st = (Err SessionCompleted, st)) ∧
  (∀ s, sessions st !! sid = Some s → active s → idx ≠ currentQuestionIndex s →
     submitAnswer sid idx a st = (Err IndexMismatch, st)) ∧
  (∀ s, sessions st !! sid = Some s → active s → idx = currentQuestionIndex s →
     ∃ resp s' st', submitAnswer sid idx a st = (Ok resp, st') ∧
       sessions st' !! sid = Some s' ∧
       currentQuestionIndex s' = S (currentQuestionIndex s) ∧
       length (questions s') = length (questions s) ∧
       (status s' = COMPLETED ↔ length (questions s) ≤ currentQuestionIndex s') ∧
       (currentQuestionIndex s < length (questions s) →
          (status s' = COMPLETED ↔ currentQuestionIndex s' = length (questions s))) ∧
       (status s' ≠ COMPLETED → status s' = IN_PROGRESS) ∧
       (hasNextQuestion resp = false ↔ status s' = COMPLETED) ∧
       (hasNextQuestion resp = true ↔ is_Some (nextQuestion resp)) ∧
       nextQuestion resp = questions s !! currentQuestionIndex s' ∧
       (∀ q, questions s !! idx = Some q →
             ∃ q', questions s' !! idx = Some q' ∧ userAnswer q' = Some a ∧
                   question q' = question q ∧ category q' = category q) ∧
       (∀ i, i ≠ idx → questions s' !! i = questions s !! i) ∧
       (∀ sid', sid' ≠ sid → sessions st' !! sid' = sessions st !! sid')).
Proof.
  split; [|split; [|split]].
  - intros Hnone. unfold submitAnswer. by rewrite Hnone.
  - intros s Hs Hdone%isCompleted_true. unfold submitAnswer. by rewrite Hs, Hdone.
  - intros s Hs Hact%isCompleted_false Hidx. unfold submitAnswer. rewrite Hs, Hact.
    by destruct (Nat.eqb_spec idx (currentQuestionIndex s)).
  - intros s Hs Hact Hidx.
    destruct (submitAnswer_accepts st sid idx a s Hs Hact Hidx)
      as (resp & s' & st' & Hrun & Hs' & Hcursor & Hlen & Hdone & Hprogress & Hhas &
          Hnext & Hq & Hrecorded & Hothers & Hsessions).
    exists resp, s', st'.
    split; [done|]. split; [done|]. split; [done|]. split; [done|]. split; [done|].
    split; [intros Hin; rewrite Hdone, Hcursor; lia|].
    split; [done|]. split; [done|]. split; [done|]. split; [done|].
    split; [|done].
    intros q Hq0. destruct (Hrecorded q Hq0) as (q' & ? & ? & ? & ? & ?). by exists q'.
Qed.

(** C5.  [completeEarly] fails with [SessionCompleted] on a COMPLETED
    session (and with [SessionNotFound] on an unknown id), changing
    nothing.  On an active session every unanswered question from the
    cursor to the end of the sequence gets score 0 and the non-response
    feedback, the questions before the cursor and the answered ones stay
    as they are, the status becomes COMPLETED and the cursor does not
    move. *)
Theorem completeEarly_zero_fills st sid :
  (sessions st !! sid = None →
     completeEarly sid st = (Err SessionNotFound, st)) ∧
  (∀ s, sessions st !! sid = Some s → status s = COMPLETED →
     completeEarly sid st = (Err SessionCompleted, st)) ∧
  (∀ s, sessions st !! sid = Some s → active s →
     ∃ s', completeEarly sid st = (Ok (), putSession sid s' st) ∧
       status s' = COMPLETED ∧
       currentQuestionIndex s' = currentQuestionIndex s ∧
       sessionId s' = sessionId s ∧ resumeId s' = resumeId s ∧
       length (questions s') = length (questions s) ∧
       (∀ i q, questions s !! i = Some q →
               currentQuestionIndex s ≤ i → userAnswer q = None →
               ∃ q', questions s' !! i = Some q' ∧
                     score q' = Some 0%Z ∧ feedback q' = Some nonResponseFeedback ∧
                     userAnswer q' = None ∧ questionIndex q' = questionIndex q ∧
                     question q' = question q ∧ category q' = category q) ∧
       (∀ i q, questions s !! i = Some q →
               i < currentQuestionIndex s ∨ userAnswer q ≠ None →
               questions s' !! i = Some q)).
Proof.
  repeat split.
  - intros Hnone. unfold completeEarly. by rewrite Hnone.
  - intros s Hs Hdone%isCompleted_true. unfold completeEarly. by rewrite Hs, Hdone.
  - intros s Hs Hact%isCompleted_false. unfold completeEarly. rewrite Hs, Hact.
    eexists. split; [reflexivity|]. cbn.
    repeat split; try done.
    + by rewrite length_imap.
    + intros i q Hq Hi Hnone. rewrite list_lookup_imap, Hq. cbn.
      unfold zeroFill. rewrite Hnone.
      destruct (Nat.leb_spec (currentQuestionIndex s) i); [|lia].
      by eexists.
    + intros i q Hq Hcase. rewrite list_lookup_imap, Hq. cbn.
      unfold zeroFill. destruct (userAnswer q) eqn:Ha; [done|].
      destruct Hcase as [Hlt|Hans]; [|done].
      destruct (Nat.leb_spec (currentQuestionIndex s) i); [lia | done].
Qed.

(** ** Scores *)

Lemma total_app zs zs' : total (zs ++ zs') = (total zs + total zs')%Z.
Proof. unfold total. induction zs as [|z zs IH]; cbn; [done | rewrite IH; lia]. Qed.

Lemma sumScores_total ds : sumScores ds = total (scoresOf ds).
Proof.
  unfold sumScores, total, scoresOf.
  induction ds as [|d ds IH]; cbn; [done | by rewrite IH].
Qed.

Lemma meanOf_isMean zs : zs ≠ [] → isMean (meanOf (total zs) (length zs)) zs.
Proof.
  intros Hne. split; [done|].
  destruct zs as [|z zs]; [done|]. cbn [length meanOf].
  unfold Qeq, Qmult, inject_Z. cbn [Qnum Qden].
  rewrite Pos.mul_1_r, Z.mul_1_r.
  rewrite <- (Nat2Pos.id (S (length zs))) at 1 by done.
  by rewrite positive_nat_Z.
Qed.

Lemma scoresIn_snoc c ds d :
  scoresIn c (ds ++ [d]) =
  scoresIn c ds ++ (if decide (qd_category d = c) then [qd_score d] else []).
Proof.
  unfold scoresIn. rewrite filter_app, fmap_app. f_equal.
  rewrite filter_cons, filter_nil. by decide_goal as Hc.
Qed.

Lemma scoresIn_absent c ds : c ∉ (qd_category <$> ds) → scoresIn c ds = [].
Proof.
  unfold scoresIn. induction ds as [|d ds IH]; [done|].
  rewrite fmap_cons, not_elem_of_cons. intros [Hne Hnotin].
  rewrite filter_cons. decide_goal as Hc; [by destruct Hne | by apply IH].
Qed.

Lemma scoresIn_present c ds : c ∈ (qd_category <$> ds) → scoresIn c ds ≠ [].
Proof.
  unfold scoresIn. induction ds as [|d ds IH]; [by intros ?%elem_of_nil|].
  rewrite fmap_cons, elem_of_cons, filter_cons. intros [->|Hin].
  - by decide_goal as Hc.
  - decide_goal as Hc; [done | by apply IH].
Qed.

(** ** The table of category sums *)

Lemma addScore_keys c z table :
  (addScore c z table).*1 = if decide (c ∈ table.*1) then table.*1 else table.*1 ++ [c].
Proof.
  induction table as [|[c' [t n]] table IH]; cbn.
  - decide_goal as Hin; [by apply elem_of_nil in Hin | done].
  - destruct (String.eqb_spec c c') as [->|Hne]; cbn.
    + decide_goal as Hin; [done|]. exfalso. apply Hin. left.
    + rewrite IH. decide_goal as Hin; decide_goal as Hin'; try done.
      * exfalso. apply Hin'. by right.
      * exfalso. apply elem_of_cons in Hin' as [?|?]; done.
Qed.

Lemma addScore_rows c z table c' t n :
  NoDup table.*1 →
  (c', (t, n)) ∈ addScore c z table →
  (c' ≠ c ∧ (c', (t, n)) ∈ table) ∨
  (c' = c ∧ (c ∉ table.*1) ∧ t = z ∧ n = 1) ∨
  (c' = c ∧ ∃ t0 n0, (c, (t0, n0)) ∈ table ∧ t = (t0 + z)%Z ∧ n = S n0).
Proof.
  induction table as [|[k [t0 n0]] table IH]; cbn.
  - intros _ Hin%list_elem_of_singleton. simplify_eq. right. left.
    repeat split. apply not_elem_of_nil.
  - intros [Hk Hnd]%NoDup_cons.
    destruct (String.eqb_spec c k) as [<-|Hne].
    + intros [Heq|Hin]%elem_of_cons.
      * simplify_eq. right. right. split; [done|]. exists t0, n0. split; [left | done].
      * left. split; [|by right]. intros ->. apply Hk.
        apply list_elem_of_fmap. by exists (c, (t, n)).
    + intros [Heq|Hin]%elem_of_cons.
      * simplify_eq. left. split; [done | left].
      * destruct (IH Hnd Hin)
          as [[Hc Hrow]|[(-> & Hfresh & -> & ->)|(-> & t1 & n1 & Hrow & -> & ->)]].
        -- left. split; [done | by right].
        -- right. left. repeat split; try done.
           rewrite not_elem_of_cons. done.
        -- right. right. split; [done|]. exists t1, n1. split; [by right | done].
Qed.

Lemma tabulates_nil : tabulates [] [].
Proof.
  split; [constructor|]. split.
  - intros c. cbn. by rewrite !elem_of_nil.
  - intros c t n Hin. by apply elem_of_nil in Hin.
Qed.

Lemma tabulates_add table ds d :
  tabulates table ds →
  tabulates (addScore (qd_category d) (qd_score d) table) (ds ++ [d]).
Proof.
  intros (Hnd & Hkeys & Hrows). split; [|split].
  - rewrite addScore_keys. decide_goal as Hin; [done|].
    apply NoDup_app. repeat split; [done | | apply NoDup_singleton].
    intros c Hc ->%list_elem_of_singleton. done.
  - intros c. rewrite addScore_keys, fmap_app, elem_of_app. cbn.
    rewrite list_elem_of_singleton, <- Hkeys.
    decide_goal as Hin.
    + split; [tauto|]. intros [?| ->]; done.
    + rewrite elem_of_app, list_elem_of_singleton. tauto.
  - intros c t n Hrow. rewrite scoresIn_snoc.
    apply addScore_rows in Hrow
      as [[Hc Hrow]|[(-> & Hfresh & -> & ->)|(-> & t1 & n1 & Hrow & -> & ->)]];
      [| | | done].
    + decide_goal as Hd; [done|]. rewrite app_nil_r. by apply Hrows.
    + decide_goal as Hd; [|done].
      rewrite scoresIn_absent by (by rewrite <- Hkeys). cbn. split; [lia | done].
    + decide_goal as Hd; [|done]. rewrite total_app, length_app. cbn.
      destruct (Hrows _ _ _ Hrow) as [-> ->]. split; lia.
Qed.

Lemma foldl_tabulates ds : ∀ table pre,
  tabulates table pre →
  tabulates (foldl (λ table d, addScore (qd_category d) (qd_score d) table) table ds)
            (pre ++ ds).
Proof.
  induction ds as [|d ds IH]; intros table pre Htab; cbn.
  - by rewrite app_nil_r.
  - rewrite cons_middle, app_assoc. apply IH. by apply tabulates_add.
Qed.

Lemma groupByCategory_tabulates ds : tabulates (groupByCategory ds) ds.
Proof. apply (foldl_tabulates ds [] []), tabulates_nil. Qed.

Lemma categoryScoresOf_keys ds :
  cs_category <$> categoryScoresOf ds = (groupByCategory ds).*1.
Proof. unfold categoryScoresOf. rewrite <- list_fmap_compose. by apply list_fmap_ext. Qed.

Lemma categoryScoresOf_scored ds :
  NoDup (cs_category <$> categoryScoresOf ds) ∧
  (∀ c, c ∈ (cs_category <$> categoryScoresOf ds) ↔ c ∈ (qd_category <$> ds)) ∧
  (∀ cs, cs ∈ categoryScoresOf ds → isMean (cs_score cs) (scoresIn (cs_category cs) ds)).
Proof.
  destruct (groupByCategory_tabulates ds) as (Hnd & Hkeys & Hrows).
  rewrite categoryScoresOf_keys. split; [done|]. split; [done|].
  intros cs Hcs.
  apply list_elem_of_fmap in Hcs as ([c [t n]] & -> & Hrow). cbn.
  destruct (Hrows _ _ _ Hrow) as [-> ->].
  apply meanOf_isMean, scoresIn_present, Hkeys, list_elem_of_fmap.
  by exists (c, (total (scoresIn c ds), length (scoresIn c ds))).
Qed.

Lemma reportScored_computed ds narrative strong weak ras :
  reportScored {| overallScore := meanOf (sumScores ds) (length ds);
                  categoryScores := categoryScoresOf ds;
                  overallFeedback := narrative; strengths := strong;
                  improvements := weak; questionDetails := ds;
                  referenceAnswers := ras |}.
Proof.
  unfold reportScored. cbn. split; [|apply categoryScoresOf_scored].
  intros Hne. rewrite sumScores_total.
  replace (length ds) with (length (scoresOf ds)) by apply length_fmap.
  apply meanOf_isMean. unfold scoresOf. by destruct ds.
Qed.

(** ** The report of a session *)

Lemma questionDetailsOf_echoes sid qs : ∀ ep,
  Forall2 echoes qs (questionDetailsOf sid ep qs).1.
Proof.
  induction qs as [|q qs IH]; intros ep; cbn; [constructor|].
  destruct (score q) as [z|] eqn:Hz; [|destruct (userAnswer q) as [a|] eqn:Ha].
  - specialize (IH ep). destruct (questionDetailsOf sid ep qs) as [ds cs]. cbn.
    constructor; [|done]. unfold echoes. cbn. rewrite Hz.
    repeat split; try done. by intros ? [= <-].
  - specialize (IH (S ep)). destruct (questionDetailsOf sid (S ep) qs) as [ds cs]. cbn.
    constructor; [|done]. unfold echoes. cbn. rewrite Hz, Ha.
    repeat split; done.
  - specialize (IH ep). destruct (questionDetailsOf sid ep qs) as [ds cs]. cbn.
    constructor; [|done]. unfold echoes. cbn. rewrite Hz, Ha.
    repeat split; done.
Qed.

Lemma countCapabilityCalls_app p cs cs' :
  countCapabilityCalls p (cs ++ cs') = countCapabilityCalls p cs + countCapabilityCalls p cs'.
Proof. induction cs as [|c cs IH]; cbn; [done | rewrite IH; lia]. Qed.

Lemma questionDetailsOf_calls sid sid' qs : ∀ ep,
  countCapabilityCalls (isSynthesisOf sid') (questionDetailsOf sid ep qs).2 = 0.
Proof.
  induction qs as [|q qs IH]; intros ep; cbn; [done|].
  destruct (score q); [|destruct (userAnswer q)].
  - specialize (IH ep). by destruct (questionDetailsOf sid ep qs).
  - specialize (IH (S ep)). by destruct (questionDetailsOf sid (S ep) qs).
  - specialize (IH ep). by destruct (questionDetailsOf sid ep qs).
Qed.

Lemma referenceAnswersOf_calls sid sid' qs : ∀ ep,
  countCapabilityCalls (isSynthesisOf sid') (referenceAnswersOf sid ep qs).2 = 0.
Proof.
  induction qs as [|q qs IH]; intros ep; cbn; [done|].
  destruct (retry _) as [[text points]|]; [|done].
  specialize (IH (S ep)). by destruct (referenceAnswersOf sid (S ep) qs).
Qed.

Lemma getReport_spec sid st :
  getReportSpec sid st (getReport sid st).1 (getReport sid st).2.
Proof.
  unfold getReport.
  destruct (sessions st !! sid) as [s|] eqn:Hs; [|by constructor].
  destruct (isCompleted s) eqn:Hc; cbn [negb].
  2:{ apply (report_too_early _ _ s); [done | by apply isCompleted_false]. }
  apply isCompleted_true in Hc.
  destruct (reports st !! sid) as [r|] eqn:Hr; [by apply (report_cached _ _ s)|].
  pose proof (questionDetailsOf_echoes sid (questions s) (epoch st)) as Hechoes.
  pose proof (questionDetailsOf_calls sid sid (questions s) (epoch st)) as Hcalls.
  destruct (questionDetailsOf sid (epoch st) (questions s)) as [ds cs]. cbn in Hechoes, Hcalls.
  destruct (retry _) as [[[narrative strong] weak]|];
    [|by apply (report_failed _ _ s)].
  match goal with |- context [referenceAnswersOf sid ?e ?q] =>
    pose proof (referenceAnswersOf_calls sid sid q e) as Hrefs;
    destruct (referenceAnswersOf sid e q) as [[ras|] rcs] end;
    [|by apply (report_failed _ _ s)].
  cbn in Hrefs. cbn [fst snd].
  apply (report_computed _ _ s); try done.
  - split; [done | apply reportScored_computed].
  - unfold synthesisCalls. cbn.
    rewrite !countCapabilityCalls_app, Hcalls, Hrefs. cbn.
    rewrite Nat.eqb_refl. lia.
Qed.

Lemma getReport_cached sid st s r :
  sessions st !! sid = Some s → status s = COMPLETED →
  reports st !! sid = Some r →
  getReport sid st = (Ok r, st).
Proof.
  intros Hs Hdone Hr. unfold getReport. rewrite Hs.
  apply isCompleted_true in Hdone. by rewrite Hdone, Hr.
Qed.

(** ** The cascade *)

Lemma deleteSessions_gone rid st sid s :
  sessions (deleteSessionsByResumeId rid st) !! sid = Some s → resumeId s ≠ rid.
Proof. cbn. intros Hs. by apply map_lookup_filter_Some in Hs as [_ Hs]. Qed.

Lemma deleteSessions_owned rid st sid s :
  sessions st !! sid = Some s → resumeId s = rid →
  sessions (deleteSessionsByResumeId rid st) !! sid = None ∧
  reports (deleteSessionsByResumeId rid st) !! sid = None.
Proof.
  intros Hs Hrid. cbn. split.
  - apply map_lookup_filter_None. right. intros s' Hs'. cbn. naive_solver.
  - apply map_lookup_filter_None. right. intros r Hr. cbn. rewrite Hs. cbn. naive_solver.
Qed.

Lemma deleteSessions_others rid st sid s :
  sessions st !! sid = Some s → resumeId s ≠ rid →
  sessions (deleteSessionsByResumeId rid st) !! sid = Some s ∧
  reports (deleteSessionsByResumeId rid st) !! sid = reports st !! sid.
Proof.
  intros Hs Hrid. cbn. split.
  - by apply map_lookup_filter_Some.
  - destruct (reports st !! sid) as [r|] eqn:Hr.
    + apply map_lookup_filter_Some. split; [done|]. cbn. rewrite Hs. cbn. naive_solver.
    + apply map_lookup_filter_None. by left.
Qed.

(** ** What holds of every reachable store *)

Lemma consistent_empty : consistent emptyStore.
Proof.
  split; cbn.
  - intros i s Hs. by rewrite lookup_empty in Hs.
  - intros sid r Hr. by rewrite lookup_empty in Hr.
Qed.

Lemma consistent_ext st st' :
  sessions st' = sessions st → reports st' = reports st →
  nextSessionId st' = nextSessionId st →
  consistent st → consistent st'.
Proof. intros Hs Hr Hn [Hkeys Hreps]. split; rewrite ?Hs, ?Hr, ?Hn; done. Qed.

(** Replacing an active session keeps the store consistent: an active
    session has no report. *)
Lemma consistent_update st sid s s' :
  consistent st → sessions st !! sid = Some s → active s →
  consistent (putSession sid s' st).
Proof.
  intros [Hkeys Hreps] Hs Hact. split; cbn.
  - intros i t. rewrite lookup_insert. destruct (decide (sid = i)) as [<-|Hne].
    + intros _. by apply (Hkeys sid s).
    + apply Hkeys.
  - intros sid' r Hr. destruct (Hreps sid' r Hr) as (t & Ht & Hdone & Hrep).
    exists t. rewrite lookup_insert_ne; [done|].
    intros <-. apply Hact. congruence.
Qed.

Lemma createOrResume_consistent text n rid st :
  consistent st → consistent (createOrResumeSession text n rid st).2.
Proof.
  intros Hcons. unfold createOrResumeSession.
  destruct (findUnfinishedSession rid st); [done|].
  destruct (retry _) as [qs|]; [|by apply (consistent_ext st)].
  destruct (length qs =? n); [|by apply (consistent_ext st)].
  destruct Hcons as [Hkeys Hreps]. split; cbn.
  - intros i t. rewrite lookup_insert. destruct (decide (nextSessionId st = i)) as [<-|Hne].
    + intros _. lia.
    + intros Ht. apply Hkeys in Ht. lia.
  - intros sid r Hr. destruct (Hreps sid r Hr) as (t & Ht & Hdone & Hrep).
    exists t. rewrite lookup_insert_ne; [done|].
    apply Hkeys in Ht. lia.
Qed.

Lemma submitAnswer_consistent sid idx a st :
  consistent st → consistent (submitAnswer sid idx a st).2.
Proof.
  intros Hcons. unfold submitAnswer.
  destruct (sessions st !! sid) as [s|] eqn:Hs; [|done].
  destruct (isCompleted s) eqn:Hc; [done|].
  destruct (negb _); [done|]. cbn -[putSession].
  destruct (afterGrading_sessions sid (currentQuestionIndex s)
              (questions s !! currentQuestionIndex s) st) as (Hsame & Hreps & Hnext).
  apply (consistent_update _ sid s);
    [by apply (consistent_ext st) | by rewrite Hsame |].
  by apply isCompleted_false.
Qed.

Lemma completeEarly_consistent sid st :
  consistent st → consistent (completeEarly sid st).2.
Proof.
  intros Hcons. unfold completeEarly.
  destruct (sessions st !! sid) as [s|] eqn:Hs; [|done].
  destruct (isCompleted s) eqn:Hc; [done|]. cbn -[putSession].
  apply (consistent_update _ sid s); [done..|]. by apply isCompleted_false.
Qed.

Lemma getReport_consistent sid st :
  consistent st → consistent (getReport sid st).2.
Proof.
  intros Hcons.
  destruct (getReport_spec sid st) as [| | |s st' Hs Hdone Hr Hss Hrs Hn
                                       |s r st' Hs Hdone Hr Hrep Hss Hrs Hn _]; try done.
  - by apply (consistent_ext st).
  - destruct Hcons as [Hkeys Hreps]. split; rewrite ?Hss, ?Hrs, ?Hn; [done|].
    intros sid' r'. rewrite lookup_insert. destruct (decide (sid = sid')) as [<-|Hne].
    + intros [= <-]. by exists s.
    + apply Hreps.
Qed.

Lemma deleteSessions_consistent rid st :
  consistent st → consistent (deleteSessionsByResumeId rid st).
Proof.
  intros [Hkeys Hreps]. split; cbn.
  - intros i s [Hs _]%map_lookup_filter_Some. by apply (Hkeys i s).
  - intros sid r [Hr Hkeep]%map_lookup_filter_Some. cbn in Hkeep.
    destruct (Hreps sid r Hr) as (s & Hs & Hdone & Hrep).
    exists s. split; [|done]. apply map_lookup_filter_Some. split; [done|].
    cbn. rewrite Hs in Hkeep. cbn in Hkeep. congruence.
Qed.

Lemma exec_consistent st op : consistent st → consistent (exec st op).
Proof.
  intros Hcons. destruct op; cbn [exec].
  - by apply createOrResume_consistent.
  - done.
  - by apply submitAnswer_consistent.
  - by apply completeEarly_consistent.
  - by apply getReport_consistent.
  - by apply deleteSessions_consistent.
Qed.

Lemma run_consistent ops : ∀ st, consistent st → consistent (run ops st).
Proof.
  induction ops as [|op ops IH]; intros st Hcons; [done|].
  apply IH. by apply exec_consistent.
Qed.

Lemma reachable_consistent st : reachable st → consistent st.
Proof. intros [ops ->]. apply run_consistent, consistent_empty. Qed.

(** A COMPLETED session and its report survive every operation but the
    cascade of its own résumé. *)
Lemma exec_keeps st op sid s :
  consistent st →
  sessions st !! sid = Some s → status s = COMPLETED →
  op ≠ OpDeleteSessions (resumeId s) →
  sessions (exec st op) !! sid = Some s ∧
  (∀ r, reports st !! sid = Some r → reports (exec st op) !! sid = Some r).
Proof.
  intros [Hkeys Hreps] Hs Hdone Hop. destruct op; cbn [exec].
  - unfold createOrResumeSession.
    destruct (findUnfinishedSession rid st); [done|].
    destruct (retry _) as [qs|]; [|done].
    destruct (length qs =? questionCount); [|done]. cbn.
    split; [|done]. rewrite lookup_insert_ne; [done|].
    apply Hkeys in Hs. lia.
  - done.
  - unfold submitAnswer.
    destruct (sessions st !! sid0) as [t|] eqn:Ht; [|done].
    destruct (isCompleted t) eqn:Hc; [done|].
    destruct (negb _); [done|]. cbn -[afterGrading].
    destruct (afterGrading_sessions sid0 (currentQuestionIndex t)
                (questions t !! currentQuestionIndex t) st) as (-> & -> & _).
    split; [|done]. rewrite lookup_insert_ne; [done|].
    intros ->. apply isCompleted_false in Hc. apply Hc. congruence.
  - unfold completeEarly.
    destruct (sessions st !! sid0) as [t|] eqn:Ht; [|done].
    destruct (isCompleted t) eqn:Hc; [done|]. cbn.
    split; [|done]. rewrite lookup_insert_ne; [done|].
    intros ->. apply isCompleted_false in Hc. apply Hc. congruence.
  - destruct (getReport_spec sid0 st) as [| | |t st' Ht Htd Hr Hss Hrs Hn
                                          |t r0 st' Ht Htd Hr Hrep Hss Hrs Hn _]; try done.
    + by rewrite Hss, Hrs.
    + rewrite Hss, Hrs. split; [done|].
      intros r Hsome. rewrite lookup_insert_ne; [done|]. congruence.
  - destruct (deleteSessions_others rid st sid s Hs) as [Hs' Hr']; [congruence|].
    split; [done|]. intros r Hr. by rewrite Hr'.
Qed.

Lemma run_keeps more : ∀ st sid s r,
  consistent st →
  sessions st !! sid = Some s → status s = COMPLETED →
  reports st !! sid = Some r →
  OpDeleteSessions (resumeId s) ∉ more →
  sessions (run more st) !! sid = Some s ∧ reports (run more st) !! sid = Some r.
Proof.
  induction more as [|op more IH]; intros st sid s r Hcons Hs Hdone Hr Hkeep; [done|].
  apply not_elem_of_cons in Hkeep as [Hop Hkeep].
  destruct (exec_keeps st op sid s Hcons Hs Hdone) as [Hs' Hr']; [done|].
  apply IH; [by apply exec_consistent | done | done | by apply Hr' | done].
Qed.

(** C4.  On a session that is not COMPLETED [getReport] fails with
    [SessionNotCompleted] and changes nothing.  When it returns a report,
    that report is the one persisted for the session; it cost exactly one
    synthesis call if none was cached and none if one was; and after any
    further operations (short of deleting the résumé's sessions) every
    [getReport] for the session returns the identical report and leaves
    the store as it is, so no further synthesis call is made. *)
Theorem getReport_computed_once st sid :
  reachable st →
  (∀ s, sessions st !! sid = Some s → active s →
     getReport sid st = (Err SessionNotCompleted, st)) ∧
  (∀ r st1, getReport sid st = (Ok r, st1) →
     reports st1 !! sid = Some r ∧
     synthesisCalls sid st1 =
       synthesisCalls sid st + (if reports st !! sid is Some _ then 0 else 1) ∧
     ∀ s more,
       sessions st !! sid = Some s →
       OpDeleteSessions (resumeId s) ∉ more →
       getReport sid (run more st1) = (Ok r, run more st1) ∧
       synthesisCalls sid (getReport sid (run more st1)).2 =
         synthesisCalls sid (run more st1)).
Proof.
  intros Hreach%reachable_consistent. split.
  - intros s Hs Hact%isCompleted_false. unfold getReport. by rewrite Hs, Hact.
  - intros r st1 Hrun.
    pose proof (getReport_consistent sid st Hreach) as Hcons1.
    pose proof (getReport_spec sid st) as Hspec.
    rewrite Hrun in Hcons1, Hspec. cbn in Hcons1, Hspec.
    assert (∃ s, sessions st !! sid = Some s ∧ status s = COMPLETED ∧
                 sessions st1 = sessions st ∧ reports st1 !! sid = Some r ∧
                 synthesisCalls sid st1 =
                   synthesisCalls sid st + (if reports st !! sid is Some _ then 0 else 1))
      as (s & Hs & Hdone & Hss & Hr1 & Hcount).
    { inversion Hspec as [| |s r' Hs Hdone Hr |
                          |s r' st' Hs Hdone Hr Hrep Hss Hrs Hn Hcount]; subst.
      - exists s. rewrite Hr. repeat split; first [done | lia].
      - exists s. rewrite Hr, Hrs, lookup_insert_eq. repeat split; first [done | lia]. }
    split; [done|]. split; [done|].
    intros s' more Hs' Hkeep. rewrite Hs in Hs'. injection Hs' as <-.
    destruct (run_keeps more st1 sid s r) as [Hsm Hrm]; try done.
    { by rewrite Hss. }
    rewrite (getReport_cached sid (run more st1) s r); done.
Qed.

(** C7.  The report returned for a session is that of a COMPLETED session;
    it has one detail per question, which echoes the question and carries
    its score (0 for a question without answer and score); its overall
    score is the arithmetic mean of the detail scores; its category scores
    have exactly one entry per category present, each the mean of the
    scores of the questions of that category.  For a session of two
    scored questions the overall score is [(score0 + score1) / 2] and
    there are two entries in [questionDetails]. *)
Theorem report_scores_are_means st sid r st1 :
  reachable st →
  getReport sid st = (Ok r, st1) →
  ∃ s, sessions st !! sid = Some s ∧ status s = COMPLETED ∧
    Forall2 echoes (questions s) (questionDetails r) ∧
    (questionDetails r ≠ [] →
       isMean (overallScore r) (qd_score <$> questionDetails r)) ∧
    NoDup (cs_category <$> categoryScores r) ∧
    (∀ c, c ∈ (cs_category <$> categoryScores r) ↔
          ∃ d, d ∈ questionDetails r ∧ qd_category d = c) ∧
    (∀ cs, cs ∈ categoryScores r →
       isMean (cs_score cs)
         (qd_score <$> filter (λ d, qd_category d = cs_category cs) (questionDetails r))) ∧
    (∀ q0 q1 z0 z1,
       questions s = [q0; q1] → score q0 = Some z0 → score q1 = Some z1 →
       (overallScore r == (z0 + z1) # 2)%Q ∧ length (questionDetails r) = 2).
Proof.
  intros Hreach%reachable_consistent Hrun.
  pose proof (getReport_spec sid st) as Hspec. rewrite Hrun in Hspec. cbn in Hspec.
  assert (∃ s, sessions st !! sid = Some s ∧ status s = COMPLETED ∧ reportOf s r)
    as (s & Hs & Hdone & Hechoes & Hmean & Hnd & Hcats & Hcat).
  { inversion Hspec as [| |s r' Hs Hdone Hr |
                        |s r' st' Hs Hdone Hr Hrep Hss Hrs Hn Hcount]; subst.
    - destruct Hreach as [_ Hreps]. destruct (Hreps sid r Hr) as (s' & Hs' & Hd' & Hrep).
      exists s'. done.
    - by exists s. }
  exists s. split; [done|]. split; [done|]. split; [done|].
  split; [exact Hmean|]. split; [done|]. split; [|split; [exact Hcat|]].
  - intros c. rewrite Hcats, list_elem_of_fmap. split.
    + intros (d & -> & Hd). by exists d.
    + intros (d & Hd & <-). by exists d.
  - intros q0 q1 z0 z1 Hqs Hz0 Hz1. rewrite Hqs in Hechoes.
    pose proof (Forall2_length _ _ _ Hechoes) as Hlen.
    apply Forall2_cons_inv_l in Hechoes as (d0 & ds & He0 & Hechoes & Hds).
    apply Forall2_cons_inv_l in Hechoes as (d1 & ds' & He1 & Hechoes & ->).
    apply Forall2_nil_inv_l in Hechoes as ->.
    split; [|done].
    destruct Hmean as [_ Hmean]; [by rewrite Hds|].
    unfold scoresOf in Hmean. rewrite Hds in Hmean. cbn in Hmean.
    destruct He0 as (_ & _ & _ & _ & Hd0 & _), He1 as (_ & _ & _ & _ & Hd1 & _).
    rewrite (Hd0 _ Hz0), (Hd1 _ Hz1) in Hmean.
    revert Hmean. unfold Qeq, Qmult, inject_Z. cbn.
    rewrite !Pos.mul_1_r. lia.
Qed.

End EngineFacts.

(* ===================================================================== *)
(** * Properties of the interview page *)
(* ===================================================================== *)

Section PageFacts.
Import InterviewPage.
Context `{Engine.GradingCapability}.

(** ** Questions keep their index *)

Lemma wellIndexed_alter f i (s : Engine.InterviewSession) qs :
  (∀ q, Engine.questionIndex (f q) = Engine.questionIndex q) →
  Engine.wellIndexed s →
  qs = alter f i (Engine.questions s) →
  ∀ j q, qs !! j = Some q → Engine.questionIndex q = j.
Proof.
  intros Hf Hs -> j q. destruct (decide (i = j)) as [<-|Hne].
  - rewrite list_lookup_alter_eq.
    destruct (Engine.questions s !! i) as [q0|] eqn:Hq0; [|done].
    intros [= <-]. rewrite Hf. by apply Hs.
  - rewrite list_lookup_alter_ne by done. apply Hs.
Qed.

Lemma allIndexed_empty : Engine.allIndexed Engine.emptyStore.
Proof. intros sid s Hs. cbn in Hs. by rewrite lookup_empty in Hs. Qed.

Lemma allIndexed_put st sid s :
  Engine.allIndexed st → Engine.wellIndexed s →
  Engine.allIndexed (Engine.putSession sid s st).
Proof.
  intros Hall Hs sid' s'. cbn. rewrite lookup_insert.
  destruct (decide (sid = sid')) as [<-|Hne]; [by intros [= <-] | apply Hall].
Qed.

Lemma exec_allIndexed st op : Engine.allIndexed st → Engine.allIndexed (Engine.exec st op).
Proof.
  intros Hall. destruct op as [text n rid|rid|sid idx a|sid|sid|rid]; cbn [Engine.exec].
  - unfold Engine.createOrResumeSession.
    destruct (Engine.findUnfinishedSession rid st); [done|].
    destruct (Engine.retry _) as [qs|]; [|done].
    destruct (length qs =? n); [|done]. cbn.
    intros sid s. cbn. rewrite lookup_insert.
    destruct (decide (Engine.nextSessionId st = sid)) as [<-|Hne]; [|apply Hall].
    intros [= <-] i q. cbn. rewrite list_lookup_imap.
    destruct (qs !! i); [|done]. by intros [= <-].
  - done.
  - unfold Engine.submitAnswer.
    destruct (Engine.sessions st !! sid) as [s|] eqn:Hs; [|done].
    destruct (Engine.isCompleted s); [done|].
    destruct (negb _); [done|]. cbn -[Engine.putSession].
    apply allIndexed_put.
    { intros sid' s'.
      destruct (afterGrading_sessions sid (Engine.currentQuestionIndex s)
                  (Engine.questions s !! Engine.currentQuestionIndex s) st) as (-> & _).
      apply Hall. }
    intros i q. cbn.
    eapply wellIndexed_alter; [|by apply (Hall sid)|done]. done.
  - unfold Engine.completeEarly.
    destruct (Engine.sessions st !! sid) as [s|] eqn:Hs; [|done].
    destruct (Engine.isCompleted s); [done|]. cbn -[Engine.putSession].
    apply allIndexed_put; [done|]. intros i q. cbn. rewrite list_lookup_imap.
    destruct (Engine.questions s !! i) as [q0|] eqn:Hq0; [|done].
    intros [= <-]. unfold Engine.zeroFill.
    destruct (Engine.userAnswer q0), (Engine.currentQuestionIndex s <=? i);
      cbn; by apply (Hall sid s Hs i q0).
  - intros sid' s. rewrite getReport_sessions. apply Hall.
  - intros sid s [Hs _]%map_lookup_filter_Some. by apply (Hall sid).
Qed.

Lemma reachable_allIndexed st : Engine.reachable st → Engine.allIndexed st.
Proof.
  intros [ops ->]. unfold Engine.run.
  assert (Hgen : ∀ st, Engine.allIndexed st → Engine.allIndexed (foldl Engine.exec st ops)).
  { induction ops as [|op ops IH]; intros st Hall; [done|].
    apply IH. by apply exec_allIndexed. }
  apply Hgen, allIndexed_empty.
Qed.

(** ** Starting an interview *)

Lemma restoreSession_session s p :
  session (restoreSession s p) = Some s ∧ stage (restoreSession s p) = interview ∧
  isCreating (restoreSession s p) = isCreating p ∧ error (restoreSession s p) = error p.
Proof.
  unfold restoreSession.
  destruct (Engine.questions s !! Engine.currentQuestionIndex s) as [q|]; [|done].
  destruct (Engine.userAnswer q) as [a|]; [|done]. by destruct (truthy a).
Qed.

(** When the server accepts the creation request, the page shows the
    session it returned. *)
Lemma startInterview_created props p st rid s st' :
  resumeId props = Some rid →
  Engine.createOrResumeSession (resumeText props) (questionCount p) rid st = (Engine.Ok s, st') →
  (startInterview props p st).2 = st' ∧
  session (startInterview props p st).1 = Some s ∧
  stage (startInterview props p st).1 = interview ∧
  error (startInterview props p st).1 = "".
Proof.
  intros Hrid Hcreate. unfold startInterview. cbn [api_createSession engineApi].
  cbn [req_resumeId req_resumeText req_questionCount].
  change (questionCount (setError "" (setIsCreating true p))) with (questionCount p).
  rewrite Hrid, Hcreate. cbn [settle].
  destruct (hasProgress s).
  - destruct (restoreSession_session s (setError "" (setIsCreating true p)))
      as (Hsession & Hstage & _ & Herror).
    split; [done|]. split; [exact Hsession|]. split; [exact Hstage | exact Herror].
  - split; [done|]. by destruct (Engine.questions s).
Qed.

(** The page side of the one-active-session rule: starting an interview
    for a résumé that has an active session shows that session and leaves
    the server as it is. *)
Lemma startInterview_resumes props p st rid i s :
  resumeId props = Some rid →
  Engine.atMostOneActive st →
  Engine.sessions st !! i = Some s → Engine.resumeId s = rid → Engine.active s →
  (startInterview props p st).2 = st ∧
  session (startInterview props p st).1 = Some s ∧
  stage (startInterview props p st).1 = interview.
Proof.
  intros Hrid Hinv Hs Hown Hact.
  destruct (startInterview_created props p st rid s st Hrid) as (? & ? & ? & _); [|done].
  by apply (createOrResume_resumes _ _ _ _ i).
Qed.

(** Two pages (two tabs) that start an interview for the same résumé one
    after the other show the same session. *)
Lemma startInterview_same_session props p1 p2 st rid s st1 :
  resumeId props = Some rid →
  Engine.atMostOneActive st →
  Engine.createOrResumeSession (resumeText props) (questionCount p1) rid st
    = (Engine.Ok s, st1) →
  session (startInterview props p1 st).1 = Some s ∧
  session (startInterview props p2 (startInterview props p1 st).2).1 = Some s ∧
  (startInterview props p2 (startInterview props p1 st).2).2 = st1.
Proof.
  intros Hrid Hinv Hcreate.
  destruct (startInterview_created props p1 st rid s st1 Hrid Hcreate) as (-> & Hs1 & _).
  split; [done|].
  destruct (startInterview_created props p2 st1 rid s st1 Hrid) as (? & ? & _); [|done].
  by apply (createOrResume_twice (resumeText props) (questionCount p1) _ _ _ st).
Qed.

(** ** Submitting an answer *)

Lemma generateReport_finished p st shown s :
  session p = Some shown →
  Engine.sessions st !! Engine.sessionId shown = Some s →
  Engine.status s = Engine.COMPLETED →
  stage p = loading_report →
  finished (generateReport p st).1 (generateReport p st).2 ∧
  session (generateReport p st).1 = Some shown.
Proof.
  intros Hshown Hs Hdone Hstage. unfold generateReport. rewrite Hshown. cbn [api_getReport engineApi].
  pose proof (getReport_sessions (Engine.sessionId shown) st) as Hsessions.
  destruct (Engine.getReport (Engine.sessionId shown) st) as [[r|e] st'] eqn:Hrun; cbn in *.
  - split; [|done]. exists shown, s. rewrite Hsessions. repeat split; try done.
    left. split; [done | by eexists].
  - split; [|done]. exists shown, s. rewrite Hsessions. repeat split; try done.
    by right.
Qed.

(** A page in sync with the server is never rejected when it submits a
    non-blank answer: the server advances the cursor by one, and the page
    either shows the question at the new cursor or is done with the
    interview. *)
Lemma handleSubmitAnswer_in_sync p st :
  inSync p st → truthy (trim (answer p)) = true →
  (∃ shown s s',
     session p = Some shown ∧
     Engine.sessions st !! Engine.sessionId shown = Some s ∧
     Engine.sessions (handleSubmitAnswer p st).2 !! Engine.sessionId shown = Some s' ∧
     Engine.currentQuestionIndex s' = S (Engine.currentQuestionIndex s)) ∧
  (inSync (handleSubmitAnswer p st).1 (handleSubmitAnswer p st).2 ∧
   error (handleSubmitAnswer p st).1 = error p
   ∨ finished (handleSubmitAnswer p st).1 (handleSubmitAnswer p st).2).
Proof.
  intros (shown & s & q & Hshown & Hs & Hact & Hidx & Hq & Hcursor) Hanswer.
  destruct (submitAnswer_accepts st (Engine.sessionId shown) (Engine.questionIndex q)
              (trim (answer p)) s Hs Hact Hcursor)
    as (resp & s' & st' & Hrun & Hs' & Hcursor' & Hlen & Hdone & Hprogress & Hhas &
        Hnext & Hq' & Hrecorded & Hothers & Hsessions).
  unfold handleSubmitAnswer. rewrite Hshown, Hq, Hanswer. cbn [negb].
  cbn [api_submitAnswer engineApi].
  cbn -[trim]. rewrite Hrun. cbn -[trim].
  destruct (Engine.hasNextQuestion resp) eqn:Hyes.
  - (* the server returned the next question *)
    destruct (Engine.nextQuestion resp) as [next|] eqn:Hnextq.
    2:{ destruct Hnext as [Hsome _]. by destruct (Hsome eq_refl). }
    cbn. split; [by exists shown, s, s'|]. left. split; [|done].
    exists shown, s', next. cbn. repeat split; try done.
    + intros Hc. apply Hhas in Hc. congruence.
    + intros i q0 Hq0. destruct (decide (i = Engine.questionIndex q)) as [->|Hne].
      * destruct (Engine.questions s !! Engine.questionIndex q) as [q1|] eqn:Hq1.
        -- destruct (Hrecorded q1 eq_refl) as (q2 & Hq2 & _ & Hi & _).
           rewrite Hq2 in Hq0. injection Hq0 as <-. rewrite Hi. by apply Hidx.
        -- apply lookup_ge_None in Hq1. apply lookup_lt_Some in Hq0. lia.
      * rewrite Hothers in Hq0 by done. by apply Hidx.
    + apply Hidx. by rewrite Hq'.
  - (* the session is COMPLETED: the page fetches the report *)
    assert (Hcompleted : Engine.status s' = Engine.COMPLETED) by by apply Hhas.
    match goal with |- context [generateReport ?p0 st'] =>
      destruct (generateReport_finished p0 st' shown s') as [Hfin Hkept]; try done;
      pose proof (getReport_sessions (Engine.sessionId shown) st') as Hkeep;
      destruct (generateReport p0 st') as [p1 st1] eqn:Hgen
    end.
    cbn in *. split.
    + exists shown, s, s'. repeat split; try done.
      destruct Hfin as (shown' & s1 & Hshown' & Hs1 & _).
      rewrite Hkept in Hshown'. injection Hshown' as <-.
      assert (st1 = (generateReport
                (setStage loading_report (setAnswer ""
                   (setMessages (messages p ++ [userMessage (answer p)])
                      (setIsSubmitting true p)))) st').2) as -> by by rewrite Hgen.
      unfold generateReport. cbn. rewrite Hshown.
      destruct (Engine.getReport (Engine.sessionId shown) st') as [[r|e] st2] eqn:Hrep;
        cbn in *; by rewrite Hkeep.
    + right. destruct Hfin as (shown' & s1 & Hshown' & Hs1 & Hdone1 & Hstage).
      exists shown', s1. by repeat split.
Qed.

(** ** Completing early *)

(** Completing early from the page completes the session on the server;
    the page then shows the report or the failure to fetch it. *)
Lemma handleCompleteEarly_finishes p st shown s :
  session p = Some shown →
  Engine.sessions st !! Engine.sessionId shown = Some s →
  Engine.active s →
  finished (handleCompleteEarly p st).1 (handleCompleteEarly p st).2.
Proof.
  intros Hshown Hs Hact%isCompleted_false.
  unfold handleCompleteEarly. rewrite Hshown.
  cbn [api_completeInterview engineApi]. unfold Engine.completeEarly. cbn [session setIsSubmitting]. rewrite Hs, Hact. cbn [settle].
  match goal with |- context [generateReport ?p0 ?st0] =>
    destruct (generateReport_finished p0 st0 shown
                {| Engine.sessionId := Engine.sessionId s;
                   Engine.resumeId := Engine.resumeId s;
                   Engine.questions :=
                     imap (Engine.zeroFill (Engine.currentQuestionIndex s))
                          (Engine.questions s);
                   Engine.currentQuestionIndex := Engine.currentQuestionIndex s;
                   Engine.status := Engine.COMPLETED |}) as [Hfin _];
      [done | cbn; by rewrite lookup_insert_eq | done | done |];
    destruct (generateReport p0 st0) as [p1 st1]
  end.
  cbn in *. destruct Hfin as (shown' & s1 & Hshown' & Hs1 & Hdone1 & Hstage).
  exists shown', s1. by repeat split.
Qed.

(** ** Looking for an unfinished interview *)

(** On mount the page finds the active session of its résumé, and
    continuing shows it. *)
Lemma mount_finds_active props p st rid i s :
  resumeId props = Some rid → rid ≠ 0%Z →
  Engine.atMostOneActive st →
  Engine.sessions st !! i = Some s → Engine.resumeId s = rid → Engine.active s →
  (mount props p st).2 = st ∧
  unfinishedSession (mount props p st).1 = Some s ∧
  session (handleContinueUnfinished (mount props p st).1) = Some s ∧
  stage (handleContinueUnfinished (mount props p st).1) = interview.
Proof.
  intros Hrid Hnz Hinv Hs Hown Hact.
  unfold mount, checkUnfinishedSession. rewrite Hrid.
  assert (Htruthy : truthyId (Some rid) = true).
  { cbn. by destruct (Z.eqb_spec rid 0). }
  rewrite Htruthy. cbn [negb]. cbn [api_findUnfinishedSession engineApi].
  rewrite (findUnfinished_active rid st i s Hinv Hs Hown Hact).
  split; [done|]. split; [done|].
  unfold handleContinueUnfinished. cbn [fst unfinishedSession setCheckingUnfinished
                                         setUnfinishedSession].
  destruct (restoreSession_session s
    (setCheckingUnfinished false
       (setUnfinishedSession (Some s) (setCheckingUnfinished true p))))
    as (Hsession & Hstage & _).
  split; [exact Hsession | exact Hstage].
Qed.

End PageFacts.

(* ===================================================================== *)
(** * Properties of the résumé controller *)
(* ===================================================================== *)

(** Unfolds a request down to the world it runs on. *)
Ltac step_request :=
  unfold Resume.uploadAndAnalyze, Resume.deleteResume,
    Resume.parseService_detectContentType, Resume.parseService_parseResume,
    Resume.gradingService_analyzeResume, Resume.storageService_uploadResume,
    Resume.storageService_getFileUrl, Resume.storageService_deleteResume,
    Resume.persistenceService_findExistingResume,
    Resume.persistenceService_getLatestAnalysisAsDTO,
    Resume.persistenceService_saveResume, Resume.persistenceService_saveAnalysis,
    Resume.persistenceService_findById, Resume.persistenceService_deleteResume,
    Resume.interviewPersistenceService_deleteSessionsByResumeId,
    Resume.tryCatch, Resume.logCall, Resume.liftAttempt, Resume.modify, Resume.gets,
    Resume.throw, mbind, Resume.M_bind, mret, Resume.M_ret;
  cbn beta iota.

Ltac step_request_in H :=
  unfold Resume.uploadAndAnalyze, Resume.deleteResume,
    Resume.parseService_detectContentType, Resume.parseService_parseResume,
    Resume.gradingService_analyzeResume, Resume.storageService_uploadResume,
    Resume.storageService_getFileUrl, Resume.storageService_deleteResume,
    Resume.persistenceService_findExistingResume,
    Resume.persistenceService_getLatestAnalysisAsDTO,
    Resume.persistenceService_saveResume, Resume.persistenceService_saveAnalysis,
    Resume.persistenceService_findById, Resume.persistenceService_deleteResume,
    Resume.interviewPersistenceService_deleteSessionsByResumeId,
    Resume.tryCatch, Resume.logCall, Resume.liftAttempt, Resume.modify, Resume.gets,
    Resume.throw, mbind, Resume.M_bind, mret, Resume.M_ret in H;
  cbn beta iota in H.

(** Rewrites the world of an outcome into the form its case names. *)
Ltac outcome_world W :=
  match goal with
  | |- Resume.UploadOutcome _ _ _ ?w' =>
      replace w' with W;
      [| unfold Resume.afterCalls, Resume.withAnalysis, Resume.withRecord,
           Resume.setAnalyses, Resume.setCalls, Resume.freshPath, Resume.duplicatePath;
         cbn; by rewrite <- ?app_assoc]
  end.

Section ResumeFacts.
Import Resume.
Context `{ResumeParseService} `{ResumeGradingService} `{FileStorageService}
        `{ResumePersistenceService} `{AppConfigProperties}.

(** ** Worlds that differ in the calls only *)

Lemma existingResume_setCalls file cs w :
  existingResume file (setCalls cs w) = existingResume file w.
Proof. reflexivity. Qed.

Lemma latestAnalysis_setCalls id cs w :
  latestAnalysis id (setCalls cs w) = latestAnalysis id w.
Proof. reflexivity. Qed.

Lemma afterCalls_nil w : afterCalls [] w = w.
Proof. destruct w. unfold afterCalls, setCalls. cbn. by rewrite app_nil_r. Qed.

Lemma afterCalls_app cs cs' w : afterCalls cs' (afterCalls cs w) = afterCalls (cs ++ cs') w.
Proof. unfold afterCalls, setCalls. cbn. by rewrite app_assoc. Qed.

Lemma countCalls_app p cs cs' :
  countCalls p (cs ++ cs') = countCalls p cs + countCalls p cs'.
Proof. induction cs as [|c cs IH]; cbn; [done | rewrite IH; lia]. Qed.

(** ** The lookup by fingerprint *)

Lemma existingResume_None file w :
  existingResume file w = None →
  filter (λ kv : Z * ResumeEntity, getFingerprint kv.2 = fingerprint file) (resumes w) = ∅.
Proof.
  unfold existingResume. intros Hnone.
  apply map_to_list_empty_iff.
  destruct (map_to_list _) as [|kv l]; [done | discriminate].
Qed.

(** The record saved for an upload that matched nothing is the one the
    next lookup finds. *)
Lemma existingResume_saved file w entity :
  existingResume file w = None →
  getFingerprint entity = fingerprint file →
  snd <$> head (map_to_list
    (filter (λ kv : Z * ResumeEntity, getFingerprint kv.2 = fingerprint file)
            (<[getId entity := entity]> (resumes w)))) = Some entity.
Proof.
  intros Hnone Hfp.
  rewrite map_filter_insert_True by done.
  rewrite (existingResume_None _ _ Hnone), insert_empty, map_to_list_singleton.
  reflexivity.
Qed.

(** ** Uploads *)

Lemma upload_duplicate_cached file w resume a :
  validUpload file →
  existingResume file w = Some resume →
  latestAnalysis (getId resume) w = Some a →
  uploadAndAnalyze file w =
    (Returns (duplicateOf resume a),
     afterCalls [DetectContentType file; FindExistingResume file;
                 GetLatestAnalysisAsDTO (getId resume)] w).
Proof.
  intros [Hne Hty] Hex Hla. step_request.
  rewrite Hne. cbn. rewrite Hty. cbn.
  rewrite !existingResume_setCalls, Hex.
  cbn. rewrite !latestAnalysis_setCalls, Hla. cbn.
  unfold afterCalls, duplicateOf. cbn. rewrite <- !app_assoc. reflexivity.
Qed.

Lemma uploadTimes_cached n : ∀ file w resume a,
  validUpload file →
  existingResume file w = Some resume →
  latestAnalysis (getId resume) w = Some a →
  ∃ cs, uploadTimes n file w = afterCalls cs w ∧
        countCalls isStorageWrite cs = 0 ∧ countCalls isAnalyzeCall cs = 0.
Proof.
  induction n as [|n IH]; intros file w resume a Hv Hex Hla; cbn.
  - exists []. by rewrite afterCalls_nil.
  - rewrite (upload_duplicate_cached file w resume a Hv Hex Hla). cbn.
    destruct (IH file (afterCalls [DetectContentType file; FindExistingResume file;
                                    GetLatestAnalysisAsDTO (getId resume)] w) resume a Hv)
      as (cs & -> & Hwrites & Hanalyses); [done | done |].
    eexists. rewrite afterCalls_app. split; [reflexivity|].
    rewrite !countCalls_app, Hwrites, Hanalyses. done.
Qed.

Lemma upload_fresh_then_duplicate file w r w1 :
  uploadAndAnalyze file w = (Returns r, w1) →
  duplicate r = false →
  uploadAndAnalyze file w1 =
    (Returns (asDuplicate r),
     afterCalls [DetectContentType file; FindExistingResume file;
                 GetLatestAnalysisAsDTO (resumeId r)] w1).
Proof.
  intros Hrun Hfresh.
  assert (Hvalid : validUpload file).
  { step_request_in Hrun. unfold validUpload.
    destruct (fileIsEmpty file); [discriminate|]. cbn in Hrun.
    destruct (isAllowedType (detectContentType file)); [done | discriminate]. }
  step_request_in Hrun. revert Hrun. destruct Hvalid as [Hne Hty].
  rewrite Hne. cbn. rewrite Hty. cbn.
  rewrite !existingResume_setCalls.
  destruct (existingResume file w) as [resume|] eqn:Hex; cbn.
  - (* the first upload was itself a duplicate *)
    destruct (latestAnalysis _ _); cbn.
    + intros [= <- _]. discriminate.
    + destruct (analyzeResume _ _); cbn; [intros [= <- _] | intros [=]]. discriminate.
  - destruct (parseResume file) as [[text|]|]; cbn; try discriminate.
    destruct (JavaString.isEmpty (JavaString.trim text)); cbn; [discriminate|].
    destruct (storeUnder _ file) as [key|]; cbn; [|discriminate].
    destruct (analyzeResume _ text) as [a|]; cbn; [|discriminate].
    intros [= <- <-]. cbn.
    set (entity := {| getId := nextResumeId w; getFingerprint := fingerprint file;
                      getResumeText := text; getStorageKey := Some key;
                      getStorageUrl := Some (getFileUrl key) |}).
    match goal with |- uploadAndAnalyze file ?w1 = _ =>
      rewrite (upload_duplicate_cached file w1 entity a) end.
    + reflexivity.
    + done.
    + unfold existingResume. cbn. by apply (existingResume_saved file w entity).
    + unfold latestAnalysis. cbn. by rewrite lookup_insert_eq.
Qed.

(** C1.  An upload that passes the two checks, whose fingerprint matches
    an existing record for which an analysis is cached, returns that
    record and that analysis with [duplicate = true]; its only calls are
    the type detection and the two lookups, so nothing is written to
    storage or to the database and no analysis is requested.  This stays
    so however often the upload is repeated.  And an upload that created
    a record, repeated at once, is answered as a duplicate with the same
    record and analysis, again without a storage write or an analysis
    call. *)
Theorem duplicate_intake_idempotent file w :
  validUpload file →
  (∀ resume a,
     existingResume file w = Some resume →
     latestAnalysis (getId resume) w = Some a →
     uploadAndAnalyze file w =
       (Returns (duplicateOf resume a),
        afterCalls [DetectContentType file; FindExistingResume file;
                    GetLatestAnalysisAsDTO (getId resume)] w) ∧
     ∀ n, ∃ cs,
       uploadTimes n file w = afterCalls cs w ∧
       countCalls isStorageWrite cs = 0 ∧ countCalls isAnalyzeCall cs = 0 ∧
       uploadAndAnalyze file (afterCalls cs w) =
         (Returns (duplicateOf resume a),
          afterCalls [DetectContentType file; FindExistingResume file;
                      GetLatestAnalysisAsDTO (getId resume)] (afterCalls cs w))) ∧
  (∀ r w1,
     uploadAndAnalyze file w = (Returns r, w1) → duplicate r = false →
     uploadAndAnalyze file w1 =
       (Returns (asDuplicate r),
        afterCalls [DetectContentType file; FindExistingResume file;
                    GetLatestAnalysisAsDTO (resumeId r)] w1)).
Proof.
  intros Hvalid. split.
  - intros resume a Hex Hla. split; [by apply upload_duplicate_cached|].
    intros n.
    destruct (uploadTimes_cached n file w resume a Hvalid Hex Hla)
      as (cs & Htimes & Hwrites & Hanalyses).
    exists cs. repeat split; try done.
    by apply upload_duplicate_cached.
  - apply upload_fresh_then_duplicate.
Qed.

Lemma upload_duplicate_uncached file w resume :
  validUpload file →
  existingResume file w = Some resume →
  latestAnalysis (getId resume) w = None →
  uploadAndAnalyze file w =
    (match analyzeResume (now w + 3) (getResumeText resume) with
     | Returns a => Returns (duplicateOf resume a)
     | Throws e => Throws e
     end,
     afterCalls [DetectContentType file; FindExistingResume file;
                 GetLatestAnalysisAsDTO (getId resume);
                 AnalyzeResume (getResumeText resume)] w).
Proof.
  intros [Hne Hty] Hex Hla. step_request.
  rewrite Hne. cbn. rewrite Hty. cbn.
  rewrite !existingResume_setCalls, Hex. cbn.
  rewrite !latestAnalysis_setCalls, Hla. cbn.
  unfold now, afterCalls. cbn. rewrite !length_app. cbn.
  replace (length (calls w) + 1 + 1 + 1) with (length (calls w) + 3) by lia.
  rewrite <- !app_assoc. cbn.
  by destruct (analyzeResume _ _).
Qed.

Lemma uploadTimes_uncached n : ∀ file w resume,
  validUpload file →
  existingResume file w = Some resume →
  latestAnalysis (getId resume) w = None →
  resumes (uploadTimes n file w) = resumes w ∧
  analyses (uploadTimes n file w) = analyses w ∧
  blobs (uploadTimes n file w) = blobs w ∧
  countCalls isAnalyzeCall (calls (uploadTimes n file w)) =
    countCalls isAnalyzeCall (calls w) + n.
Proof.
  induction n as [|n IH]; intros file w resume Hv Hex Hla; cbn.
  - repeat split; done.
  - rewrite (upload_duplicate_uncached file w resume Hv Hex Hla). cbn.
    destruct (IH file (afterCalls [DetectContentType file; FindExistingResume file;
                 GetLatestAnalysisAsDTO (getId resume);
                 AnalyzeResume (getResumeText resume)] w) resume Hv)
      as (Hr & Ha & Hb & Hc); [done | done |].
    repeat split; [by rewrite Hr | by rewrite Ha | by rewrite Hb |].
    rewrite Hc. cbn. rewrite countCalls_app. cbn. lia.
Qed.

(** C9.  A duplicate upload whose record has no cached analysis requests
    a fresh analysis and returns it (or fails as the analysis fails), but
    writes nothing: the analysis is not saved.  So the record still has no
    cached analysis afterwards, and [n] such uploads in a row make [n]
    analysis calls. *)
Theorem uncached_duplicate_reanalyses file w resume :
  validUpload file →
  existingResume file w = Some resume →
  latestAnalysis (getId resume) w = None →
  uploadAndAnalyze file w =
    (match analyzeResume (now w + 3) (getResumeText resume) with
     | Returns a => Returns (duplicateOf resume a)
     | Throws e => Throws e
     end,
     afterCalls [DetectContentType file; FindExistingResume file;
                 GetLatestAnalysisAsDTO (getId resume);
                 AnalyzeResume (getResumeText resume)] w) ∧
  ∀ n,
    resumes (uploadTimes n file w) = resumes w ∧
    analyses (uploadTimes n file w) = analyses w ∧
    blobs (uploadTimes n file w) = blobs w ∧
    latestAnalysis (getId resume) (uploadTimes n file w) = None ∧
    countCalls isAnalyzeCall (calls (uploadTimes n file w)) =
      countCalls isAnalyzeCall (calls w) + n.
Proof.
  intros Hvalid Hex Hla. split; [by apply upload_duplicate_uncached|].
  intros n.
  destruct (uploadTimes_uncached n file w resume Hvalid Hex Hla) as (Hr & Ha & Hb & Hc).
  repeat split; try done.
  unfold latestAnalysis in *. by rewrite Ha.
Qed.

(** C6 (amended).  The controller looks the upload up by its fingerprint
    before any text is extracted.  When no record matches and the
    extracted text is [null], empty or made of characters up to U+0020
    only, the upload fails with [RESUME_PARSE_FAILED], the controller's
    code for [ExtractionFailed]; the calls made are the type detection,
    the lookup and the extraction, so nothing is written to storage and no
    record is created. *)
Theorem upload_without_text_fails file w text :
  validUpload file →
  existingResume file w = None →
  parseResume file = Returns text →
  (text = None ∨ ∃ s, text = Some s ∧ JavaString.allTrimmed s = true) →
  uploadAndAnalyze file w =
    (Throws (BusinessException RESUME_PARSE_FAILED),
     afterCalls [DetectContentType file; FindExistingResume file; ParseResume file] w) ∧
  specError RESUME_PARSE_FAILED = Some Engine.ExtractionFailed.
Proof.
  intros [Hne Hty] Hex Hparse Hblank. split; [|done]. step_request.
  rewrite Hne. cbn. rewrite Hty. cbn.
  rewrite !existingResume_setCalls, Hex. cbn. rewrite Hparse.
  unfold afterCalls. rewrite <- !app_assoc. cbn.
  destruct Hblank as [->|(s & -> & Hs)]; [done|].
  by rewrite trim_isEmpty, Hs.
Qed.

(** ** Deletion *)

(** C8.  Deleting an existing résumé succeeds whatever the storage does.
    Its calls are, in this order: the lookup of the record, the deletion
    of the stored file (if the record has a storage key), the deletion of
    the résumé's sessions, the deletion of the record.  The blob is gone
    unless the storage threw, in which case the exception is swallowed;
    in either case the sessions of the résumé and their reports, the
    record and its analyses are gone. *)
Theorem deleteResume_cascades id w resume :
  resumes w !! id = Some resume →
  ∃ w', deleteResume id w = (Returns (), w') ∧
    calls w' = calls w ++ [FindById id] ++ storageAttempt resume ++
               [DeleteSessionsByResumeId id; PersistenceDeleteResume id] ∧
    blobs w' = match storedKey resume with
               | Some key => if deleteThrows (S (now w)) key is Some _ then blobs w
                             else delete key (blobs w)
               | None => blobs w
               end ∧
    interviews w' = Engine.deleteSessionsByResumeId id (interviews w) ∧
    (∀ sid s, Engine.sessions (interviews w) !! sid = Some s → Engine.resumeId s = id →
       Engine.sessions (interviews w') !! sid = None ∧
       Engine.reports (interviews w') !! sid = None) ∧
    (∀ sid s, Engine.sessions (interviews w') !! sid = Some s → Engine.resumeId s ≠ id) ∧
    resumes w' = delete id (resumes w) ∧
    analyses w' = delete id (analyses w) ∧
    resumes w' !! id = None ∧ analyses w' !! id = None.
Proof.
  intros Hfound.
  assert (∃ w', deleteResume id w = (Returns (), w') ∧
    calls w' = calls w ++ [FindById id] ++ storageAttempt resume ++
               [DeleteSessionsByResumeId id; PersistenceDeleteResume id] ∧
    blobs w' = match storedKey resume with
               | Some key => if deleteThrows (S (now w)) key is Some _ then blobs w
                             else delete key (blobs w)
               | None => blobs w
               end ∧
    interviews w' = Engine.deleteSessionsByResumeId id (interviews w) ∧
    resumes w' = delete id (resumes w) ∧
    analyses w' = delete id (analyses w))
    as (w' & Hrun & Hcalls & Hblobs & Hint & Hres & Han).
  { step_request. cbn. rewrite Hfound. cbn.
    unfold storageAttempt, storedKey.
    destruct (getStorageKey resume) as [key|]; cbn.
    - destruct (JavaString.isEmpty key); cbn.
      + eexists. split; [reflexivity|]. cbn. rewrite <- !app_assoc. done.
      + unfold now. rewrite length_app, Nat.add_1_r. cbn.
        destruct (deleteThrows _ key); cbn;
          (eexists; split; [reflexivity|]; cbn; rewrite <- !app_assoc; done).
    - eexists. split; [reflexivity|]. cbn. rewrite <- !app_assoc. done. }
  exists w'. rewrite Hint, Hres, Han.
  repeat split; try done.
  - by apply (deleteSessions_owned id (interviews w) sid s).
  - by apply (deleteSessions_owned id (interviews w) sid s).
  - intros sid s. apply deleteSessions_gone.
  - apply lookup_delete_eq.
  - apply lookup_delete_eq.
Qed.

(** C10.  Deleting an id without record fails with [RESUME_NOT_FOUND],
    which stands for none of the typed errors of the specification.  The
    only call is the lookup of the record: the storage, the sessions and
    the database are left as they are. *)
Theorem deleteResume_unknown_id id w :
  resumes w !! id = None →
  deleteResume id w =
    (Throws (BusinessException RESUME_NOT_FOUND), afterCalls [FindById id] w) ∧
  specError RESUME_NOT_FOUND = None.
Proof. intros Hnone. split; [|done]. step_request. cbn. by rewrite Hnone. Qed.

(** ** Every outcome of an upload *)

Lemma uploadAndAnalyze_outcome file w :
  UploadOutcome file w (uploadAndAnalyze file w).1 (uploadAndAnalyze file w).2.
Proof.
  destruct (fileIsEmpty file) eqn:Hne.
  { step_request. rewrite Hne. by constructor. }
  destruct (isAllowedType (detectContentType file)) eqn:Hty.
  2:{ step_request. rewrite Hne. cbn. rewrite Hty. by constructor. }
  assert (Hvalid : validUpload file) by done.
  destruct (existingResume file w) as [resume|] eqn:Hex.
  { destruct (latestAnalysis (getId resume) w) as [a|] eqn:Hla.
    - rewrite (upload_duplicate_cached file w resume a Hvalid Hex Hla). by constructor.
    - rewrite (upload_duplicate_uncached file w resume Hvalid Hex Hla).
      destruct (analyzeResume _ _) as [a|e] eqn:Han; cbn;
        [by apply DuplicateAnalysed | by apply DuplicateAnalysisThrew]. }
  step_request. rewrite Hne. cbn. rewrite Hty. cbn.
  rewrite !existingResume_setCalls, Hex. cbn.
  destruct (parseResume file) as [[text|]|e] eqn:Hparse; cbn.
  3:{ outcome_world (afterCalls [DetectContentType file; FindExistingResume file;
                                 ParseResume file] w).
      by apply ExtractionThrew. }
  2:{ outcome_world (afterCalls [DetectContentType file; FindExistingResume file;
                                 ParseResume file] w).
      by apply (NoText file w None). }
  destruct (JavaString.isEmpty (JavaString.trim text)) eqn:Hblank; cbn.
  { outcome_world (afterCalls [DetectContentType file; FindExistingResume file;
                               ParseResume file] w).
    by apply (NoText file w (Some text)). }
  unfold now. cbn. rewrite !length_app. cbn.
  replace (length (calls w) + 1 + 1 + 1) with (now w + 3) by (unfold now; lia).
  destruct (storeUnder (now w + 3) file) as [key|e] eqn:Hstore; cbn.
  2:{ outcome_world (afterCalls [DetectContentType file; FindExistingResume file;
                                 ParseResume file; UploadResume file] w).
      by apply (StorageThrew file w text). }
  rewrite !length_app. cbn.
  replace (length (calls w) + 1 + 1 + 1 + 1 + 1 + 1) with (now w + 6) by (unfold now; lia).
  destruct (analyzeResume (now w + 6) text) as [a|e] eqn:Han; cbn.
  - outcome_world (afterCalls (freshPath file text key (nextResumeId w))
                     (withAnalysis (nextResumeId w) a (withRecord file text key w))).
    by apply (Created file w text key a).
  - outcome_world (afterCalls (take 7 (freshPath file text key (nextResumeId w)))
                     (withRecord file text key w)).
    by apply (AnalysisThrew file w text key e).
Qed.


(** ** The file type check *)





(** ** Uploads, from their outcome *)

Ltac upload_outcome Hrun :=
  match type of Hrun with
  | uploadAndAnalyze ?file ?w = _ =>
      let Hout := fresh "Hout" in
      pose proof (uploadAndAnalyze_outcome file w) as Hout;
      rewrite Hrun in Hout; cbn [fst snd] in Hout;
      inversion Hout; subst; clear Hout
  end.

(** X3.  An upload that fails one of the two checks is rejected before
    anything is looked up: an empty file with [BAD_REQUEST] and without a
    single call to a collaborator, a file of a type that is not allowed
    with [RESUME_UPLOAD_FAILED] after the type detection only.  The
    database and the storage are as before, and neither code stands for a
    typed error of the specification. *)
Theorem invalid_upload_rejected file w :
  ¬ validUpload file →
  uploadAndAnalyze file w =
    (Throws (BusinessException
       (if fileIsEmpty file then BAD_REQUEST else RESUME_UPLOAD_FAILED)),
     afterCalls (if fileIsEmpty file then [] else [DetectContentType file]) w) ∧
  specError (if fileIsEmpty file then BAD_REQUEST else RESUME_UPLOAD_FAILED) = None.
Proof.
  intros Hinvalid. unfold validUpload in Hinvalid. step_request.
  destruct (fileIsEmpty file); [by rewrite afterCalls_nil|]. cbn.
  destruct (isAllowedType (detectContentType file)); [|done].
  by destruct Hinvalid.
Qed.

Lemma existingResume_withRecord file text key w :
  existingResume file w = None →
  existingResume file (withRecord file text key w) = Some (savedEntity file text key w).
Proof.
  intros Hnone. unfold existingResume, withRecord. cbn.
  by apply (existingResume_saved file w (savedEntity file text key w)).
Qed.

(** X4.  What an upload answered with [duplicate = false] returns is what
    it has stored.  No record matched the file and its extracted text is
    not blank; the returned id is the next free id and names a record
    with the fingerprint of the file, its text, the returned key and URL;
    the URL is the one the storage gives for the key; the blob under the
    key is the file; the latest analysis of the record is the returned
    analysis; and a lookup of the file finds the record from now on. *)
Theorem fresh_upload_round_trip file w r w' :
  uploadAndAnalyze file w = (Returns r, w') → duplicate r = false →
  ∃ text record,
    existingResume file w = None ∧
    parseResume file = Returns (Some text) ∧ noText (Some text) = false ∧
    resumeId r = nextResumeId w ∧ nextResumeId w' = (resumeId r + 1)%Z ∧
    fileUrl r = getFileUrl (fileKey r) ∧
    resumes w' !! resumeId r = Some record ∧
    getId record = resumeId r ∧
    getFingerprint record = fingerprint file ∧
    getResumeText record = text ∧
    getStorageKey record = Some (fileKey r) ∧
    getStorageUrl record = Some (fileUrl r) ∧
    blobs w' !! fileKey r = Some file ∧
    latestAnalysis (resumeId r) w' = Some (analysis r) ∧
    existingResume file w' = Some record.
Proof.
  intros Hrun Hfresh. upload_outcome Hrun; try discriminate.
  exists text, (savedEntity file text key w). cbn.
  repeat split; try done.
  - apply lookup_insert_eq.
  - apply lookup_insert_eq.
  - unfold latestAnalysis. cbn. by rewrite lookup_insert_eq.
  - by apply (existingResume_withRecord file text key w).
Qed.

(** X5.  An upload answered with [duplicate = true] has only read.  The
    response describes the record that matched the file; the world
    differs from the one before in the calls only, none of them a storage
    write.  The returned analysis is the cached one and no analysis was
    requested, or none was cached and exactly one analysis was
    requested. *)
Theorem duplicate_upload_reads_only file w r w' :
  uploadAndAnalyze file w = (Returns r, w') → duplicate r = true →
  ∃ resume cs,
    existingResume file w = Some resume ∧
    r = duplicateOf resume (analysis r) ∧
    w' = afterCalls cs w ∧
    countCalls isStorageWrite cs = 0 ∧
    (latestAnalysis (getId resume) w = Some (analysis r) ∧ countCalls isAnalyzeCall cs = 0
     ∨ latestAnalysis (getId resume) w = None ∧
       analyzeResume (now w + 3) (getResumeText resume) = Returns (analysis r) ∧
       countCalls isAnalyzeCall cs = 1).
Proof.
  intros Hrun Hdup. upload_outcome Hrun; try discriminate.
  - exists resume, (take 3 (duplicatePath file resume)). repeat split; try done. by left.
  - exists resume, (duplicatePath file resume). repeat split; try done. by right.
Qed.


(** X8.  The calls of an upload are an initial segment of one of two
    sequences: type detection, lookup by fingerprint, lookup of the latest
    analysis, analysis; or type detection, lookup by fingerprint, text
    extraction, storage write, URL of the key, saving the record,
    analysis, saving the analysis.  No upload touches the interview
    sessions. *)
Theorem upload_call_order file w :
  ∃ cs,
    calls (uploadAndAnalyze file w).2 = calls w ++ cs ∧
    interviews (uploadAndAnalyze file w).2 = interviews w ∧
    ((∃ resume, cs `prefix_of` duplicatePath file resume) ∨
     (∃ text key, cs `prefix_of` freshPath file text key (nextResumeId w))).
Proof.
  destruct (uploadAndAnalyze_outcome file w).
  - exists []. rewrite app_nil_r. repeat split. right. exists "", "". apply prefix_nil.
  - eexists. repeat split. right. exists "", "". by eexists.
  - eexists. repeat split. left. exists resume. by eexists.
  - eexists. repeat split. left. by exists resume.
  - eexists. repeat split. left. by exists resume.
  - eexists. repeat split. right. exists "", "". by eexists.
  - eexists. repeat split. right. exists "", "". by eexists.
  - eexists. repeat split. right. exists "", "". by eexists.
  - eexists. repeat split. right. exists text, key. by eexists.
  - eexists. repeat split. right. by exists text, key.
Qed.


(** ** The database stays well formed *)

Lemma wellFormed_afterCalls cs w : wellFormed w → wellFormed (afterCalls cs w).
Proof. done. Qed.

Lemma wellFormed_fresh w : wellFormed w →
  resumes w !! nextResumeId w = None ∧ analyses w !! nextResumeId w = None.
Proof.
  intros (Hids & Horphans & _).
  assert (Hnone : resumes w !! nextResumeId w = None).
  { destruct (resumes w !! nextResumeId w) as [r|] eqn:Hr; [|done].
    destruct (Hids _ _ Hr). lia. }
  split; [done|].
  destruct (analyses w !! nextResumeId w) as [l|] eqn:Hl; [|done].
  destruct (Horphans (nextResumeId w)) as [r Hr]; [by eexists | congruence].
Qed.

Lemma existingResume_unknown file w id r :
  existingResume file w = None → resumes w !! id = Some r →
  getFingerprint r ≠ fingerprint file.
Proof.
  intros Hnone%existingResume_None Hr Hfp.
  assert (Hin : filter (λ kv : Z * ResumeEntity, getFingerprint kv.2 = fingerprint file)
                  (resumes w) !! id = Some r) by by apply map_lookup_filter_Some.
  by rewrite Hnone, lookup_empty in Hin.
Qed.

Lemma wellFormed_withRecord file text key w :
  wellFormed w → existingResume file w = None → wellFormed (withRecord file text key w).
Proof.
  intros Hwf Hnone. destruct (wellFormed_fresh w Hwf) as [Hfresh _].
  destruct Hwf as (Hids & Horphans & Hunique). split; [|split]; cbn.
  - intros id r. rewrite lookup_insert. destruct (decide (nextResumeId w = id)) as [<-|Hne].
    + intros [= <-]. cbn. lia.
    + intros Hr. destruct (Hids id r Hr). split; [done | lia].
  - intros id Han. rewrite lookup_insert. destruct (decide (nextResumeId w = id)); [by eexists|].
    by apply Horphans.
  - intros i j r r'. rewrite !lookup_insert.
    destruct (decide (nextResumeId w = i)) as [<-|Hi],
             (decide (nextResumeId w = j)) as [<-|Hj]; try done.
    + intros [= <-] Hr' Hfp. cbn in Hfp.
      by destruct (existingResume_unknown file w j r' Hnone Hr').
    + intros Hr [= <-] Hfp. cbn in Hfp.
      by destruct (existingResume_unknown file w i r Hnone Hr).
    + apply Hunique.
Qed.

Lemma wellFormed_withAnalysis id a w :
  wellFormed w → is_Some (resumes w !! id) → wellFormed (withAnalysis id a w).
Proof.
  intros (Hids & Horphans & Hunique) Hid. split; [|split]; cbn; [done | | done].
  intros id'. rewrite lookup_insert. destruct (decide (id = id')) as [<-|Hne]; [done|].
  apply Horphans.
Qed.

Lemma uploadAndAnalyze_wellFormed file w :
  wellFormed w → wellFormed (uploadAndAnalyze file w).2.
Proof.
  intros Hwf. destruct (uploadAndAnalyze_outcome file w);
    try (by apply wellFormed_afterCalls); [done | |].
  - apply wellFormed_afterCalls. by apply wellFormed_withRecord.
  - apply wellFormed_afterCalls, wellFormed_withAnalysis.
    + by apply wellFormed_withRecord.
    + cbn. rewrite lookup_insert_eq. by eexists.
Qed.

(** What a deletion does to the database. *)
Lemma deleteResume_database id w :
  nextResumeId (deleteResume id w).2 = nextResumeId w ∧
  match resumes w !! id with
  | Some _ =>
      resumes (deleteResume id w).2 = delete id (resumes w) ∧
      analyses (deleteResume id w).2 = delete id (analyses w) ∧
      interviews (deleteResume id w).2 = Engine.deleteSessionsByResumeId id (interviews w)
  | None =>
      deleteResume id w =
        (Throws (BusinessException RESUME_NOT_FOUND), afterCalls [FindById id] w)
  end.
Proof.
  step_request. cbn. destruct (resumes w !! id) as [resume|]; cbn; [|done].
  destruct (getStorageKey resume) as [key|]; cbn; [|done].
  destruct (JavaString.isEmpty key); cbn; [done|].
  by destruct (deleteThrows _ key).
Qed.

Lemma deleteResume_wellFormed id w : wellFormed w → wellFormed (deleteResume id w).2.
Proof.
  intros Hwf. destruct (deleteResume_database id w) as [Hnext Hdb].
  destruct (resumes w !! id) as [resume|] eqn:Hfound.
  2:{ rewrite Hdb. by apply wellFormed_afterCalls. }
  destruct Hdb as (Hres & Han & _). destruct Hwf as (Hids & Horphans & Hunique).
  split; [|split]; rewrite ?Hres, ?Han, ?Hnext.
  - intros i r [_ Hr]%lookup_delete_Some. by apply Hids.
  - intros i [l [Hne Hl]%lookup_delete_Some].
    destruct (Horphans i) as [r Hr]; [by eexists|].
    exists r. by apply lookup_delete_Some.
  - intros i j r r' [_ Hr]%lookup_delete_Some [_ Hr']%lookup_delete_Some. by apply Hunique.
Qed.

Lemma wellFormed_empty : wellFormed emptyWorld.
Proof.
  split; [|split]; cbn.
  - intros id r. by rewrite lookup_empty.
  - intros id [l Hl]. by rewrite lookup_empty in Hl.
  - intros i j r r'. by rewrite lookup_empty.
Qed.

Lemma serve_wellFormed w r : wellFormed w → wellFormed (serve w r).
Proof.
  destruct r as [file|id]; [apply uploadAndAnalyze_wellFormed | apply deleteResume_wellFormed].
Qed.

(** X9.  Uploads and deletions keep the database well formed: every
    record is stored under its own id, below the next id to be given;
    every analysis belongs to a record; and no two records have the same
    fingerprint. *)
Theorem requests_keep_wellFormed rs w :
  wellFormed w → wellFormed (serveAll rs w).
Proof.
  revert w. induction rs as [|r rs IH]; intros w Hwf; [done|].
  cbn. by apply IH, serve_wellFormed.
Qed.


(** ** Deletion, continued *)

(** X10.  Once the record with the fingerprint of a file is deleted, no
    record matches the file any more: an upload of the file that succeeds
    creates a new record, under an id that was never used before. *)
Theorem delete_then_upload_is_fresh id file w resume :
  wellFormed w →
  resumes w !! id = Some resume → getFingerprint resume = fingerprint file →
  existingResume file (deleteResume id w).2 = None ∧
  ∀ r w', uploadAndAnalyze file (deleteResume id w).2 = (Returns r, w') →
    duplicate r = false ∧ resumeId r = nextResumeId w ∧ resumeId r ≠ id.
Proof.
  intros Hwf Hfound Hfp.
  assert (Hnone : existingResume file (deleteResume id w).2 = None).
  { destruct (deleteResume_database id w) as [_ Hdb]. rewrite Hfound in Hdb.
    destruct Hdb as (Hres & _). unfold existingResume. rewrite Hres.
    destruct Hwf as (_ & _ & Hunique).
    match goal with |- snd <$> head (map_to_list ?m) = None =>
      assert (Hempty : m = ∅); [|by rewrite Hempty, map_to_list_empty] end.
    apply map_empty. intros i. apply map_lookup_filter_None. right.
    intros r [Hne Hr]%lookup_delete_Some Hfpr. cbn in Hfpr.
    apply Hne. apply (Hunique id i resume r); congruence. }
  split; [done|]. intros r w' Hrun.
  destruct (deleteResume_database id w) as [Hnext _].
  upload_outcome Hrun; try congruence.
  cbn. rewrite Hnext. repeat split.
  destruct Hwf as (Hids & _). destruct (Hids id resume Hfound). lia.
Qed.

(** X11.  Deleting an existing résumé a second time fails with
    [RESUME_NOT_FOUND], after the lookup of the record only. *)
Theorem deleteResume_twice id w resume :
  resumes w !! id = Some resume →
  deleteResume id (deleteResume id w).2 =
    (Throws (BusinessException RESUME_NOT_FOUND),
     afterCalls [FindById id] (deleteResume id w).2).
Proof.
  intros Hfound.
  destruct (deleteResume_database id w) as [_ Hdb]. rewrite Hfound in Hdb.
  destruct Hdb as (Hres & _).
  destruct (deleteResume_database id (deleteResume id w).2) as [_ Hagain].
  by rewrite Hres, lookup_delete_eq in Hagain.
Qed.

Lemma deleteResume_blobs id w key :
  blobs (deleteResume id w).2 !! key ≠ blobs w !! key →
  ∃ resume, resumes w !! id = Some resume ∧ storedKey resume = Some key.
Proof.
  step_request. cbn. destruct (resumes w !! id) as [resume|]; cbn; [|done].
  destruct (getStorageKey resume) as [key'|] eqn:Hkey; cbn; [|done].
  destruct (JavaString.isEmpty key') eqn:Hempty; cbn; [done|].
  destruct (deleteThrows _ key'); cbn; [done|].
  intros Hblob. exists resume. split; [done|].
  unfold storedKey. rewrite Hkey, Hempty.
  destruct (decide (key' = key)) as [->|Hne]; [done|].
  by rewrite lookup_delete_ne in Hblob.
Qed.

(** X12.  A deletion, whether it succeeds or not, leaves the other
    résumés alone: their records and analyses, the sessions of other
    résumés and the reports of those sessions are as before, and so is the
    next id.  The only blob that can change is the one under the storage
    key of the deleted record. *)
Theorem deleteResume_keeps_others id w :
  nextResumeId (deleteResume id w).2 = nextResumeId w ∧
  (∀ id', id' ≠ id →
     resumes (deleteResume id w).2 !! id' = resumes w !! id' ∧
     analyses (deleteResume id w).2 !! id' = analyses w !! id') ∧
  (∀ sid s, Engine.sessions (interviews w) !! sid = Some s → Engine.resumeId s ≠ id →
     Engine.sessions (interviews (deleteResume id w).2) !! sid = Some s ∧
     Engine.reports (interviews (deleteResume id w).2) !! sid =
       Engine.reports (interviews w) !! sid) ∧
  (∀ key, blobs (deleteResume id w).2 !! key ≠ blobs w !! key →
     ∃ resume, resumes w !! id = Some resume ∧ storedKey resume = Some key).
Proof.
  destruct (deleteResume_database id w) as [Hnext Hdb].
  split; [done|]. split; [|split]; [| |apply deleteResume_blobs].
  - intros id' Hne. destruct (resumes w !! id) as [resume|].
    + destruct Hdb as (-> & -> & _). by rewrite !lookup_delete_ne.
    + by rewrite Hdb.
  - intros sid s Hs Hown. destruct (resumes w !! id) as [resume|].
    + destruct Hdb as (_ & _ & ->). by apply deleteSessions_others.
    + by rewrite Hdb.
Qed.

End ResumeFacts.

(* ===================================================================== *)
(** * Properties of the interview page, whatever the server does *)
(* ===================================================================== *)

Ltac fits :=
  unfold InterviewPage.settled; cbn; split_and!;
  first [done | by eexists | naive_solver].

Section PageOnAnyServer.
Import InterviewPage.
Context {Server : Type} `{InterviewApi Server}.
Variable props : InterviewProps.

Lemma settled_initial : settled initialState.
Proof. unfold settled. cbn. by split_and!. Qed.

Lemma restoreSession_fields s p :
  session (restoreSession s p) = Some s ∧ stage (restoreSession s p) = interview ∧
  isSubmitting (restoreSession s p) = isSubmitting p ∧
  isCreating (restoreSession s p) = isCreating p ∧
  checkingUnfinished (restoreSession s p) = checkingUnfinished p ∧
  report (restoreSession s p) = report p ∧
  error (restoreSession s p) = error p ∧
  unfinishedSession (restoreSession s p) = unfinishedSession p ∧
  showCompleteConfirm (restoreSession s p) = showCompleteConfirm p ∧
  questionCount (restoreSession s p) = questionCount p ∧
  currentQuestion (restoreSession s p) =
    match Engine.questions s !! Engine.currentQuestionIndex s with
    | Some q => Some q
    | None => currentQuestion p
    end.
Proof.
  unfold restoreSession.
  destruct (Engine.questions s !! Engine.currentQuestionIndex s) as [q|]; [|done].
  destruct (Engine.userAnswer q) as [a|]; [|done]. by destruct (truthy a).
Qed.

Lemma restoreSession_settled s p p' :
  (stage p = report_stage → is_Some (report p)) →
  isSubmitting p' = false → isCreating p' = false → checkingUnfinished p' = false →
  stage p' = stage (restoreSession s p) →
  session p' = session (restoreSession s p) →
  currentQuestion p' = currentQuestion (restoreSession s p) →
  report p' = report (restoreSession s p) →
  settled p'.
Proof.
  intros Hrep Hsub Hcre Hchk Hstage Hsession Hcurrent Hreport.
  destruct (restoreSession_fields s p)
    as (Hs & Hst & _ & _ & _ & Hrep' & _ & _ & _ & _ & Hq).
  unfold settled. rewrite Hsub, Hcre, Hchk, Hstage, Hsession, Hcurrent, Hreport.
  rewrite Hs, Hst, Hq.
  split_and!; try done.
  intros Hnone s' [= <-]. by destruct (Engine.questions s !! Engine.currentQuestionIndex s).
Qed.

Lemma hasProgress_false s :
  hasProgress s = false → Engine.currentQuestionIndex s = 0.
Proof.
  unfold hasProgress. intros [[Hc _]%orb_false_iff _]%orb_false_iff.
  apply Nat.ltb_ge in Hc. lia.
Qed.

Lemma startInterview_settled p st : settled p → settled (startInterview props p st).1.
Proof.
  intros (Hsub & Hcre & Hchk & Hload & Hcfg & Hrep & Hq). unfold startInterview.
  destruct (api_createSession _ st) as [[s|] st']; cbn [fst].
  - destruct (hasProgress s) eqn:Hprog.
    + apply (restoreSession_settled s (setError "" (setIsCreating true p))); try done.
      all: cbn -[restoreSession]; destruct (restoreSession_fields s (setError "" (setIsCreating true p)))
             as (_ & _ & Hsub' & Hcre' & Hchk' & _); by rewrite ?Hsub', ?Hcre', ?Hchk'.
    + apply hasProgress_false in Hprog.
      destruct (Engine.questions s) as [|q qs] eqn:Hqs; unfold settled; cbn.
      * split_and!; try done. intros _ s' [= <-]. by rewrite Hqs.
      * split_and!; try done.
  - unfold settled. cbn. by split_and!.
Qed.

Lemma generateReport_fields p st :
  isSubmitting (generateReport p st).1 = isSubmitting p ∧
  isCreating (generateReport p st).1 = isCreating p ∧
  checkingUnfinished (generateReport p st).1 = checkingUnfinished p ∧
  session (generateReport p st).1 = session p ∧
  currentQuestion (generateReport p st).1 = currentQuestion p ∧
  (is_Some (session p) →
   stage (generateReport p st).1 = report_stage ∧ is_Some (report (generateReport p st).1)
   ∨ stage (generateReport p st).1 = interview ∧
     report (generateReport p st).1 = report p ∧
     error (generateReport p st).1 = reportFailed).
Proof.
  unfold generateReport. destruct (session p) as [s|] eqn:Hs.
  - destruct (api_getReport _ st) as [[r|] st']; cbn; split_and!; try done.
    + intros _. left. split; [done | by eexists].
    + intros _. by right.
  - cbn. by split_and!.
Qed.

Ltac stage_fits :=
  first
    [ done
    | congruence
    | split; intros; congruence
    | match goal with
      | Hq : currentQuestion _ = None → _ |- _ => intros; apply Hq; congruence
      end
    | naive_solver ].

Ltac after_report :=
  match goal with
  | |- context [generateReport ?p0 ?st0] =>
      let Hfit := fresh "Hfit" in
      destruct (generateReport_fields p0 st0) as (? & ? & ? & ? & ? & Hfit);
      destruct (generateReport p0 st0) as [? ?];
      destruct Hfit as [[? ?]|(? & ? & ?)]; [by eexists | |];
      unfold settled; cbn in *; split_and!; stage_fits
  end.

Lemma handleSubmitAnswer_settled p st : settled p → settled (handleSubmitAnswer p st).1.
Proof.
  intros Hp. unfold handleSubmitAnswer.
  destruct (session p) as [s|] eqn:Hs; [|done].
  destruct (currentQuestion p) as [q|] eqn:Hcq; [|done].
  destruct (negb _); [done|].
  destruct Hp as (Hsub & Hcre & Hchk & Hload & Hcfg & Hrep & Hq).
  destruct (api_submitAnswer _ _ _ _) as [[r|] st']; cbn [fst snd].
  - destruct (Engine.hasNextQuestion r), (Engine.nextQuestion r) as [next|].
    1: fits.
    all: after_report.
  - fits.
Qed.

Lemma handleCompleteEarly_settled p st : settled p → settled (handleCompleteEarly p st).1.
Proof.
  intros Hp. unfold handleCompleteEarly.
  destruct (session p) as [s|] eqn:Hs; [|done].
  destruct Hp as (Hsub & Hcre & Hchk & Hload & Hcfg & Hrep & Hq).
  destruct (api_completeInterview _ _) as [[[]|] st']; cbn [fst snd].
  - after_report.
  - fits.
Qed.

Lemma mount_settled p st : settled p → settled (mount props p st).1.
Proof.
  intros Hp. unfold mount, checkUnfinishedSession.
  destruct (truthyId (resumeId props)); [|done].
  destruct (resumeId props) as [rid|]; [|done].
  destruct (negb _); [done|].
  destruct (api_findUnfinishedSession rid st) as [[[s|]|] st']; cbn [fst];
    destruct Hp as (? & ? & ? & ? & ? & ? & ?); unfold settled; cbn; by split_and!.
Qed.

Lemma dispatch_settled ps ev : settled ps.1 → settled (dispatch props ps ev).1.
Proof.
  intros Hp. destruct ev; cbn [dispatch fst].
  - by apply mount_settled.
  - exact Hp.
  - by apply startInterview_settled.
  - unfold handleContinueUnfinished.
    destruct (unfinishedSession ps.1) as [s|]; [|done].
    destruct Hp as (? & ? & ? & ? & ? & ? & ?).
    apply (restoreSession_settled s ps.1); try done.
    all: cbn -[restoreSession]; destruct (restoreSession_fields s ps.1)
           as (_ & _ & Hsub' & Hcre' & Hchk' & _); by rewrite ?Hsub', ?Hcre', ?Hchk'.
  - exact Hp.
  - exact Hp.
  - by apply handleSubmitAnswer_settled.
  - by apply handleCompleteEarly_settled.
  - exact Hp.
Qed.

Lemma run_settled events : ∀ ps, settled ps.1 → settled (foldl (dispatch props) ps events).1.
Proof.
  induction events as [|ev events IH]; intros ps Hp; [done|].
  cbn. apply IH. by apply dispatch_settled.
Qed.


(** ** White space *)



(** X13.  Whatever the user does and whatever the server answers, the
    page comes to rest after every event: no busy flag stays set, the
    page does not stay on the loading screen, it has a session exactly
    when it has left the configuration stage, and in the report stage it
    renders the report.  It renders nothing only in the interview stage,
    when its session has no question at the cursor. *)
Theorem page_settles events st :
  settled (runPage props events st).1 ∧
  render (runPage props events st).1 ≠ LoadingReport ∧
  (stage (runPage props events st).1 = report_stage →
   ∃ r s, render (runPage props events st).1 = ReportPanel r s) ∧
  (render (runPage props events st).1 = Nothing →
   ∃ s, stage (runPage props events st).1 = interview ∧
        session (runPage props events st).1 = Some s ∧
        Engine.questions s !! Engine.currentQuestionIndex s = None).
Proof.
  assert (Hp : settled (runPage props events st).1) by by apply run_settled, settled_initial.
  split; [done|]. destruct Hp as (_ & _ & _ & Hload & Hcfg & Hrep & Hq).
  unfold render. destruct (stage (runPage props events st).1) eqn:Hstage.
  - split; [done|]. split; done.
  - destruct (session _) as [s|] eqn:Hs.
    2:{ destruct Hcfg as [_ Hc]. by specialize (Hc eq_refl). }
    destruct (currentQuestion _) as [q|] eqn:Hcq; [done|].
    split; [done|]. split; [done|]. intros _. exists s. split_and!; try done. by apply Hq.
  - done.
  - destruct (Hrep eq_refl) as [r Hr]. rewrite Hr.
    destruct (session _) as [s|] eqn:Hs.
    2:{ destruct Hcfg as [_ Hc]. by specialize (Hc eq_refl). }
    split; [done|]. split; [by eexists _, _ | done].
Qed.




(** X16.  Starting an interview restores whatever session the server
    returns: the test for a session with progress makes no difference to
    the resulting page.  A rejected request leaves the page with the
    failure message. *)
Theorem startInterview_restores p st :
  startInterview props p st =
    match api_createSession {| req_resumeText := resumeText props;
                               req_questionCount := questionCount p;
                               req_resumeId := resumeId props |} st with
    | (Resolved s, st') =>
        (setIsCreating false (restoreSession s (setError "" (setIsCreating true p))), st')
    | (Rejected, st') =>
        (setIsCreating false (setError createFailed (setIsCreating true p)), st')
    end.
Proof.
  unfold startInterview. cbn [questionCount setError setIsCreating].
  destruct (api_createSession _ st) as [[s|] st']; [|done].
  destruct (hasProgress s) eqn:Hprog; [done|].
  f_equal. f_equal. unfold hasProgress in Hprog.
  apply orb_false_iff in Hprog as [[Hcursor Hanswers]%orb_false_iff _].
  apply Nat.ltb_ge in Hcursor. assert (Hzero : Engine.currentQuestionIndex s = 0) by lia.
  unfold restoreSession, restoredMessages. rewrite Hzero.
  destruct (Engine.questions s) as [|q qs]; [done|]. cbn in Hanswers.
  apply orb_false_iff in Hanswers as [Hq _]. cbn.
  destruct (Engine.userAnswer q) as [a|]; [|done].
  cbn in Hq. by rewrite Hq.
Qed.


(** ** The conversation *)



(** ** Completing early, for any server *)

(** X25.  Completing early keeps the session, the current question and
    the conversation, and ends with the submitting flag reset.  Without a
    session nothing happens.  If the server rejects, the failure message
    is shown, the confirm dialog stays as it is, and the stage and the
    report are unchanged; no report is requested.  If it accepts, the
    dialog is closed and the report is requested: the page ends in the
    report stage with the report of the server, or back in the interview
    stage with the message that the report failed. *)
Theorem handleCompleteEarly_outcomes p st :
  match session p with
  | None => handleCompleteEarly p st = (p, st)
  | Some s =>
      isSubmitting (handleCompleteEarly p st).1 = false ∧
      session (handleCompleteEarly p st).1 = Some s ∧
      currentQuestion (handleCompleteEarly p st).1 = currentQuestion p ∧
      messages (handleCompleteEarly p st).1 = messages p ∧
      match api_completeInterview (Engine.sessionId s) st with
      | (Rejected, st1) =>
          (handleCompleteEarly p st).2 = st1 ∧
          error (handleCompleteEarly p st).1 = completeFailed ∧
          showCompleteConfirm (handleCompleteEarly p st).1 = showCompleteConfirm p ∧
          stage (handleCompleteEarly p st).1 = stage p ∧
          report (handleCompleteEarly p st).1 = report p
      | (Resolved _, st1) =>
          showCompleteConfirm (handleCompleteEarly p st).1 = false ∧
          match api_getReport (Engine.sessionId s) st1 with
          | (Resolved r, st2) =>
              (handleCompleteEarly p st).2 = st2 ∧
              stage (handleCompleteEarly p st).1 = report_stage ∧
              report (handleCompleteEarly p st).1 = Some r ∧
              error (handleCompleteEarly p st).1 = error p
          | (Rejected, st2) =>
              (handleCompleteEarly p st).2 = st2 ∧
              stage (handleCompleteEarly p st).1 = interview ∧
              report (handleCompleteEarly p st).1 = report p ∧
              error (handleCompleteEarly p st).1 = reportFailed
          end
      end
  end.
Proof.
  unfold handleCompleteEarly. destruct (session p) as [s|] eqn:Hs; [|done].
  destruct (api_completeInterview _ st) as [[[]|] st1]; cbn [fst snd]; [|done].
  unfold generateReport. cbn [session setStage setShowCompleteConfirm setIsSubmitting].
  rewrite Hs. by destruct (api_getReport _ st1) as [[r|] st2].
Qed.

(** ** Looking for an unfinished interview, for any server *)

(** X18.  Looking for an unfinished interview on mount changes two things
    at most: the flag that the check is under way, which is reset in the
    end, and the unfinished session on offer, which is only ever replaced
    by a session the server has found.  A missing résumé id, and the id 0,
    make no call at all; a rejected call shows no error. *)
Theorem mount_only_offers p st :
  (truthyId (resumeId props) = false → mount props p st = (p, st)) ∧
  (mount props p st).1 =
    setCheckingUnfinished (checkingUnfinished (mount props p st).1)
      (setUnfinishedSession (unfinishedSession (mount props p st).1) p) ∧
  (unfinishedSession (mount props p st).1 = unfinishedSession p
   ∨ ∃ rid found st',
       resumeId props = Some rid ∧ rid ≠ 0%Z ∧
       api_findUnfinishedSession rid st = (Resolved (Some found), st') ∧
       unfinishedSession (mount props p st).1 = Some found) ∧
  (truthyId (resumeId props) = true → checkingUnfinished (mount props p st).1 = false).
Proof.
  unfold mount, checkUnfinishedSession.
  destruct (resumeId props) as [rid|] eqn:Hrid; cbn [truthyId].
  2:{ split_and!; try done. - by destruct p. - by left. }
  destruct (Z.eqb_spec rid 0) as [->|Hnz]; cbn [negb].
  { split_and!; try done. - by destruct p. - by left. }
  destruct (api_findUnfinishedSession rid st) as [[[found|]|] st'] eqn:Hfind; cbn [fst].
  - split_and!; try done. right. by exists rid, found, st'.
  - split_and!; try done. by left.
  - split_and!; try done. by left.
Qed.

End PageOnAnyServer.

(* ===================================================================== *)
(** * Properties of the upload page *)
(* ===================================================================== *)

Section UploadFacts.
Import UploadPage.
Context {File Server E : Type} `{Imports File Server E}.





(** ** The size shown *)

Lemma tenths_spec num den :
  (0 < den)%N →
  (2 * den * tenths num den ≤ 20 * num + den < 2 * den * (tenths num den + 1))%N.
Proof.
  intros Hden. unfold tenths.
  pose proof (N.Div0.mul_div_le (20 * num + den) (2 * den)) as Hle.
  pose proof (N.mul_succ_div_gt (20 * num + den) (2 * den)) as Hgt.
  lia.
Qed.

(** X20.  A size from 1024 bytes up to one byte less than 1024 * 1024 is
    shown in KB with one decimal: the number of tenths nearest to the size,
    at least 1.0 and at most 1024.0 — which is what the sizes from
    1048525 bytes on are shown as. *)
Theorem formatFileSize_kilobytes bytes :
  (1024 ≤ bytes < 1024 * 1024)%N →
  ∃ n,
    formatFileSize bytes = decimal1 n +:+ " KB" ∧
    (10 ≤ n ≤ 10240)%N ∧
    (10 * bytes - 512 ≤ 1024 * n ≤ 10 * bytes + 512)%N ∧
    (n = 10240%N ↔ 1048525 ≤ bytes)%N.
Proof.
  intros [Hlo Hhi]. exists (tenths bytes 1024).
  unfold formatFileSize.
  destruct (N.ltb_spec bytes 1024); [lia|].
  destruct (N.ltb_spec bytes (1024 * 1024)); [|lia].
  split; [done|].
  pose proof (tenths_spec bytes 1024) as Hspec. lia.
Qed.

End UploadFacts.

(* ===================================================================== *)
(** * Properties of the résumé library *)
(* ===================================================================== *)

Section HistoryFacts.
Import HistoryList.






Context {Server : Type} `{HistoryApi Server}.

Lemma loadResumes_fields x :
  loading (list_state (loadResumes x)) = false ∧
  deletingId (list_state (loadResumes x)) = deletingId (list_state x) ∧
  deleteConfirm (list_state (loadResumes x)) = deleteConfirm (list_state x) ∧
  searchTerm (list_state (loadResumes x)) = searchTerm (list_state x) ∧
  alerts (loadResumes x) = alerts x ∧
  server (loadResumes x) = (api_getResumes (server x)).2 ∧
  resumes (list_state (loadResumes x)) =
    match (api_getResumes (server x)).1 with
    | UploadPage.Fulfilled items => items
    | UploadPage.RejectedWith _ => resumes (list_state x)
    end.
Proof.
  unfold loadResumes. by destruct (api_getResumes (server x)) as [[items|err] st].
Qed.

(** X22.  Confirming a deletion never leaves the delete spinner on and
    keeps the search term.  If the server rejects the deletion, nothing is
    reloaded, the dialog stays open and one alert gives the message of the
    error, or the default message.  If the server accepts it, the dialog
    is closed and the list is reloaded; when the reload fails the old
    list stays on screen, without any alert. *)
Theorem handleDeleteConfirm_outcomes x id name :
  deleteConfirm (list_state x) = Some (id, name) →
  deletingId (list_state (handleDeleteConfirm x)) = None ∧
  searchTerm (list_state (handleDeleteConfirm x)) = searchTerm (list_state x) ∧
  match api_deleteResume id (server x) with
  | (UploadPage.RejectedWith err, st) =>
      server (handleDeleteConfirm x) = st ∧
      deleteConfirm (list_state (handleDeleteConfirm x)) = Some (id, name) ∧
      resumes (list_state (handleDeleteConfirm x)) = resumes (list_state x) ∧
      loading (list_state (handleDeleteConfirm x)) = loading (list_state x) ∧
      alerts (handleDeleteConfirm x) =
        alerts x ++ [match err with ErrorOf message => message | OtherValue => deleteFailed end]
  | (UploadPage.Fulfilled _, st) =>
      server (handleDeleteConfirm x) = (api_getResumes st).2 ∧
      deleteConfirm (list_state (handleDeleteConfirm x)) = None ∧
      loading (list_state (handleDeleteConfirm x)) = false ∧
      alerts (handleDeleteConfirm x) = alerts x ∧
      resumes (list_state (handleDeleteConfirm x)) =
        match (api_getResumes st).1 with
        | UploadPage.Fulfilled items => items
        | UploadPage.RejectedWith _ => resumes (list_state x)
        end
  end.
Proof.
  intros Hconfirm. unfold handleDeleteConfirm. rewrite Hconfirm.
  destruct (api_deleteResume id (server x)) as [[[]|err] st]; cbn -[loadResumes].
  - match goal with |- context [loadResumes ?y] =>
      destruct (loadResumes_fields y) as (Hl & Hd & Hc & Hs & Ha & Hsrv & Hr) end.
    cbn in *. by rewrite Hl, Hs, Ha, Hsrv, Hr.
  - by rewrite Hconfirm.
Qed.

End HistoryFacts.

(* ===================================================================== *)
(** * Properties of the layout and of the interview panel *)
(* ===================================================================== *)

Section LayoutFacts.
Import Layout.

Lemma isActive_path currentPath p :
  isActive currentPath p = true →
  (p = "/upload" ∧ (currentPath = "/upload" ∨ currentPath = "/"))
  ∨ (p ≠ "/upload" ∧ ∃ rest, currentPath = p +:+ rest).
Proof.
  unfold isActive. destruct (String.eqb_spec p "/upload") as [->|Hne].
  - intros [?%String.eqb_eq|?%String.eqb_eq]%orb_true_iff; left; auto.
  - intros Hprefix%prefix_spec. by right.
Qed.

(** X23.  For every location, at most one item of the navigation menu is
    active, and so at most one group. *)
Theorem at_most_one_item_active currentPath :
  (∀ a b, a ∈ navItems → b ∈ navItems →
     isActive currentPath (path a) = true → isActive currentPath (path b) = true → a = b) ∧
  (∀ g h, g ∈ navGroups → h ∈ navGroups →
     isGroupActive currentPath g = true → isGroupActive currentPath h = true → g = h).
Proof.
  assert (Hitems : ∀ a b, a ∈ navItems → b ∈ navItems →
     isActive currentPath (path a) = true → isActive currentPath (path b) = true → a = b).
  { intros a b Ha Hb Hact Hbct.
    apply isActive_path in Hact. apply isActive_path in Hbct.
    cbv [navItems navGroups items fmap list_fmap concat app] in Ha, Hb.
    repeat (apply elem_of_cons in Ha as [->|Ha]); [..|by apply elem_of_nil in Ha];
      (repeat (apply elem_of_cons in Hb as [->|Hb]); [..|by apply elem_of_nil in Hb]);
      try reflexivity; exfalso; cbn [path] in *;
      destruct Hact as [[Hpa Hca]|[Hpa [ra Hca]]]; try discriminate Hpa; try done;
      destruct Hbct as [[Hpb Hcb]|[Hpb [rb Hcb]]]; try discriminate Hpb; try done;
      try destruct Hca as [Hca|Hca]; try destruct Hcb as [Hcb|Hcb];
      rewrite Hca in Hcb; cbv in Hcb; discriminate Hcb. }
  split; [exact Hitems|].
  intros g h Hg Hh [a [Ha Hact]]%existsb_exists [b [Hb Hbct]]%existsb_exists.
  cbv [navGroups] in Hg, Hh.
  repeat (apply elem_of_cons in Hg as [->|Hg]); [..|by apply elem_of_nil in Hg];
    (repeat (apply elem_of_cons in Hh as [->|Hh]); [..|by apply elem_of_nil in Hh]);
    try reflexivity; exfalso;
    (assert (Hab : a = b);
     [apply Hitems; [apply list_elem_of_In; cbv; cbv in Ha; tauto
                    |apply list_elem_of_In; cbv; cbv in Hb; tauto | done | done]|]);
    subst b; cbv in Ha, Hb; intuition (subst; discriminate).
Qed.

End LayoutFacts.

Section PanelFacts.
Import InterviewPanel.
Variable formatDateOnly : string → string.

Lemma indexOf_bounds l x : (-1 ≤ indexOf l x)%Z.
Proof.
  induction l as [|y l IH]; cbn; [lia|].
  destruct (decide (y = x)); [lia|]. destruct (indexOf l x); lia.
Qed.

Lemma indexOf_absent l x : x ∉ l → indexOf l x = (-1)%Z.
Proof.
  induction l as [|y l IH]; cbn; [done|].
  intros [Hne Hnot]%not_elem_of_cons. destruct (decide (y = x)); [congruence|].
  by rewrite IH.
Qed.






End PanelFacts.


(* ===================================================================== *)
(** * The properties at concrete inputs *)
(* ===================================================================== *)

Section EngineWitnesses.
Import Engine Examples.
#[local] Existing Instance demoCapability.

Lemma at_most_one_active_session_witness :
  atMostOneActive threeOfEight ∧
  (∃ s, sessions threeOfEight !! 0 = Some s ∧
        createOrResumeSession "another text" 5 7 threeOfEight = (Ok s, threeOfEight)) ∧
  (∃ s1 st1,
     createOrResumeSession "resume text" 2 7 emptyStore = (Ok s1, st1) ∧
     createOrResumeSession "another text" 5 7 st1 = (Ok s1, st1)).
Proof.
  destruct at_most_one_active_session as (Hempty & _ & Hreach & Hresume & Htwice).
  assert (Hinv : atMostOneActive threeOfEight).
  { apply Hreach. by exists threeOfEightOps. }
  split; [exact Hinv|]. split.
  - eexists. split; [reflexivity|].
    apply (Hresume threeOfEight "another text" 5 7%Z 0); [exact Hinv | | |].
    + reflexivity.
    + reflexivity.
    + intros Hc. vm_compute in Hc. discriminate.
  - eexists _, _. split; [reflexivity|].
    apply (Htwice emptyStore "resume text" 2); [exact Hempty | reflexivity].
Defined.

(** With the cursor at 0 a submission for index 2 is an [IndexMismatch];
    with the cursor at 3 of 8 a submission for index 3 moves it to 4. *)
Lemma submitAnswer_protocol_witness :
  submitAnswer 9 0 "x" threeOfEight = (Err SessionNotFound, threeOfEight) ∧
  submitAnswer 0 2 "x" twoAnswered = (Err SessionCompleted, twoAnswered) ∧
  submitAnswer 0 2 "x" freshEight = (Err IndexMismatch, freshEight) ∧
  (∃ resp s' st',
     submitAnswer 0 3 "fourth" threeOfEight = (Ok resp, st') ∧
     sessions st' !! 0 = Some s' ∧
     currentQuestionIndex s' = 4 ∧ status s' = IN_PROGRESS ∧
     hasNextQuestion resp = true).
Proof.
  split; [|split; [|split]].
  - apply (submitAnswer_protocol threeOfEight 9 0 "x"). reflexivity.
  - destruct (sessions twoAnswered !! 0) as [s|] eqn:Hs; [|vm_compute in Hs; discriminate].
    apply (submitAnswer_protocol twoAnswered 0 2 "x") with (s := s); [exact Hs|].
    vm_compute in Hs. injection Hs as <-. reflexivity.
  - destruct (sessions freshEight !! 0) as [s|] eqn:Hs; [|vm_compute in Hs; discriminate].
    apply (submitAnswer_protocol freshEight 0 2 "x") with (s := s); [exact Hs | |];
      vm_compute in Hs; injection Hs as <-.
    + intros Hc. discriminate.
    + clear. cbn. lia.
  - destruct (sessions threeOfEight !! 0) as [s|] eqn:Hs; [|vm_compute in Hs; discriminate].
    destruct (submitAnswer_protocol threeOfEight 0 3 "fourth") as (_ & _ & _ & Haccept).
    destruct (Haccept s Hs) as (resp & s' & st' & Hrun & Hs' & Hcursor & _ & Hdone & _ &
                                Hprogress & Hnext & _);
      [vm_compute in Hs; injection Hs as <-; intros Hc; discriminate
      |vm_compute in Hs; injection Hs as <-; reflexivity|].
    assert (Hcur : currentQuestionIndex s = 3 ∧ length (questions s) = 8).
    { vm_compute in Hs. injection Hs as <-. split; reflexivity. }
    destruct Hcur as [Hcur Hlen].
    assert (Hactive : status s' ≠ COMPLETED).
    { intros Hc. apply Hdone in Hc. clear - Hc Hcursor Hcur Hlen. lia. }
    exists resp, s', st'. split; [exact Hrun|]. split; [exact Hs'|].
    split; [by rewrite Hcursor, Hcur|]. split; [by apply Hprogress|].
    destruct (hasNextQuestion resp) eqn:Hhas; [reflexivity|].
    exfalso. apply Hactive. by apply Hnext.
Defined.

(** With the cursor at 3 of 8, questions 3 to 7 are scored zero. *)
Lemma completeEarly_zero_fills_witness :
  completeEarly 0 twoAnswered = (Err SessionCompleted, twoAnswered) ∧
  (∃ s', completeEarly 0 threeOfEight = (Ok (), putSession 0 s' threeOfEight) ∧
         status s' = COMPLETED ∧ currentQuestionIndex s' = 3 ∧
         ∀ i, 3 ≤ i < 8 →
           ∃ q', questions s' !! i = Some q' ∧ score q' = Some 0%Z ∧
                 feedback q' = Some nonResponseFeedback).
Proof.
  split.
  - destruct (sessions twoAnswered !! 0) as [s|] eqn:Hs; [|vm_compute in Hs; discriminate].
    apply (completeEarly_zero_fills twoAnswered 0) with (s := s); [exact Hs|].
    vm_compute in Hs. injection Hs as <-. reflexivity.
  - destruct (sessions threeOfEight !! 0) as [s|] eqn:Hs; [|vm_compute in Hs; discriminate].
    destruct (completeEarly_zero_fills threeOfEight 0) as (_ & _ & Haccept).
    destruct (Haccept s Hs) as (s' & Hrun & Hdone & Hcursor & _ & _ & _ & Hzero & _);
      [vm_compute in Hs; injection Hs as <-; intros Hc; discriminate|].
    vm_compute in Hs. injection Hs as <-.
    exists s'. split; [exact Hrun|]. split; [exact Hdone|]. split; [exact Hcursor|].
    intros i Hi.
    assert (i = 3 ∨ i = 4 ∨ i = 5 ∨ i = 6 ∨ i = 7) as Hcases by (clear - Hi; lia).
    destruct Hcases as [->|[->|[->|[->| ->]]]].
    all: match goal with |- ∃ q', _ !! ?i = _ ∧ _ =>
         edestruct (Hzero i _ eq_refl) as (q' & Hq' & Hscore & Hfb & _)
       end.
    all: try (clear; cbn; lia).
    all: try reflexivity.
    all: exists q'; split; [exact Hq'|]; split; [exact Hscore | exact Hfb].
Defined.

Lemma reachable_twoAnswered : reachable twoAnswered.
Proof. by exists twoAnsweredOps. Qed.

(** The first report of the two-question session costs one synthesis
    call; later requests return the same report without any. *)
Lemma getReport_computed_once_witness :
  getReport 0 threeOfEight = (Err SessionNotCompleted, threeOfEight) ∧
  (∃ r st1, getReport 0 twoAnswered = (Ok r, st1) ∧
            synthesisCalls 0 st1 = 1 ∧
            getReport 0 (run laterOps st1) = (Ok r, run laterOps st1)).
Proof.
  split.
  - destruct (sessions threeOfEight !! 0) as [s|] eqn:Hs; [|vm_compute in Hs; discriminate].
    apply (getReport_computed_once threeOfEight 0) with (s := s);
      [by exists threeOfEightOps | exact Hs |].
    vm_compute in Hs. injection Hs as <-. intros Hc. discriminate.
  - destruct (getReport 0 twoAnswered) as [[r|e] st1] eqn:Hrun;
      [|vm_compute in Hrun; discriminate].
    destruct (getReport_computed_once twoAnswered 0 reachable_twoAnswered) as [_ Honce].
    destruct (Honce r st1 Hrun) as (_ & Hcount & Hlater).
    exists r, st1. split; [reflexivity|]. split; [exact Hcount|].
    destruct (sessions twoAnswered !! 0) as [s|] eqn:Hs; [|vm_compute in Hs; discriminate].
    apply (Hlater s laterOps eq_refl).
    vm_compute in Hs. injection Hs as <-.
    apply (bool_decide_unpack _). vm_compute. exact I.
Defined.

(** Scores 65 and 66: the overall score is 131/2, with two details. *)
Lemma report_scores_are_means_witness :
  ∃ r st1, getReport 0 twoAnswered = (Ok r, st1) ∧
           (overallScore r == 131 # 2)%Q ∧ length (questionDetails r) = 2.
Proof.
  destruct (getReport 0 twoAnswered) as [[r|e] st1] eqn:Hrun;
    [|vm_compute in Hrun; discriminate].
  destruct (report_scores_are_means twoAnswered 0 r st1 reachable_twoAnswered Hrun)
    as (s & Hs & _ & _ & _ & _ & _ & _ & Htwo).
  exists r, st1. split; [reflexivity|].
  vm_compute in Hs. injection Hs as <-.
  apply (Htwo _ _ 65%Z 66%Z eq_refl eq_refl eq_refl).
Defined.
End EngineWitnesses.

Section ResumeWitnesses.
Import Resume Examples.
#[local] Existing Instance demoParse.
#[local] Existing Instance demoGrading.
#[local] Existing Instance demoStorage.
#[local] Existing Instance demoPersistence.
#[local] Existing Instance demoConfig.

Lemma validUpload_cv : validUpload cv.
Proof. split; reflexivity. Qed.

Lemma validUpload_flakyCv : validUpload flakyCv.
Proof. split; reflexivity. Qed.

Lemma validUpload_scan : validUpload scan.
Proof. split; reflexivity. Qed.

Lemma duplicate_intake_idempotent_witness :
  uploadAndAnalyze cv afterCv =
    (Returns (duplicateOf cvRecord cvAnalysis),
     afterCalls [DetectContentType cv; FindExistingResume cv; GetLatestAnalysisAsDTO 1]
                afterCv) ∧
  (∃ cs, uploadTimes 3 cv afterCv = afterCalls cs afterCv ∧
         countCalls isStorageWrite cs = 0 ∧ countCalls isAnalyzeCall cs = 0) ∧
  uploadAndAnalyze cv emptyWorld = (Returns cvFirstResult, afterCv) ∧
  uploadAndAnalyze cv afterCv =
    (Returns (asDuplicate cvFirstResult),
     afterCalls [DetectContentType cv; FindExistingResume cv; GetLatestAnalysisAsDTO 1]
                afterCv).
Proof.
  assert (Hfirst : uploadAndAnalyze cv emptyWorld = (Returns cvFirstResult, afterCv)).
  { vm_compute. reflexivity. }
  destruct (duplicate_intake_idempotent cv afterCv validUpload_cv) as [Hdup _].
  destruct (Hdup cvRecord cvAnalysis) as [Hone Hmany].
  { vm_compute. reflexivity. }
  { vm_compute. reflexivity. }
  destruct (Hmany 3) as (cs & Htimes & Hwrites & Hanalyses & _).
  destruct (duplicate_intake_idempotent cv emptyWorld validUpload_cv) as [_ Hfresh].
  split; [exact Hone|].
  split; [exists cs; split; [exact Htimes|]; split; [exact Hwrites | exact Hanalyses]|].
  split; [exact Hfirst|].
  apply (Hfresh cvFirstResult afterCv Hfirst). reflexivity.
Defined.

(** The record of [flakyCv] has no analysis; three more uploads make
    three more analysis calls and save none. *)
Lemma uncached_duplicate_reanalyses_witness :
  latestAnalysis 1 afterFlaky = None ∧
  (uploadAndAnalyze flakyCv afterFlaky).1 =
    Returns (duplicateOf flakyRecord
               {| overallScore := 10; summary := "Flaky text";
                  strengths := []; weaknesses := [] |}) ∧
  analyses (uploadTimes 3 flakyCv afterFlaky) = analyses afterFlaky ∧
  latestAnalysis 1 (uploadTimes 3 flakyCv afterFlaky) = None ∧
  countCalls isAnalyzeCall (calls (uploadTimes 3 flakyCv afterFlaky)) =
    countCalls isAnalyzeCall (calls afterFlaky) + 3.
Proof.
  assert (Hcached : latestAnalysis 1 afterFlaky = None) by (vm_compute; reflexivity).
  destruct (uncached_duplicate_reanalyses flakyCv afterFlaky flakyRecord validUpload_flakyCv)
    as [Hone Hmany].
  { vm_compute. reflexivity. }
  { exact Hcached. }
  destruct (Hmany 3) as (_ & Han & _ & Hnone & Hcount).
  split; [exact Hcached|]. split; [rewrite Hone; reflexivity|].
  split; [exact Han|]. split; [exact Hnone | exact Hcount].
Defined.

Lemma upload_without_text_fails_witness :
  uploadAndAnalyze scan emptyWorld =
    (Throws (BusinessException RESUME_PARSE_FAILED),
     afterCalls [DetectContentType scan; FindExistingResume scan; ParseResume scan]
                emptyWorld).
Proof.
  apply (upload_without_text_fails scan emptyWorld (Some "   ") validUpload_scan).
  - vm_compute. reflexivity.
  - reflexivity.
  - right. exists "   ". split; reflexivity.
Defined.

(** C6 as stated fails: the blank-text check does not precede the lookup
    by fingerprint.  For an upload whose extracted text is blank, on the
    empty world, the controller first looks the file up and only then
    extracts its text. *)
Lemma blank_check_follows_lookup :
  validUpload scan ∧
  parseResume scan = Returns (Some "   ") ∧
  (uploadAndAnalyze scan emptyWorld).1 = Throws (BusinessException RESUME_PARSE_FAILED) ∧
  calls (uploadAndAnalyze scan emptyWorld).2 =
    [DetectContentType scan; FindExistingResume scan; ParseResume scan] ∧
  ¬ extractionPrecedesLookup scan (uploadAndAnalyze scan emptyWorld).2.
Proof.
  split; [exact validUpload_scan|]. split; [reflexivity|]. split; [reflexivity|].
  split; [reflexivity|].
  intros Hprecedes.
  specialize (Hprecedes [DetectContentType scan] [ParseResume scan] eq_refl).
  apply list_elem_of_singleton in Hprecedes. discriminate.
Qed.

(** Deleting the résumé of [lockedCv]: the storage throws, the blob
    stays, the session and the record are gone. *)
Lemma deleteResume_cascades_witness :
  ∃ w', deleteResume 1 afterLocked = (Returns (), w') ∧
        blobs w' = blobs afterLocked ∧
        Engine.sessions (interviews w') !! 0 = None ∧
        resumes w' !! 1%Z = None ∧ analyses w' !! 1%Z = None.
Proof.
  destruct (deleteResume_cascades 1 afterLocked lockedRecord)
    as (w' & Hrun & _ & Hblobs & _ & Howned & _ & _ & _ & Hres & Han).
  { vm_compute. reflexivity. }
  exists w'. split; [exact Hrun|]. split; [exact Hblobs|].
  split; [|split; [exact Hres | exact Han]].
  destruct (Engine.sessions (interviews afterLocked) !! 0) as [s|] eqn:Hs;
    [|vm_compute in Hs; discriminate].
  apply (Howned 0 s Hs). vm_compute in Hs. injection Hs as <-. reflexivity.
Defined.

Lemma deleteResume_unknown_id_witness :
  deleteResume 5 afterCv =
    (Throws (BusinessException RESUME_NOT_FOUND), afterCalls [FindById 5] afterCv).
Proof.
  apply (deleteResume_unknown_id 5 afterCv). vm_compute. reflexivity.
Defined.


Lemma invalid_upload_rejected_witness :
  uploadAndAnalyze emptyUpload afterCv = (Throws (BusinessException BAD_REQUEST), afterCv).
Proof.
  destruct (invalid_upload_rejected emptyUpload afterCv) as [Hrun _].
  { intros [Hne _]. discriminate Hne. }
  rewrite Hrun. reflexivity.
Defined.

Lemma upload_cv_first : uploadAndAnalyze cv emptyWorld = (Returns cvFirstResult, afterCv).
Proof. vm_compute. reflexivity. Qed.

Lemma fresh_upload_round_trip_witness :
  resumes afterCv !! 1%Z = Some cvRecord ∧
  blobs afterCv !! "resumes/cv.pdf" = Some cv ∧
  latestAnalysis 1 afterCv = Some cvAnalysis ∧
  existingResume cv afterCv = Some cvRecord.
Proof.
  destruct (fresh_upload_round_trip cv emptyWorld cvFirstResult afterCv upload_cv_first)
    as (text & record & _ & _ & _ & _ & _ & _ & Hrecord & _ & _ & _ & _ & _ &
        Hblob & Hlatest & Hfound).
  { reflexivity. }
  assert (Heq : record = cvRecord).
  { vm_compute in Hrecord. injection Hrecord as <-. reflexivity. }
  rewrite Heq in *. split; [exact Hrecord|]. split; [exact Hblob|].
  split; [exact Hlatest | exact Hfound].
Defined.

Lemma upload_cv_again :
  uploadAndAnalyze cv afterCv =
    (Returns (asDuplicate cvFirstResult), (uploadAndAnalyze cv afterCv).2).
Proof. vm_compute. reflexivity. Qed.

Lemma duplicate_upload_reads_only_witness :
  ∃ cs, (uploadAndAnalyze cv afterCv).2 = afterCalls cs afterCv ∧
        countCalls isStorageWrite cs = 0 ∧ countCalls isAnalyzeCall cs = 0.
Proof.
  destruct (duplicate_upload_reads_only cv afterCv (asDuplicate cvFirstResult)
              (uploadAndAnalyze cv afterCv).2 upload_cv_again)
    as (resume & cs & Hfound & _ & Hworld & Hwrites & [[_ Hanalyses]|(Hnone & _)]).
  - reflexivity.
  - exists cs. split; [exact Hworld|]. split; [exact Hwrites | exact Hanalyses].
  - exfalso. vm_compute in Hfound. injection Hfound as <-.
    vm_compute in Hnone. discriminate Hnone.
Defined.



Lemma wellFormed_afterCv : wellFormed afterCv.
Proof. apply (uploadAndAnalyze_wellFormed cv emptyWorld), wellFormed_empty. Qed.


Lemma requests_keep_wellFormed_witness :
  wellFormed (serveAll [Upload cv; Upload flakyCv; Upload cv; Delete 1; Upload cv] emptyWorld).
Proof. apply requests_keep_wellFormed, wellFormed_empty. Defined.

Lemma delete_then_upload_is_fresh_witness :
  existingResume cv (deleteResume 1 afterCv).2 = None ∧
  ∀ r w', uploadAndAnalyze cv (deleteResume 1 afterCv).2 = (Returns r, w') →
    duplicate r = false ∧ resumeId r = 2%Z.
Proof.
  destruct (delete_then_upload_is_fresh 1 cv afterCv cvRecord wellFormed_afterCv)
    as [Hnone Hfresh].
  { vm_compute. reflexivity. }
  { reflexivity. }
  split; [exact Hnone|]. intros r w' Hrun.
  destruct (Hfresh r w' Hrun) as (Hdup & Hid & _). split; [exact Hdup | exact Hid].
Defined.

Lemma deleteResume_twice_witness :
  (deleteResume 1 (deleteResume 1 afterCv).2).1 =
    Throws (BusinessException RESUME_NOT_FOUND).
Proof.
  rewrite (deleteResume_twice 1 afterCv cvRecord); [reflexivity|].
  vm_compute. reflexivity.
Defined.

End ResumeWitnesses.

Section PageWitnesses.
Import InterviewPage Examples.
#[local] Existing Instance demoApi.




End PageWitnesses.

Section FrontendWitnesses.
Import Examples.

Lemma formatFileSize_kilobytes_witness :
  ∃ n, UploadPage.formatFileSize 1048575 = UploadPage.decimal1 n +:+ " KB" ∧ n = 10240%N.
Proof.
  destruct (formatFileSize_kilobytes 1048575) as (n & Htext & _ & _ & Hmax).
  { lia. }
  exists n. split; [exact Htext|]. apply Hmax. lia.
Defined.


#[local] Existing Instance demoHistoryApi.

Lemma handleDeleteConfirm_outcomes_witness :
  HistoryList.deleteConfirm
    (HistoryList.list_state (HistoryList.handleDeleteConfirm (confirming 2 "frontend.docx")))
    = Some (2%Z, "frontend.docx") ∧
  HistoryList.alerts (HistoryList.handleDeleteConfirm (confirming 2 "frontend.docx"))
    = ["resume is in use"] ∧
  HistoryList.deletingId
    (HistoryList.list_state (HistoryList.handleDeleteConfirm (confirming 2 "frontend.docx")))
    = None.
Proof.
  destruct (handleDeleteConfirm_outcomes (confirming 2 "frontend.docx") 2 "frontend.docx")
    as (Hdeleting & _ & Hrejected).
  { reflexivity. }
  cbn in Hrejected. destruct Hrejected as (_ & Hconfirm & _ & _ & Halerts).
  split; [exact Hconfirm|]. split; [exact Halerts | exact Hdeleting].
Defined.



End FrontendWitnesses.
